(** * ai-video-workflow: the workflow state machine, its stage contracts
      and the execution ledger

    A shallow embedding of the Python sources

      - [src/skills/base.py]        (SkillResult)
      - [src/story_generator.py]    (GeminiStoryGenerator)
      - [src/video_generator.py]    (Veo3VideoGenerator)
      - [src/skills/*.py]           (the skills wrapping generators and repositories)
      - [src/agents/*.py]           (StoryAgent, VideoAgent, YouTubeAgent)
      - [src/repository.py]         (WorkflowExecutionRepository)
      - [src/workflow.py]           (VideoWorkflowAgent)

    Python code is effectful: it reads the clock, calls remote services,
    touches files and the database, and raises.  Computations therefore
    live in a small state-and-exception monad [M] over a [World]; every
    call that leaves the process is answered by an oracle of the
    environment [Env] and recorded in the world's event list.  A call
    may also never come back, and so may the one loop of the program
    that has no bound; a computation then [Diverges].  [print] calls
    are not modelled.  Paths are those of [pathlib] on a POSIX system. *)

From Stdlib Require Import ZArith List String Ascii Bool Lia DecimalString.
From stdpp Require Import base option list gmap.
Import ListNotations.
Local Open Scope Z_scope.

(* ===================================================================== *)
(** * Python values *)
(* ===================================================================== *)

(** A Python [str] is a sequence of Unicode code points. *)
Definition str : Type := list N.

(** An ASCII literal of the source. *)
Definition lit (s : string) : str := map N_of_ascii (list_ascii_of_string s).
Arguments lit s%_string.

(** [str(n)] for an [int]. *)
Definition str_of_int (z : Z) : str := lit (NilZero.string_of_int (Z.to_int z)).

(** [sep.join(xs)] *)
Fixpoint join (sep : str) (xs : list str) : str :=
  match xs with
  | [] => []
  | [x] => x
  | x :: rest => x ++ sep ++ join sep rest
  end.

(** [s.split(sep)] for a separator [sep] of one code point. *)
Fixpoint str_split (sep : N) (s : str) : list str :=
  match s with
  | [] => [[]]
  | c :: rest =>
      if N.eqb c sep then [] :: str_split sep rest
      else match str_split sep rest with
           | part :: parts => (c :: part) :: parts
           | [] => [[c]]
           end
  end.

(** Truth value testing ([if x:], [not x], [x or y]). *)
Class Truthy (A : Type) := truthy : A -> bool.
#[global] Instance truthy_bool : Truthy bool := fun b => b.
#[global] Instance truthy_int : Truthy Z := fun z => negb (z =? 0).
#[global] Instance truthy_list {A} : Truthy (list A) :=
  fun l => match l with [] => false | _ :: _ => true end.
#[global] Instance truthy_str : Truthy str := truthy_list.
#[global] Instance truthy_option {A} `{Truthy A} : Truthy (option A) :=
  fun o => match o with None => false | Some a => truthy a end.

(** [x or y] when evaluating [y] has no effect. *)
Definition py_or {A} `{Truthy A} (x y : A) : A := if truthy x then x else y.

(** [o or y] where [o] may be [None] and [y] is a plain value. *)
Definition py_or_default {A} `{Truthy A} (o : option A) (y : A) : A :=
  match o with
  | Some x => if truthy x then x else y
  | None => y
  end.

(** An exception, as far as the program looks at it: [str(e)]. *)
Definition exn : Type := str.

(** What a pure function that may raise evaluates to. *)
Inductive evaluated (A : Type) : Type :=
| Value (a : A)
| Exception (e : exn).
Arguments Value {A} a.
Arguments Exception {A} e.

(** How a computation, or a call that leaves the process, ends: it
    returns, it raises, or it never comes back (a loop that polls without
    limit, a request without timeout). *)
Inductive outcome (A : Type) : Type :=
| Returns (a : A)
| Raises (e : exn)
| Diverges.
Arguments Returns {A} a.
Arguments Raises {A} e.
Arguments Diverges {A}.

(* ===================================================================== *)
(** * src/skills/base.py *)
(* ===================================================================== *)

Inductive SkillStatus := SUCCESS | FAILED | PENDING.

Definition SkillStatus_eqb (a b : SkillStatus) : bool :=
  match a, b with
  | SUCCESS, SUCCESS | FAILED, FAILED | PENDING, PENDING => true
  | _, _ => false
  end.

Module SkillResult.
Record t (T : Type) := mk { status : SkillStatus; data : option T; error : option str }.
Arguments mk {T} status data error.
Arguments status {T} _.
Arguments data {T} _.
Arguments error {T} _.

(** [cls(status=SkillStatus.SUCCESS, data=data)] *)
Definition success {T} (data : T) : t T := mk SUCCESS (Some data) None.

(** [cls(status=SkillStatus.FAILED, error=error)] *)
Definition failed {T} (error : str) : t T := mk FAILED None (Some error).

Definition is_success {T} (r : t T) : bool := SkillStatus_eqb (status r) SUCCESS.

(** What a caller may observe: a value built by exactly one of the two
      factories. *)
Inductive step_result {T} : t T -> Prop :=
| is_step_success (d : T) : step_result (success d)
| is_step_failed (m : str) : step_result (failed m).
End SkillResult.
Import SkillResult(success, failed, is_success, step_result).

(* ===================================================================== *)
(** * src/models.py *)
(* ===================================================================== *)

Module Story.
Record t := mk {
  title : str; dish : str; summary : str; story : str;
  cooking_steps : list str; video_prompts : list str; tags : list str;
    description : str; episode : option Z; date : option str }.
End Story.

Module StoryHistoryEntry.
Record t := mk {
    episode : Z; date : str; title : str; dish : str; summary : str; story : str;
    cooking_steps : list str; video_prompts : list str; tags : list str;
    description : str }.
End StoryHistoryEntry.

Module VideoGenerationResult.
Record t := mk {
    video_url : option str; operation_id : option str; status : str;
    file_path : option str; mock : bool }.
End VideoGenerationResult.

Module YouTubeUploadResult.
Record t := mk { video_id : str; url : str; title : str }.
End YouTubeUploadResult.

(** Pydantic models define neither [__bool__] nor [__len__]: an instance
    is always true. *)
#[global] Instance truthy_Story : Truthy Story.t := fun _ => true.
#[global] Instance truthy_YouTubeUploadResult : Truthy YouTubeUploadResult.t := fun _ => true.

(* ===================================================================== *)
(** * Time *)
(* ===================================================================== *)

(** A [datetime]: the wall-clock reading in microseconds since
    1970-01-01T00:00:00 of its own zone, and the zone's UTC offset in
    microseconds ([None] for a naive value). *)
Module datetime.
Record t := mk { wall : Z; tzinfo : option Z }.

(** [dt.replace(tzinfo=timezone.utc)] *)
Definition replace_tzinfo_utc (dt : t) : t := mk (wall dt) (Some 0).

(** The instant of an aware value, in UTC microseconds. *)
Definition instant (dt : t) (offset : Z) : Z := wall dt - offset.

(** The integer nearest to [n / d], for [d > 0]; a tie goes to the even
    one. *)
Definition round_half_even (n d : Z) : Z :=
  let q := n / d in
  let r := n mod d in
  if 2 * r <? d then q
  else if d <? 2 * r then q + 1
  else if Z.even q then q else q + 1.

(** [int(p / q)] for two Python ints [p >= 0] and [q > 0].  The true
    division of two ints is correctly rounded: its value is the binary64
    number nearest to the quotient, which has 53 significant bits;
    [int] then drops the fraction.  With [2^e <= p/q < 2^(e+1)] the
    significand is [p/q * 2^(52-e)] rounded to an integer.  (A quotient
    beyond the largest binary64 number raises [OverflowError]; the
    difference of two [datetime] values, at most 3.2 * 10^17
    microseconds, stays far below.) *)
Definition int_true_div (p q : Z) : Z :=
  if p =? 0 then 0
  else
    let c := Z.log2 p - Z.log2 q in
    let e := if (if 0 <=? c then q * 2 ^ c <=? p else q <=? p * 2 ^ (- c))
             then c else c - 1 in
    let k := 52 - e in
    if 0 <=? k then round_half_even (p * 2 ^ k) q / 2 ^ k
    else round_half_even p (q * 2 ^ (- k)) * 2 ^ (- k).

(** [int(td.total_seconds())] for a [timedelta] of [us] microseconds:
    [total_seconds] is the true division of the whole microseconds by
    10^6, and [int] truncates toward zero. *)
Definition int_total_seconds (us : Z) : Z :=
  if us <? 0 then - int_true_div (- us) 1000000 else int_true_div us 1000000.

(** [int((a - b).total_seconds())].  [a - b] is a [timedelta] of whole
    microseconds; subtracting a naive from an aware value raises
    [TypeError]. *)
Definition seconds_between (a b : t) : evaluated Z :=
  match tzinfo a, tzinfo b with
  | Some oa, Some ob => Value (int_total_seconds (instant a oa - instant b ob))
  | None, None => Value (int_total_seconds (wall a - wall b))
  | _, _ => Exception (lit "can't subtract offset-naive and offset-aware datetimes")
  end.
End datetime.

(* ===================================================================== *)
(** * src/db_models.py: table [workflow_executions] *)
(* ===================================================================== *)

Module WorkflowExecution.
Record t := mk {
  id : Z;
  episode_number : option Z;
  status : str;
  current_step : option str;
  story_id : option Z;
  video_generation_id : option Z;
  youtube_upload_id : option Z;
  error_message : option str;
  started_at : option datetime.t;
  completed_at : option datetime.t;
  duration_seconds : option Z }.
End WorkflowExecution.

(* ===================================================================== *)
(** * The world outside the interpreter *)
(* ===================================================================== *)

(** The nodes of the LangGraph graph built by [_build_graph]. *)
Module node.
Inductive t :=
| load_history | generate_story | generate_videos
| upload_to_youtube | save_history | handle_error.
End node.

(** Calls that leave the process, in the order they are made. *)
Inductive Event :=
(* google genai *)
| EvGenerateContent (episode : Z)
| EvGenerateVideos (full_prompt : str) (duration : Z)
| EvOperationsGet
| EvFilesDownload
| EvVideoSave (path : str)
(* file system and ffmpeg *)
| EvWriteText (path content : str)
| EvSubprocessRun (cmd : list str)
| EvUnlink (path : str)
(* YouTube *)
| EvYouTubeUpload (video_path title description : str) (tags : list str) (privacy_status : str)
| EvYouTubeVideoInfo (video_id : str)
(* repositories and the database session *)
| EvStoryGetLatest (limit : Z)
| EvStoryCreate (episode : Z)
| EvVideoGenerationCreate (story_id : Z) (status : str)
| EvVideoGenerationUpdate (video_id : Z) (status video_path error_message : option str)
| EvYouTubeUploadCreate (story_id : Z) (video_id : str)
| EvCommit
| EvRollback
(* the history file of the orchestrator *)
| EvHistoryFileRead
| EvHistoryFileWrite (episodes : list Z)
(* the orchestrator calling its agents *)
| EvStoryAgentGetHistory (limit : Z)
| EvStoryAgentRun (episode : option Z) (save_to_db : bool)
| EvVideoAgentRun (prompts : list str) (story_id : option Z) (duration : Z) (output_filename : option str)
| EvYouTubeAgentRun (video_path title : str) (privacy_status : str)
    (story_id video_generation_id : option Z).

Record World := mkWorld {
  ticks : nat;                                   (* clock readings taken so far *)
  events : list Event;                           (* newest last *)
  generator_history : list StoryHistoryEntry.t;  (* GeminiStoryGenerator.story_history *)
  executions : gmap Z WorkflowExecution.t;       (* workflow_executions, as the session sees it *)
  execution_seq : positive;                      (* the next primary key of that table *)
  visited : list node.t                          (* graph nodes entered so far, newest last *)
}.

Definition set_ticks (n : nat) (w : World) : World :=
  mkWorld n (events w) (generator_history w) (executions w) (execution_seq w) (visited w).
Definition set_events (l : list Event) (w : World) : World :=
  mkWorld (ticks w) l (generator_history w) (executions w) (execution_seq w) (visited w).
Definition set_generator_history (h : list StoryHistoryEntry.t) (w : World) : World :=
  mkWorld (ticks w) (events w) h (executions w) (execution_seq w) (visited w).
Definition set_executions (m : gmap Z WorkflowExecution.t) (w : World) : World :=
  mkWorld (ticks w) (events w) (generator_history w) m (execution_seq w) (visited w).
Definition set_execution_seq (p : positive) (w : World) : World :=
  mkWorld (ticks w) (events w) (generator_history w) (executions w) p (visited w).
Definition set_visited (l : list node.t) (w : World) : World :=
  mkWorld (ticks w) (events w) (generator_history w) (executions w) (execution_seq w) l.

Definition empty_world : World := mkWorld 0 [] [] ∅ 1%positive [].

(** ** The monad *)

Definition M (A : Type) : Type := World -> outcome A * World.

#[global] Instance M_ret : MRet M := fun A a w => (Returns a, w).
#[global] Instance M_bind : MBind M := fun A B k m w =>
  match m w with
  | (Returns a, w') => k a w'
  | (Raises e, w') => (Raises e, w')
  | (Diverges, w') => (Diverges, w')
  end.

(** [raise Exc(msg)] *)
Definition raise {A} (e : exn) : M A := fun w => (Raises e, w).

(** [try: body  except Exception as e: handler(e)].  What [body] did to
    the world before it raised stays done. *)
Definition try_except {A} (body : M A) (handler : exn -> M A) : M A := fun w =>
  match body w with
  | (Returns a, w') => (Returns a, w')
  | (Raises e, w') => handler e w'
  | (Diverges, w') => (Diverges, w')
  end.

(** A call answered by the environment: the oracle sees the world as it
    is when the call is made, and the call is recorded. *)
Definition extcall {A} (ev : Event) (oracle : World -> outcome A) : M A := fun w =>
  (oracle w, set_events (events w ++ [ev]) w).

(** A computation that does not end.  Of the world it leaves nothing is
    known; the model keeps the one it started in. *)
Definition diverge {A} : M A := fun w => (Diverges, w).

(** Lifting the value of a pure function into the monad. *)
Definition of_evaluated {A} (v : evaluated A) : M A := fun w =>
  (match v with Value a => Returns a | Exception e => Raises e end, w).

(** [for x in xs: body(x)] *)
Fixpoint for_each {A} (xs : list A) (body : A -> M unit) : M unit :=
  match xs with
  | [] => mret tt
  | x :: rest => body x ;; for_each rest body
  end.

(* ===================================================================== *)
(** * The environment *)
(* ===================================================================== *)

(** src/config.py, the fields the pipeline reads. *)
Record Settings := mkSettings {
  main_character_name : str;
  skip_video_generation : bool;
  test_video_path : str }.

(** The defaults of [class Settings]; the name is "넝심이". *)
Definition default_settings : Settings :=
  mkSettings [45341; 49900; 51060]%N false [].

(** The keyword arguments [**story_data] that [Story] accepts from a
    decoded JSON object. *)
Record StoryKwargs := mkStoryKwargs {
  kw_title : str; kw_dish : str; kw_summary : str; kw_story : str;
  kw_cooking_steps : list str; kw_video_prompts : list str; kw_tags : list str;
  kw_description : str }.

(** A long-running Veo operation as the polling loop of [generate_video]
    sees it: it is done (with or without generated videos), or it is not
    done and [client.operations.get] answers with the next state or
    raises, or it is not done and never will be, however often it is
    asked. *)
Inductive operation :=
| OpDone (has_videos : bool)
| OpRunning (next : operation)
| OpRunningThenGetRaises (e : exn)
| OpNeverDone.

Record Env := mkEnv {
  json : Type;                          (* values produced by [json.loads] *)
  settings : Settings;
  clock : nat -> Z;                     (* the n-th reading of the local clock, microseconds *)
  isoformat : Z -> str;                 (* [datetime.isoformat] of a reading *)
  server_now : nat -> datetime.t;       (* [func.now()] of the database server at the n-th reading *)
  output_dir : str;                     (* [str(self.output_dir)] *)
  (* google genai *)
  generate_content : Z -> list StoryHistoryEntry.t -> World -> outcome (option str);
  json_loads : str -> evaluated json;
  story_kwargs : json -> evaluated StoryKwargs;
  generate_videos : str -> Z -> World -> outcome operation;
  files_download : World -> outcome unit;
  video_save : str -> World -> outcome unit;
  (* file system and ffmpeg *)
  write_text : str -> str -> World -> outcome unit;
  subprocess_run : list str -> World -> outcome unit;
  unlink : str -> World -> outcome unit;
  (* YouTube *)
  youtube_upload : str -> str -> str -> list str -> str -> World -> outcome YouTubeUploadResult.t;
  (* repositories and session *)
  (* the rows of table [story_history], highest episode first *)
  story_history_rows : World -> outcome (list StoryHistoryEntry.t);
  story_create : Story.t -> Z -> World -> outcome Z;
  video_generation_create : Z -> str -> World -> outcome Z;
  video_generation_update : Z -> option str -> option str -> option str -> World -> outcome unit;
  youtube_upload_create : Z -> str -> str -> str -> option Z -> str -> World -> outcome Z;
  session_commit : World -> outcome unit;
  session_rollback : World -> outcome unit }.

(* ===================================================================== *)
(** * src/story_generator.py *)
(* ===================================================================== *)

(** The suffix of [s] that starts at the first occurrence of [c]. *)
Fixpoint from_first (c : N) (s : str) : option str :=
  match s with
  | [] => None
  | x :: rest => if N.eqb x c then Some s else from_first c rest
  end.

(** The prefix of [s] that ends at the last occurrence of [c]. *)
Definition through_last (c : N) (s : str) : option str :=
  match from_first c (rev s) with
  | Some r => Some (rev r)
  | None => None
  end.

(** [re.search(r"\{[\s\S]*\}", text)], then [.group(0)]: the greedy match
    runs from the first opening brace (code point 123) to the last
    closing brace (125) after it. *)
Definition re_search_braces (text : str) : option str :=
  match from_first 123%N text with
  | Some (open :: rest) =>
      match through_last 125%N rest with
      | Some body => Some (open :: body)
      | None => None
      end
  | _ => None
  end.

(* ===================================================================== *)
(** * pathlib *)
(* ===================================================================== *)

(** [PurePosixPath]: joining two path strings and reading the result
    back as a string. *)
Module pathlib.

(** [posixpath.join(a, b)]: an absolute [b] replaces [a]. *)
Definition posixpath_join (a b : str) : str :=
  match b with
  | 47%N :: _ => b
  | _ =>
      match a with
      | [] => b
      | _ => if bool_decide (last a = Some 47%N) then a ++ b else a ++ [47%N] ++ b
      end
  end.

(** [posixpath.splitroot], without the drive: the root and what
    follows it.  Exactly two leading slashes are a root of their own. *)
Definition splitroot (path : str) : str * str :=
  match path with
  | 47%N :: 47%N :: 47%N :: _ => ([47%N], tl path)
  | 47%N :: 47%N :: rel => ([47%N; 47%N], rel)
  | 47%N :: rel => ([47%N], rel)
  | _ => ([], path)
  end.

(** The parts of a path after its root: empty parts and ["."] are
    dropped. *)
Definition tail_parts (rel : str) : list str :=
  filter (fun part => part <> [] /\ part <> [46%N]) (str_split 47 rel).

(** [str(PurePosixPath(path))] *)
Definition normal (path : str) : str :=
  let '(root, rel) := splitroot path in
  match root ++ join [47%N] (tail_parts rel) with
  | [] => [46%N]
  | s => s
  end.

(** [str(PurePosixPath(a) / b)] *)
Definition joinpath (a b : str) : str := normal (posixpath_join a b).

End pathlib.

Section StoryGenerator.
Variable E : Env.

(** [datetime.now().isoformat()] *)
Definition now_isoformat : M str := fun w =>
  (Returns (isoformat E (clock E (ticks w))), set_ticks (S (ticks w)) w).

(** [Story( **story_data, episode=episode, date=date)] *)
Definition Story_of_kwargs (d : StoryKwargs) (episode : Z) (date : str) : Story.t :=
  Story.mk (kw_title d) (kw_dish d) (kw_summary d) (kw_story d)
           (kw_cooking_steps d) (kw_video_prompts d) (kw_tags d) (kw_description d)
           (Some episode) (Some date).

(** [text[:500] if text else fallback] *)
Definition text_or (text : option str) (fallback : str) : str :=
  match text with
  | Some t => if truthy t then firstn 500 t else fallback
  | None => fallback
  end.

(** The value built after the comment "기본값 반환" (return the default). *)
Definition default_story (text : option str) (episode : Z) (date : str) : Story.t :=
  let name := main_character_name (settings E) in
  Story.mk
    (* f"넝심이의 요리 - 에피소드 {episode}" *)
    ([45341; 49900; 51060; 51032; 32; 50836; 47532; 32; 45; 32;
      50640; 54588; 49548; 46300; 32]%N ++ str_of_int episode)
    (* "특별한 요리" *)
    [53945; 48324; 54620; 32; 50836; 47532]%N
    (* "넝심이가 요리를 만드는 귀여운 영상" *)
    [45341; 49900; 51060; 44032; 32; 50836; 47532; 47484; 32; 47564; 46300;
     45716; 32; 44480; 50668; 50868; 32; 50689; 49345]%N
    (* text[:500] if text else "넝심이가 요리를 만드는 스토리" *)
    (text_or text [45341; 49900; 51060; 44032; 32; 50836; 47532; 47484; 32;
                   47564; 46300; 45716; 32; 49828; 53664; 47532]%N)
    (* ["준비", "요리", "완성"] *)
    [[51456; 48708]%N; [50836; 47532]%N; [50756; 49457]%N]
    (* f"{name}가 요리를 준비하는 모습", f"{name}가 요리하는 모습",
       f"{name}가 완성된 요리를 보여주는 모습" *)
    [name ++ [44032; 32; 50836; 47532; 47484; 32; 51456; 48708; 54616; 45716; 32; 47784; 49845]%N;
     name ++ [44032; 32; 50836; 47532; 54616; 45716; 32; 47784; 49845]%N;
     name ++ [44032; 32; 50756; 49457; 46108; 32; 50836; 47532; 47484; 32;
              48372; 50668; 51452; 45716; 32; 47784; 49845]%N]
    (* ["요리", "라쿤", "쇼츠"] *)
    [[50836; 47532]%N; [46972; 53220]%N; [49660; 52768]%N]
    (* text[:500] if text else "넝심이의 요리 영상" *)
    (text_or text [45341; 49900; 51060; 51032; 32; 50836; 47532; 32; 50689; 49345]%N)
    (Some episode) (Some date).

(** The body of the [try] block of [parse_story_response]; [None] when
    control falls through the [if json_match:]. *)
Definition parse_story_try (text : option str) (episode : Z) : M (option Story.t) :=
  match text with
  | None => raise (lit "expected string or bytes-like object, got 'NoneType'")
  | Some t =>
      match re_search_braces t with
      | None => mret None
      | Some group0 =>
          story_data ← of_evaluated (json_loads E group0);
          date ← now_isoformat;
          kwargs ← of_evaluated (story_kwargs E story_data);
          mret (Some (Story_of_kwargs kwargs episode date))
      end
  end.

Definition parse_story_response (text : option str) (episode : Z) : M Story.t :=
  parsed ← try_except (parse_story_try text episode) (fun _ => mret None);
  match parsed with
  | Some story => mret story
  | None => date ← now_isoformat; mret (default_story text episode date)
  end.

(** [self.story_history = [...]] *)
Definition load_story_history (history : list StoryHistoryEntry.t) : M unit := fun w =>
  (Returns tt, set_generator_history history w).

Definition get_story_history : M (list StoryHistoryEntry.t) := fun w =>
  (Returns (generator_history w), w).

(** [self.story_history.append(history_entry)] *)
Definition append_story_history (entry : StoryHistoryEntry.t) : M unit := fun w =>
  (Returns tt, set_generator_history (generator_history w ++ [entry]) w).

(** [StoryHistoryEntry(episode=story.episode, date=story.date or
    datetime.now().isoformat(), title=story.title, ...)]; the model
    rejects a missing episode. *)
Definition history_entry_of (story : Story.t) : M StoryHistoryEntry.t :=
  date ← match Story.date story with
         | Some d => if truthy d then mret d else now_isoformat
         | None => now_isoformat
         end;
  match Story.episode story with
  | Some ep =>
      mret (StoryHistoryEntry.mk ep date (Story.title story) (Story.dish story)
              (Story.summary story) (Story.story story) (Story.cooking_steps story)
              (Story.video_prompts story) (Story.tags story) (Story.description story))
  | None => raise (lit "1 validation error for StoryHistoryEntry")
  end.

(** [GeminiStoryGenerator.generate_story].  The prompt text is a pure
    function of the episode and the loaded history, which are what the
    oracle receives. *)
Definition generate_story (episode_number : option Z) : M Story.t :=
  story_history ← get_story_history;
  let episode := py_or_default episode_number (Z.of_nat (length story_history) + 1) in
  try_except
    (text ← extcall (EvGenerateContent episode) (generate_content E episode story_history);
     story ← parse_story_response text episode;
     history_entry ← history_entry_of story;
     append_story_history history_entry;;
     mret story)
    (fun error => raise error).

End StoryGenerator.

(* ===================================================================== *)
(** * src/skills/story_skills.py *)
(* ===================================================================== *)

Section StorySkills.
Variable E : Env.

(** [GenerateStorySkill.execute] *)
Definition GenerateStorySkill_execute
    (episode_number : Z) (history : option (list StoryHistoryEntry.t))
    : M (SkillResult.t Story.t) :=
  try_except
    (match history with
     | Some h => if truthy h then load_story_history h else mret tt
     | None => mret tt
     end;;
     story ← generate_story E (Some episode_number);
     mret (success story))
    (fun e => mret (failed (lit "Story generation failed: " ++ e))).

(** [StoryRepository.get_latest]:
    [select(StoryHistory).order_by(desc(StoryHistory.episode)).limit(limit)].
    The database answers with the rows of the table, highest episode
    first, cut after [limit] rows; PostgreSQL refuses a negative
    [LIMIT].  The rows are given as [repo.to_model] converts them. *)
Definition StoryRepository_get_latest (limit : Z) : M (list StoryHistoryEntry.t) :=
  rows ← extcall (EvStoryGetLatest limit) (story_history_rows E);
  if limit <? 0 then raise (lit "LIMIT must not be negative")
  else mret (firstn (Z.to_nat limit) rows).

(** [GetStoryHistorySkill.execute] *)
Definition GetStoryHistorySkill_execute (limit : Z)
    : M (SkillResult.t (list StoryHistoryEntry.t)) :=
  try_except
    (history ← StoryRepository_get_latest limit;
     mret (success history))
    (fun e => mret (failed (lit "Failed to get story history: " ++ e))).

(** [SaveStorySkill.execute] *)
Definition SaveStorySkill_execute (story : Story.t) (episode : Z) : M (SkillResult.t Z) :=
  try_except
    (db_story_id ← extcall (EvStoryCreate episode) (story_create E story episode);
     extcall EvCommit (session_commit E);;
     mret (success db_story_id))
    (fun e =>
       extcall EvRollback (session_rollback E);;
       mret (failed (lit "Failed to save story: " ++ e))).

End StorySkills.

(* ===================================================================== *)
(** * src/video_generator.py *)
(* ===================================================================== *)

Section VideoGenerator.
Variable E : Env.

(** [str(self.output_dir / name)] *)
Definition output_path (name : str) : str := pathlib.joinpath (output_dir E) name.

(** [int(time.time())] *)
Definition time_time : M Z := fun w =>
  (Returns (Z.quot (clock E (ticks w)) 1000000), set_ticks (S (ticks w)) w).

(** The f-string that opens [generate_video]. *)
Definition full_prompt_of (prompt style aspect_ratio negative_prompt : str) : str :=
  prompt ++ lit ", " ++ style
    ++ lit ", high quality, cute raccoon character, cooking video, shorts format, "
    ++ aspect_ratio
    ++ lit " aspect ratio, no dialogue, no speech, no narration, sound effects only, ambient cooking sounds, avoid: "
    ++ negative_prompt.

(** [while not operation.done: ... operation = client.operations.get(operation)];
    the result says whether the finished operation carries generated
    videos.  The loop has no limit: on an operation that is never done
    it goes on asking and does not end. *)
Fixpoint wait_until_done (op : operation) : M bool :=
  match op with
  | OpDone has_videos => mret has_videos
  | OpRunning next =>
      extcall EvOperationsGet (fun _ => Returns tt);; wait_until_done next
  | OpRunningThenGetRaises e =>
      extcall EvOperationsGet (fun _ => Raises e)
  | OpNeverDone => diverge
  end.

(** [_generate_mock_video]: the placeholder result, marked [mock=True]. *)
Definition _generate_mock_video (prompt : str) : M VideoGenerationResult.t :=
  now ← time_time;
  let filepath := output_path (lit "mock_video_" ++ str_of_int now ++ lit ".mp4") in
  mret (VideoGenerationResult.mk (Some filepath) None (lit "completed") None true).

(** The body of the [try] block of [generate_video]: the render through
    the Veo service. *)
Definition render_with_veo (full_prompt : str) (duration : Z) : M VideoGenerationResult.t :=
  operation ← extcall (EvGenerateVideos full_prompt duration)
                      (generate_videos E full_prompt duration);
  has_videos ← wait_until_done operation;
  if has_videos : bool then
    extcall EvFilesDownload (files_download E);;
    now ← time_time;
    let filepath := output_path (lit "veo3_" ++ str_of_int now ++ lit ".mp4") in
    extcall (EvVideoSave filepath) (video_save E filepath);;
    mret (VideoGenerationResult.mk (Some filepath) None (lit "completed") None false)
  else
    (* ValueError("영상 생성 결과가 없습니다") *)
    raise [50689; 49345; 32; 49373; 49457; 32; 44208; 44284; 44032; 32;
           50630; 49845; 45768; 45796]%N.

(** [generate_video] with the default [style] and [negative_prompt]. *)
Definition generate_video (prompt : str) (duration : Z) (aspect_ratio : str)
    : M VideoGenerationResult.t :=
  let full_prompt :=
    full_prompt_of prompt (lit "cute, animated, raccoon cooking") aspect_ratio
                   (lit "realistic, human, scary") in
  try_except
    (render_with_veo full_prompt duration)
    (fun error => _generate_mock_video prompt).

(** ["\n".join(f"file '{path}'" for path in video_paths)] *)
Definition file_list_content (video_paths : list str) : str :=
  join [10%N] (map (fun path => lit "file '" ++ path ++ lit "'") video_paths).

(** The ffmpeg command line of [merge_videos]. *)
Definition ffmpeg_cmd (file_list_path output_file : str) : list str :=
  [lit "ffmpeg"; lit "-f"; lit "concat"; lit "-safe"; lit "0"; lit "-i";
   file_list_path; lit "-c"; lit "copy"; output_file].

(** [merge_videos] *)
Definition merge_videos (video_paths : list str) (output_filename : option str) : M str :=
  output_filename ←
    (if truthy output_filename then mret (default [] output_filename)
     else now ← time_time; mret (lit "final_video_" ++ str_of_int now ++ lit ".mp4"));
  let output_file := output_path output_filename in
  let file_list_path := output_path (lit "filelist.txt") in
  extcall (EvWriteText file_list_path (file_list_content video_paths))
          (write_text E file_list_path (file_list_content video_paths));;
  try_except
    (let cmd := ffmpeg_cmd file_list_path output_file in
     extcall (EvSubprocessRun cmd) (subprocess_run E cmd);;
     extcall (EvUnlink file_list_path) (unlink E file_list_path);;
     mret output_file)
    (fun error => raise error).

(** The [for] loop of [generate_video_sequence], with its accumulator. *)
Fixpoint render_segments (prompts : list str) (duration : Z) (videos : list str)
    : M (list str) :=
  match prompts with
  | [] => mret videos
  | prompt :: rest =>
      result ← generate_video prompt duration (lit "9:16");
      let videos :=
        match VideoGenerationResult.video_url result with
        | Some url =>
            if truthy url && bool_decide (VideoGenerationResult.status result = lit "completed")
            then videos ++ [url] else videos
        | None => videos
        end in
      render_segments rest duration videos
  end.

(** [generate_video_sequence] *)
Definition generate_video_sequence
    (prompts : list str) (duration : Z) (output_filename : option str) : M str :=
  videos ← render_segments prompts duration [];
  if (1 <? length videos)%nat then merge_videos videos output_filename
  else mret (match videos with v :: _ => v | [] => [] end).

End VideoGenerator.

(* ===================================================================== *)
(** * src/skills/video_skills.py and src/skills/youtube_skills.py *)
(* ===================================================================== *)

Section VideoAndYouTubeSkills.
Variable E : Env.

Definition GenerateVideoSkill_execute (prompt : str) (duration : Z) (aspect_ratio : str)
    : M (SkillResult.t VideoGenerationResult.t) :=
  try_except
    (result ← generate_video E prompt duration aspect_ratio; mret (success result))
    (fun e => mret (failed (lit "Video generation failed: " ++ e))).

Definition GenerateVideoSequenceSkill_execute
    (prompts : list str) (duration : Z) (output_filename : option str)
    : M (SkillResult.t str) :=
  try_except
    (video_path ← generate_video_sequence E prompts duration output_filename;
     mret (success video_path))
    (fun e => mret (failed (lit "Video sequence generation failed: " ++ e))).

Definition MergeVideosSkill_execute (video_paths : list str) (output_filename : str)
    : M (SkillResult.t str) :=
  try_except
    (output_file ← merge_videos E video_paths (Some output_filename);
     mret (success output_file))
    (fun e => mret (failed (lit "Video merge failed: " ++ e))).

Definition SaveVideoGenerationSkill_execute (story_id : Z) (status : str)
    : M (SkillResult.t Z) :=
  try_except
    (db_video_id ← extcall (EvVideoGenerationCreate story_id status)
                           (video_generation_create E story_id status);
     extcall EvCommit (session_commit E);;
     mret (success db_video_id))
    (fun e =>
       extcall EvRollback (session_rollback E);;
       mret (failed (lit "Failed to save video generation: " ++ e))).

Definition UpdateVideoGenerationSkill_execute
    (video_id : Z) (status video_path error_message : option str)
    : M (SkillResult.t bool) :=
  try_except
    (extcall (EvVideoGenerationUpdate video_id status video_path error_message)
             (video_generation_update E video_id status video_path error_message);;
     extcall EvCommit (session_commit E);;
     mret (success true))
    (fun e =>
       extcall EvRollback (session_rollback E);;
       mret (failed (lit "Failed to update video generation: " ++ e))).

(** [UploadVideoSkill.execute]; the uploader is the oracle. *)
Definition UploadVideoSkill_execute
    (video_path title description : str) (tags : list str) (privacy_status : str)
    : M (SkillResult.t YouTubeUploadResult.t) :=
  try_except
    (result ← extcall (EvYouTubeUpload video_path title description tags privacy_status)
                      (youtube_upload E video_path title description tags privacy_status);
     mret (success result))
    (fun e => mret (failed (lit "Upload failed: " ++ e))).

Definition SaveYouTubeUploadSkill_execute
    (story_id : Z) (video_id video_url title : str)
    (video_generation_id : option Z) (privacy_status : str)
    : M (SkillResult.t Z) :=
  try_except
    (record_id ← extcall (EvYouTubeUploadCreate story_id video_id)
                         (youtube_upload_create E story_id video_id video_url title
                                                video_generation_id privacy_status);
     extcall EvCommit (session_commit E);;
     mret (success record_id))
    (fun e =>
       extcall EvRollback (session_rollback E);;
       mret (failed (lit "Failed to save upload record: " ++ e))).

End VideoAndYouTubeSkills.

(* ===================================================================== *)
(** * src/agents/base.py *)
(* ===================================================================== *)

(** [BaseAgent.execute_skill]: look the skill up by name in [_skills];
    [skill] is the registered skill already applied to the keyword
    arguments of the call, [None] when the name is not registered. *)
Definition execute_skill {A} (skill_name : str) (skill : option (M A)) : M A :=
  match skill with
  | Some execute => execute
  | None => raise (lit "Skill '" ++ skill_name ++ lit "' not found")
  end.

(** [try: x = assign(); rest(x)  except Exception as e: handler(v, e)]
    where the handler reads a local variable [v] that the assignment
    sets: it sees [init] when the assignment itself raised and
    [local_of x] afterwards.  An exception raised by the handler is not
    caught again. *)
Definition try_except_local {X L A}
    (init : L) (assign : M X) (local_of : X -> L)
    (rest : X -> M A) (handler : L -> exn -> M A) : M A :=
  fun w =>
    match assign w with
    | (Returns x, w') => try_except (rest x) (handler (local_of x)) w'
    | (Raises e, w') => handler init e w'
    | (Diverges, w') => (Diverges, w')
    end.

(* ===================================================================== *)
(** * src/agents/story_agent.py *)
(* ===================================================================== *)

Module StoryAgentResult.
Record t := mk {
  story : option Story.t; story_id : option Z; episode : Z;
  success : bool; error : option str }.
End StoryAgentResult.

(** A [StoryAgent]: whether a database session was given, and the skills
    registered under the three names it uses. *)
Module StoryAgent.
Record t := mk {
  db_session : bool;
  generate_story_skill :
    option (Z -> option (list StoryHistoryEntry.t) -> M (SkillResult.t Story.t));
  get_story_history_skill : option (Z -> M (SkillResult.t (list StoryHistoryEntry.t)));
  save_story_skill : option (Story.t -> Z -> M (SkillResult.t Z)) }.

(** [__init__] and [_setup_skills] over the Gemini generator. *)
Definition init (E : Env) (db_session : bool) : t :=
  mk db_session
     (Some (GenerateStorySkill_execute E))
     (if db_session then Some (GetStoryHistorySkill_execute E) else None)
     (if db_session then Some (SaveStorySkill_execute E) else None).

(** [result.data if result.is_success else fallback] *)
Definition data_if_success {T} (result : SkillResult.t T) (fallback : option T) : option T :=
  if is_success result then SkillResult.data result else fallback.

Definition get_history (self : t) (limit : Z) : M (option (list StoryHistoryEntry.t)) :=
  if negb (db_session self) then mret (Some [])
  else
    result ← execute_skill (lit "get_story_history")
               (option_map (fun skill => skill limit) (get_story_history_skill self));
    mret (data_if_success result (Some [])).

Definition generate_story (self : t) (episode : Z)
    (history : option (list StoryHistoryEntry.t)) : M (option Story.t) :=
  result ← execute_skill (lit "generate_story")
             (option_map (fun skill => skill episode history) (generate_story_skill self));
  mret (data_if_success result None).

Definition save_story (self : t) (story : Story.t) (episode : Z) : M (option Z) :=
  if negb (db_session self) then mret None
  else
    result ← execute_skill (lit "save_story")
               (option_map (fun skill => skill story episode) (save_story_skill self));
    mret (data_if_success result None).

(** The statements of [run] up to and including [episode = len(history) + 1];
    [len(None)] raises. *)
Definition determine_episode (self : t) (episode : option Z)
    : M (option (list StoryHistoryEntry.t) * Z) :=
  history ← get_history self 50;
  match episode with
  | Some e => mret (history, e)
  | None =>
      match history with
      | Some h => mret (history, Z.of_nat (length h) + 1)
      | None => raise (lit "object of type 'NoneType' has no len()")
      end
  end.

(** [run]'s [except] clause: [episode or 0] reads the local variable. *)
Definition run_failed (episode : option Z) (e : exn) : M StoryAgentResult.t :=
  mret (StoryAgentResult.mk None None (py_or_default episode 0) false (Some e)).

Definition run (self : t) (episode : option Z) (save_to_db : bool) : M StoryAgentResult.t :=
  try_except_local
    episode
    (determine_episode self episode)
    (fun he => Some he.2)
    (fun '(history, episode) =>
       story ← generate_story self episode history;
       match story with
       | None =>
           mret (StoryAgentResult.mk None None episode false
                   (Some (lit "Failed to generate story")))
       | Some story =>
           story_id ← (if save_to_db && db_session self
                       then save_story self story episode else mret None);
           mret (StoryAgentResult.mk (Some story) story_id episode true None)
       end)
    run_failed.
End StoryAgent.

(* ===================================================================== *)
(** * src/agents/video_agent.py *)
(* ===================================================================== *)

Module VideoAgentResult.
Record t := mk {
  video_path : option str; video_generation_id : option Z; segment_count : Z;
  success : bool; error : option str }.
End VideoAgentResult.

Module VideoAgent.
Record t := mk {
  db_session : bool;
  generate_video_skill :
    option (str -> Z -> str -> M (SkillResult.t VideoGenerationResult.t));
  generate_video_sequence_skill :
    option (list str -> Z -> option str -> M (SkillResult.t str));
  merge_videos_skill : option (list str -> str -> M (SkillResult.t str));
  save_video_generation_skill : option (Z -> str -> M (SkillResult.t Z));
  update_video_generation_skill :
    option (Z -> option str -> option str -> option str -> M (SkillResult.t bool)) }.

Definition init (E : Env) (db_session : bool) : t :=
  mk db_session
     (Some (GenerateVideoSkill_execute E))
     (Some (GenerateVideoSequenceSkill_execute E))
     (Some (MergeVideosSkill_execute E))
     (if db_session then Some (SaveVideoGenerationSkill_execute E) else None)
     (if db_session then Some (UpdateVideoGenerationSkill_execute E) else None).

(** [f"video_{int(datetime.now().timestamp())}.mp4"] *)
Definition default_output_filename (E : Env) : M str :=
  now ← time_time E; mret (lit "video_" ++ str_of_int now ++ lit ".mp4").

Definition generate_video_sequence (E : Env) (self : t)
    (prompts : list str) (duration : Z) (output_filename : option str) : M (option str) :=
  output_filename ← match output_filename with
                    | Some f => mret f
                    | None => default_output_filename E
                    end;
  result ← execute_skill (lit "generate_video_sequence")
             (option_map (fun skill => skill prompts duration (Some output_filename))
                         (generate_video_sequence_skill self));
  mret (if is_success result then SkillResult.data result else None).

Definition save_generation_record (self : t) (story_id : Z) (status : str) : M (option Z) :=
  if negb (db_session self) then mret None
  else
    result ← execute_skill (lit "save_video_generation")
               (option_map (fun skill => skill story_id status)
                           (save_video_generation_skill self));
    mret (if is_success result then SkillResult.data result else None).

Definition update_generation_record (self : t)
    (video_id : Z) (status video_path error_message : option str) : M bool :=
  if negb (db_session self) then mret false
  else
    result ← execute_skill (lit "update_video_generation")
               (option_map (fun skill => skill video_id status video_path error_message)
                           (update_video_generation_skill self));
    mret (is_success result).

(** [if video_generation_id: await self.update_generation_record(...)] *)
Definition update_if_recorded (self : t) (video_generation_id : option Z)
    (status video_path error_message : option str) : M unit :=
  match video_generation_id with
  | Some id =>
      if truthy id
      then update_generation_record self id status video_path error_message;; mret tt
      else mret tt
  | None => mret tt
  end.

(** [run]'s [except] clause; it reads the local [video_generation_id]. *)
Definition run_failed (self : t) (prompts : list str)
    (video_generation_id : option Z) (e : exn) : M VideoAgentResult.t :=
  let error_msg := e in
  update_if_recorded self video_generation_id (Some (lit "failed")) None (Some error_msg);;
  mret (VideoAgentResult.mk None video_generation_id (Z.of_nat (length prompts))
          false (Some error_msg)).

Definition run (E : Env) (self : t) (prompts : list str) (story_id : option Z)
    (duration : Z) (output_filename : option str) : M VideoAgentResult.t :=
  try_except_local
    None
    (if truthy story_id && db_session self
     then save_generation_record self (default 0 story_id) (lit "processing")
     else mret None)
    id
    (fun video_generation_id =>
       output_filename ← match output_filename with
                         | Some f => mret f
                         | None => default_output_filename E
                         end;
       video_path ← generate_video_sequence E self prompts duration (Some output_filename);
       if truthy video_path then
         update_if_recorded self video_generation_id
           (Some (lit "completed")) video_path None;;
         mret (VideoAgentResult.mk video_path video_generation_id
                 (Z.of_nat (length prompts)) true None)
       else
         let error_msg := lit "Failed to generate video sequence" in
         update_if_recorded self video_generation_id
           (Some (lit "failed")) None (Some error_msg);;
         mret (VideoAgentResult.mk None video_generation_id
                 (Z.of_nat (length prompts)) false (Some error_msg)))
    (run_failed self prompts).
End VideoAgent.

(* ===================================================================== *)
(** * src/agents/youtube_agent.py *)
(* ===================================================================== *)

Module YouTubeAgentResult.
Record t := mk {
  video_id : option str; video_url : option str; upload_record_id : option Z;
  success : bool; error : option str }.
End YouTubeAgentResult.

Module YouTubeAgent.
Record t := mk {
  db_session : bool;
  upload_video_skill :
    option (str -> str -> str -> list str -> str -> M (SkillResult.t YouTubeUploadResult.t));
  save_youtube_upload_skill :
    option (Z -> str -> str -> str -> option Z -> str -> M (SkillResult.t Z)) }.

Definition init (E : Env) (db_session : bool) : t :=
  mk db_session
     (Some (UploadVideoSkill_execute E))
     (if db_session then Some (SaveYouTubeUploadSkill_execute E) else None).

Definition upload_video (self : t)
    (video_path title description : str) (tags : list str) (privacy_status : str)
    : M (option YouTubeUploadResult.t) :=
  result ← execute_skill (lit "upload_video")
             (option_map (fun skill => skill video_path title description tags privacy_status)
                         (upload_video_skill self));
  mret (if is_success result then SkillResult.data result else None).

Definition save_upload_record (self : t)
    (story_id : Z) (video_id video_url title : str)
    (video_generation_id : option Z) (privacy_status : str) : M (option Z) :=
  if negb (db_session self) then mret None
  else
    result ← execute_skill (lit "save_youtube_upload")
               (option_map
                  (fun skill => skill story_id video_id video_url title
                                      video_generation_id privacy_status)
                  (save_youtube_upload_skill self));
    mret (if is_success result then SkillResult.data result else None).

Definition run (self : t)
    (video_path title description : str) (tags : list str) (privacy_status : str)
    (story_id video_generation_id : option Z) : M YouTubeAgentResult.t :=
  try_except
    (upload_result ← upload_video self video_path title description tags privacy_status;
     match upload_result with
     | None =>
         mret (YouTubeAgentResult.mk None None None false
                 (Some (lit "Failed to upload video to YouTube")))
     | Some upload_result =>
         upload_record_id ←
           (if truthy story_id && db_session self
            then save_upload_record self (default 0 story_id)
                   (YouTubeUploadResult.video_id upload_result)
                   (YouTubeUploadResult.url upload_result)
                   (YouTubeUploadResult.title upload_result)
                   video_generation_id privacy_status
            else mret None);
         mret (YouTubeAgentResult.mk
                 (Some (YouTubeUploadResult.video_id upload_result))
                 (Some (YouTubeUploadResult.url upload_result))
                 upload_record_id true None)
     end)
    (fun e => mret (YouTubeAgentResult.mk None None None false (Some e))).
End YouTubeAgent.

(* ===================================================================== *)
(** * src/repository.py: WorkflowExecutionRepository *)
(* ===================================================================== *)

Module WorkflowExecutionRepository.
Section Repository.
Variable E : Env.

(** [create]: the row gets the next primary key, and [started_at] from
    the server default [func.now()]. *)
Definition create (episode_number : option Z) (status : str) : M WorkflowExecution.t :=
  fun w =>
    let id := Z.pos (execution_seq w) in
    let db_execution :=
      WorkflowExecution.mk id episode_number status None None None None None
                           (Some (server_now E (ticks w))) None None in
    (Returns db_execution,
     set_execution_seq (Pos.succ (execution_seq w))
       (set_executions (<[id := db_execution]> (executions w)) w)).

(** [if new: row.column = new] for a nullable column. *)
Definition assign_if_truthy {A} `{Truthy A} (new old : option A) : option A :=
  if truthy new then new else old.

(** The six guarded assignments of [update]. *)
Definition assign_columns
    (status current_step : option str)
    (story_id video_generation_id youtube_upload_id : option Z)
    (error_message : option str)
    (db_execution : WorkflowExecution.t) : WorkflowExecution.t :=
  WorkflowExecution.mk
    (WorkflowExecution.id db_execution)
    (WorkflowExecution.episode_number db_execution)
    (if truthy status then default [] status else WorkflowExecution.status db_execution)
    (assign_if_truthy current_step (WorkflowExecution.current_step db_execution))
    (assign_if_truthy story_id (WorkflowExecution.story_id db_execution))
    (assign_if_truthy video_generation_id (WorkflowExecution.video_generation_id db_execution))
    (assign_if_truthy youtube_upload_id (WorkflowExecution.youtube_upload_id db_execution))
    (assign_if_truthy error_message (WorkflowExecution.error_message db_execution))
    (WorkflowExecution.started_at db_execution)
    (WorkflowExecution.completed_at db_execution)
    (WorkflowExecution.duration_seconds db_execution).

(** [status in ["completed", "failed"]] *)
Definition is_terminal (status : option str) : bool :=
  match status with
  | Some s => bool_decide (s = lit "completed") || bool_decide (s = lit "failed")
  | None => false
  end.

Definition set_completed_at (dt : datetime.t) (r : WorkflowExecution.t) : WorkflowExecution.t :=
  WorkflowExecution.mk
    (WorkflowExecution.id r) (WorkflowExecution.episode_number r) (WorkflowExecution.status r)
    (WorkflowExecution.current_step r) (WorkflowExecution.story_id r)
    (WorkflowExecution.video_generation_id r) (WorkflowExecution.youtube_upload_id r)
    (WorkflowExecution.error_message r) (WorkflowExecution.started_at r)
    (Some dt) (WorkflowExecution.duration_seconds r).

Definition set_duration_seconds (d : Z) (r : WorkflowExecution.t) : WorkflowExecution.t :=
  WorkflowExecution.mk
    (WorkflowExecution.id r) (WorkflowExecution.episode_number r) (WorkflowExecution.status r)
    (WorkflowExecution.current_step r) (WorkflowExecution.story_id r)
    (WorkflowExecution.video_generation_id r) (WorkflowExecution.youtube_upload_id r)
    (WorkflowExecution.error_message r) (WorkflowExecution.started_at r)
    (WorkflowExecution.completed_at r) (Some d).

(** The block under [if status in ["completed", "failed"]:], given the
    reading [now] of [datetime.now(timezone.utc)]. *)
Definition stamp_completion (now : Z) (db_execution : WorkflowExecution.t)
    : evaluated WorkflowExecution.t :=
  let completed_at := datetime.mk now (Some 0) in
  let db_execution := set_completed_at completed_at db_execution in
  match WorkflowExecution.started_at db_execution with
  | Some started =>
      let started :=
        match datetime.tzinfo started with
        | None => datetime.replace_tzinfo_utc started
        | Some _ => started
        end in
      match datetime.seconds_between completed_at started with
      | Value duration => Value (set_duration_seconds duration db_execution)
      | Exception e => Exception e
      end
  | None => Value db_execution
  end.

(** [datetime.now(timezone.utc)], as UTC microseconds. *)
Definition utc_now : M Z := fun w =>
  (Returns (clock E (ticks w)), set_ticks (S (ticks w)) w).

(** What [update] does to the row it found. *)
Definition update_row
    (status current_step : option str)
    (story_id video_generation_id youtube_upload_id : option Z)
    (error_message : option str)
    (db_execution : WorkflowExecution.t) : M WorkflowExecution.t :=
  let db_execution :=
    assign_columns status current_step story_id video_generation_id youtube_upload_id
                   error_message db_execution in
  if is_terminal status
  then now ← utc_now; of_evaluated (stamp_completion now db_execution)
  else mret db_execution.

Definition select_by_id (execution_id : Z) : M (option WorkflowExecution.t) := fun w =>
  (Returns (executions w !! execution_id), w).

(** The row selected under [execution_id] is the object that was
    mutated; [flush] writes it back in place. *)
Definition flush (execution_id : Z) (db_execution : WorkflowExecution.t) : M unit := fun w =>
  (Returns tt, set_executions (<[execution_id := db_execution]> (executions w)) w).

Definition update
    (execution_id : Z)
    (status current_step : option str)
    (story_id video_generation_id youtube_upload_id : option Z)
    (error_message : option str) : M (option WorkflowExecution.t) :=
  found ← select_by_id execution_id;
  match found with
  | Some db_execution =>
      db_execution ← update_row status current_step story_id video_generation_id
                                youtube_upload_id error_message db_execution;
      flush execution_id db_execution;;
      mret (Some db_execution)
  | None => mret None
  end.

End Repository.
End WorkflowExecutionRepository.

(* ===================================================================== *)
(** * src/models.py: WorkflowState *)
(* ===================================================================== *)

Module WorkflowState.
Record t := mk {
  episode_number : option Z;
  privacy_status : str;
  story : option Story.t;
  story_history : list StoryHistoryEntry.t;
  story_id : option Z;
  video_segments : list VideoGenerationResult.t;
  final_video_path : option str;
  video_generation_id : option Z;
  upload_result : option YouTubeUploadResult.t;
  youtube_upload_id : option Z;
  error : option str;
  current_step : str;
  timestamp : option str;
  execution_id : option Z }.

Definition set_story (v : option Story.t) (s : t) : t :=
  mk (episode_number s) (privacy_status s) v (story_history s) (story_id s)
     (video_segments s) (final_video_path s) (video_generation_id s) (upload_result s)
     (youtube_upload_id s) (error s) (current_step s) (timestamp s) (execution_id s).
Definition set_story_history (v : list StoryHistoryEntry.t) (s : t) : t :=
  mk (episode_number s) (privacy_status s) (story s) v (story_id s)
     (video_segments s) (final_video_path s) (video_generation_id s) (upload_result s)
     (youtube_upload_id s) (error s) (current_step s) (timestamp s) (execution_id s).
Definition set_story_id (v : option Z) (s : t) : t :=
  mk (episode_number s) (privacy_status s) (story s) (story_history s) v
     (video_segments s) (final_video_path s) (video_generation_id s) (upload_result s)
     (youtube_upload_id s) (error s) (current_step s) (timestamp s) (execution_id s).
Definition set_final_video_path (v : option str) (s : t) : t :=
  mk (episode_number s) (privacy_status s) (story s) (story_history s) (story_id s)
     (video_segments s) v (video_generation_id s) (upload_result s)
     (youtube_upload_id s) (error s) (current_step s) (timestamp s) (execution_id s).
Definition set_video_generation_id (v : option Z) (s : t) : t :=
  mk (episode_number s) (privacy_status s) (story s) (story_history s) (story_id s)
     (video_segments s) (final_video_path s) v (upload_result s)
     (youtube_upload_id s) (error s) (current_step s) (timestamp s) (execution_id s).
Definition set_upload_result (v : option YouTubeUploadResult.t) (s : t) : t :=
  mk (episode_number s) (privacy_status s) (story s) (story_history s) (story_id s)
     (video_segments s) (final_video_path s) (video_generation_id s) v
     (youtube_upload_id s) (error s) (current_step s) (timestamp s) (execution_id s).
Definition set_youtube_upload_id (v : option Z) (s : t) : t :=
  mk (episode_number s) (privacy_status s) (story s) (story_history s) (story_id s)
     (video_segments s) (final_video_path s) (video_generation_id s) (upload_result s)
     v (error s) (current_step s) (timestamp s) (execution_id s).
Definition set_error (v : option str) (s : t) : t :=
  mk (episode_number s) (privacy_status s) (story s) (story_history s) (story_id s)
     (video_segments s) (final_video_path s) (video_generation_id s) (upload_result s)
     (youtube_upload_id s) v (current_step s) (timestamp s) (execution_id s).
Definition set_current_step (v : str) (s : t) : t :=
  mk (episode_number s) (privacy_status s) (story s) (story_history s) (story_id s)
     (video_segments s) (final_video_path s) (video_generation_id s) (upload_result s)
     (youtube_upload_id s) (error s) v (timestamp s) (execution_id s).

(** The defaults of the model, with the four fields [run] passes. *)
Definition initial (episode_number : option Z) (privacy_status : str)
    (timestamp : str) (execution_id : option Z) : t :=
  mk episode_number privacy_status None [] None [] None None None None None
     (lit "start") (Some timestamp) execution_id.
End WorkflowState.

(* ===================================================================== *)
(** * src/workflow.py: VideoWorkflowAgent *)
(* ===================================================================== *)

(** The three agents and the history file, as the orchestrator depends
    on them.  The methods of an agent are computations: they run in the
    world of the orchestrator, and what they do to it (the clock they
    read, the calls they make, the history the generator keeps) is there
    when they come back. *)
Record Agents := mkAgents {
  story_agent_get_history : Z -> M (list StoryHistoryEntry.t);
  story_agent_run : option Z -> bool -> M StoryAgentResult.t;
  video_agent_run :
    list str -> option Z -> Z -> option str -> M VideoAgentResult.t;
  youtube_agent_run :
    str -> str -> str -> list str -> str -> option Z -> option Z ->
    M YouTubeAgentResult.t;
  (* [history_file.exists()] and, if so, the decoded entries *)
  history_file_load : World -> outcome (option (list StoryHistoryEntry.t));
  history_file_write : list StoryHistoryEntry.t -> World -> outcome unit }.

(** A call of a method of an agent: the call is recorded, then the
    method runs. *)
Definition call_agent {A} (ev : Event) (method : M A) : M A := fun w =>
  method (set_events (events w ++ [ev]) w).

(** [Literal["continue", "error"]] *)
Inductive Route := Continue | Error.

Module VideoWorkflowAgent.
Section Workflow.
Variable E : Env.
Variable A : Agents.
(** [self._use_db and self.db_session] *)
Variable use_db : bool.

Import WorkflowState.

Definition load_history_node (state : WorkflowState.t) : M WorkflowState.t :=
  state ←
    try_except
      (if use_db then
         history ← call_agent (EvStoryAgentGetHistory 50) (story_agent_get_history A 50);
         mret (set_story_history history state)
       else
         loaded ← extcall EvHistoryFileRead (history_file_load A);
         match loaded with
         | Some history => mret (set_story_history history state)
         | None => mret (set_story_history [] state)
         end)
      (fun error => mret (set_story_history [] state));
  mret (set_current_step (lit "load_history") state).

Definition generate_story_node (state : WorkflowState.t) : M WorkflowState.t :=
  try_except
    (let episode :=
       py_or_default (episode_number state) (Z.of_nat (length (story_history state)) + 1) in
     result ← call_agent (EvStoryAgentRun (Some episode) use_db)
                         (story_agent_run A (Some episode) use_db);
     if negb (StoryAgentResult.success result) || negb (truthy (StoryAgentResult.story result))
     then
       (* ValueError(result.error or "스토리 생성 실패") *)
       raise (py_or_default (StoryAgentResult.error result)
                [49828; 53664; 47532; 32; 49373; 49457; 32; 49892; 54056]%N)
     else
       mret (set_current_step (lit "generate_story")
               (set_story_id (StoryAgentResult.story_id result)
                  (set_story (StoryAgentResult.story result) state))))
    (fun error => mret (set_current_step (lit "error") (set_error (Some error) state))).

Definition generate_videos_node (state : WorkflowState.t) : M WorkflowState.t :=
  try_except
    (match story state with
     | None =>
         (* ValueError("스토리가 생성되지 않았습니다.") *)
         raise [49828; 53664; 47532; 44032; 32; 49373; 49457; 46104; 51648; 32;
                50506; 50520; 49845; 45768; 45796; 46]%N
     | Some story =>
         if skip_video_generation (settings E) then
           if negb (truthy (test_video_path (settings E))) then
             (* ValueError("skip_video_generation=True이지만 test_video_path가
                설정되지 않았습니다.") *)
             raise (lit "skip_video_generation=True"
                    ++ [51060; 51648; 47564; 32]%N ++ lit "test_video_path"
                    ++ [44032; 32; 49444; 51221; 46104; 51648; 32; 50506; 50520;
                        49845; 45768; 45796; 46]%N)
           else
             mret (set_current_step (lit "generate_videos")
                     (set_video_generation_id None
                        (set_final_video_path (Some (test_video_path (settings E))) state)))
         else
           output_filename ← VideoAgent.default_output_filename E;
           result ← call_agent
                      (EvVideoAgentRun (Story.video_prompts story) (story_id state) 5
                                       (Some output_filename))
                      (video_agent_run A (Story.video_prompts story) (story_id state) 5
                                       (Some output_filename));
           if negb (VideoAgentResult.success result)
              || negb (truthy (VideoAgentResult.video_path result))
           then
             (* ValueError(result.error or "영상 생성 실패") *)
             raise (py_or_default (VideoAgentResult.error result)
                      [50689; 49345; 32; 49373; 49457; 32; 49892; 54056]%N)
           else
             mret (set_current_step (lit "generate_videos")
                     (set_video_generation_id (VideoAgentResult.video_generation_id result)
                        (set_final_video_path (VideoAgentResult.video_path result) state)))
     end)
    (fun error => mret (set_current_step (lit "error") (set_error (Some error) state))).

Definition upload_to_youtube_node (state : WorkflowState.t) : M WorkflowState.t :=
  try_except
    (match story state, final_video_path state with
     | Some story, Some video_path =>
         if negb (truthy video_path) then
           (* ValueError("스토리나 영상 경로가 없습니다.") *)
           raise [49828; 53664; 47532; 45208; 32; 50689; 49345; 32; 44221; 47196;
                  44032; 32; 50630; 49845; 45768; 45796; 46]%N
         else
           result ← call_agent
                      (EvYouTubeAgentRun video_path (Story.title story) (privacy_status state)
                                         (story_id state) (video_generation_id state))
                      (youtube_agent_run A video_path (Story.title story)
                                         (Story.description story) (Story.tags story)
                                         (privacy_status state)
                                         (story_id state) (video_generation_id state));
           if negb (YouTubeAgentResult.success result) then
             (* ValueError(result.error or "YouTube 업로드 실패") *)
             raise (py_or_default (YouTubeAgentResult.error result)
                      (lit "YouTube " ++ [50629; 47196; 46300; 32; 49892; 54056]%N))
           else
             mret (set_current_step (lit "upload_to_youtube")
                     (set_youtube_upload_id (YouTubeAgentResult.upload_record_id result)
                        (set_upload_result
                           (Some (YouTubeUploadResult.mk
                                    (py_or_default (YouTubeAgentResult.video_id result) [])
                                    (py_or_default (YouTubeAgentResult.video_url result) [])
                                    (Story.title story)))
                           state)))
     | _, _ =>
         raise [49828; 53664; 47532; 45208; 32; 50689; 49345; 32; 44221; 47196;
                44032; 32; 50630; 49845; 45768; 45796; 46]%N
     end)
    (fun error => mret (set_current_step (lit "error") (set_error (Some error) state))).

(** [StoryHistoryEntry(episode=state.story.episode, date=state.story.date, ...)]:
    both are required by the model. *)
Definition new_history_entry (story : Story.t) : evaluated StoryHistoryEntry.t :=
  match Story.episode story, Story.date story with
  | Some episode, Some date =>
      Value (StoryHistoryEntry.mk episode date (Story.title story) (Story.dish story)
                 (Story.summary story) (Story.story story) (Story.cooking_steps story)
                 (Story.video_prompts story) (Story.tags story) (Story.description story))
  | _, _ => Exception (lit "validation error for StoryHistoryEntry")
  end.

Definition save_history_node (state : WorkflowState.t) : M WorkflowState.t :=
  try_except
    (state ←
       (if use_db then
          extcall EvCommit (session_commit E);;
          history ← call_agent (EvStoryAgentGetHistory 100) (story_agent_get_history A 100);
          mret (set_story_history history state)
        else
          history ← match story state with
                    | Some story =>
                        new_entry ← of_evaluated (new_history_entry story);
                        mret (story_history state ++ [new_entry])
                    | None => mret (story_history state)
                    end;
          extcall (EvHistoryFileWrite (map StoryHistoryEntry.episode history))
                  (history_file_write A history);;
          mret (set_story_history history state));
     mret (set_current_step (lit "save_history") state))
    (fun error =>
       let state := set_error (Some error) state in
       (if use_db then extcall EvRollback (session_rollback E) else mret tt);;
       mret state).

Definition handle_error_node (state : WorkflowState.t) : M WorkflowState.t :=
  mret (set_current_step (lit "error") state).

Definition should_continue_after_story (state : WorkflowState.t) : Route :=
  if truthy (error state) || negb (truthy (story state)) then Error else Continue.

Definition should_continue_after_videos (state : WorkflowState.t) : Route :=
  if truthy (error state) || negb (truthy (final_video_path state)) then Error else Continue.

Definition should_continue_after_upload (state : WorkflowState.t) : Route :=
  if truthy (error state) || negb (truthy (upload_result state)) then Error else Continue.

(** ** The graph of [_build_graph] *)

Definition node_function (n : node.t) : WorkflowState.t -> M WorkflowState.t :=
  match n with
  | node.load_history => load_history_node
  | node.generate_story => generate_story_node
  | node.generate_videos => generate_videos_node
  | node.upload_to_youtube => upload_to_youtube_node
  | node.save_history => save_history_node
  | node.handle_error => handle_error_node
  end.

(** The edges; [None] is [END]. *)
Definition next_node (n : node.t) (state : WorkflowState.t) : option node.t :=
  match n with
  | node.load_history => Some node.generate_story
  | node.generate_story =>
      match should_continue_after_story state with
      | Continue => Some node.generate_videos
      | Error => Some node.handle_error
      end
  | node.generate_videos =>
      match should_continue_after_videos state with
      | Continue => Some node.upload_to_youtube
      | Error => Some node.handle_error
      end
  | node.upload_to_youtube =>
      match should_continue_after_upload state with
      | Continue => Some node.save_history
      | Error => Some node.handle_error
      end
  | node.save_history => None
  | node.handle_error => None
  end.

Definition enter (n : node.t) : M unit := fun w =>
  (Returns tt, set_visited (visited w ++ [n]) w).

(** Running the compiled graph from node [n]; [steps] is what is left of
    LangGraph's recursion limit. *)
Fixpoint invoke_from (steps : nat) (n : node.t) (state : WorkflowState.t)
    : M WorkflowState.t :=
  match steps with
  | O => raise (lit "Recursion limit reached without hitting a stop condition")
  | S steps =>
      enter n;;
      state ← node_function n state;
      match next_node n state with
      | Some n' => invoke_from steps n' state
      | None => mret state
      end
  end.

(** [self.graph.ainvoke(initial_state)], entry point [load_history],
    default recursion limit 25. *)
Definition ainvoke (initial_state : WorkflowState.t) : M WorkflowState.t :=
  invoke_from 25 node.load_history initial_state.

End Workflow.

Section Run.
Variable E : Env.
Variable A : Agents.

(** [run]'s [except] clause: mark the ledger entry failed, then re-raise. *)
Definition run_failed (execution_id : option Z) (error : exn) : M WorkflowState.t :=
  (if truthy execution_id then
     WorkflowExecutionRepository.update E (default 0 execution_id)
       (Some (lit "failed")) None None None None (Some error);;
     extcall EvCommit (session_commit E)
   else mret tt);;
  raise error.

(** [run].  Whether or not a session was passed to the constructor, by
    the time the [try] block starts [self._use_db] is true and the
    agents share the session. *)
Definition run (episode_number : option Z) (private : bool) : M WorkflowState.t :=
  try_except_local
    None
    (db_execution ← WorkflowExecutionRepository.create E episode_number (lit "running");
     mret (WorkflowExecution.id db_execution))
    Some
    (fun execution_id =>
       extcall EvCommit (session_commit E);;
       let privacy_status := if private then lit "private" else lit "public" in
       timestamp ← now_isoformat E;
       let initial_state :=
         WorkflowState.initial episode_number privacy_status timestamp (Some execution_id) in
       final_state ← ainvoke E A true initial_state;
       let error := WorkflowState.error final_state in
       (if truthy execution_id then
          let status := if negb (truthy error) then lit "completed" else lit "failed" in
          WorkflowExecutionRepository.update E execution_id (Some status) None
            (WorkflowState.story_id final_state)
            (WorkflowState.video_generation_id final_state)
            (WorkflowState.youtube_upload_id final_state)
            error;;
          extcall EvCommit (session_commit E)
        else mret tt);;
       mret final_state)
    run_failed.

End Run.
End VideoWorkflowAgent.

(* ===================================================================== *)
(** * Specification vocabulary *)
(* ===================================================================== *)

(** Whatever [c] returns satisfies [P] (it may also raise). *)
Definition returns_only {A} (P : A -> Prop) (c : M A) : Prop :=
  forall w a w', c w = (Returns a, w') -> P a.

(** [c] returns from every world, with a value satisfying [P]. *)
Definition always_returns {A} (P : A -> Prop) (c : M A) : Prop :=
  forall w, exists a w', c w = (Returns a, w') /\ P a.

(** [c] does not raise: from every world it returns a value satisfying
    [P], or it does not end. *)
Definition never_raises {A} (P : A -> Prop) (c : M A) : Prop :=
  forall w,
    match fst (c w) with
    | Returns a => P a
    | Raises _ => False
    | Diverges => True
    end.

(** The session's rollback answers normally in every world. *)
Definition rollback_returns (E : Env) : Prop :=
  forall w, session_rollback E w = Returns tt.

(** The generator's answer holds a JSON object that decodes and
    validates as a story. *)
Definition parseable (E : Env) (text : option str) : bool :=
  match text with
  | Some t =>
      match re_search_braces t with
      | Some group0 =>
          match json_loads E group0 with
          | Value story_data =>
              match story_kwargs E story_data with
              | Value _ => true
              | Exception _ => false
              end
          | Exception _ => false
          end
      | None => false
      end
  | None => false
  end.

(** The fields of a story other than [story], [description] and [date]. *)
Definition fixed_content (s : Story.t)
    : str * str * str * list str * list str * list str * option Z :=
  (Story.title s, Story.dish s, Story.summary s, Story.cooking_steps s,
   Story.video_prompts s, Story.tags s, Story.episode s).

(** The executions of the skills that wrap a generator or the uploader:
    their [except] clause only builds the failed result. *)
Inductive service_skill_run (E : Env) : forall T : Type, M (SkillResult.t T) -> Prop :=
| run_GenerateStorySkill episode_number history :
    service_skill_run E _ (GenerateStorySkill_execute E episode_number history)
| run_GetStoryHistorySkill limit :
    service_skill_run E _ (GetStoryHistorySkill_execute E limit)
| run_GenerateVideoSkill prompt duration aspect_ratio :
    service_skill_run E _ (GenerateVideoSkill_execute E prompt duration aspect_ratio)
| run_GenerateVideoSequenceSkill prompts duration output_filename :
    service_skill_run E _ (GenerateVideoSequenceSkill_execute E prompts duration output_filename)
| run_MergeVideosSkill video_paths output_filename :
    service_skill_run E _ (MergeVideosSkill_execute E video_paths output_filename)
| run_UploadVideoSkill video_path title description tags privacy_status :
    service_skill_run E _
      (UploadVideoSkill_execute E video_path title description tags privacy_status).

(** The executions of the skills that write through the session: their
    [except] clause rolls back before it builds the failed result. *)
Inductive persistence_skill_run (E : Env) : forall T : Type, M (SkillResult.t T) -> Prop :=
| run_SaveStorySkill story episode :
    persistence_skill_run E _ (SaveStorySkill_execute E story episode)
| run_SaveVideoGenerationSkill story_id status :
    persistence_skill_run E _ (SaveVideoGenerationSkill_execute E story_id status)
| run_UpdateVideoGenerationSkill video_id status video_path error_message :
    persistence_skill_run E _
      (UpdateVideoGenerationSkill_execute E video_id status video_path error_message)
| run_SaveYouTubeUploadSkill story_id video_id video_url title video_generation_id privacy_status :
    persistence_skill_run E _
      (SaveYouTubeUploadSkill_execute E story_id video_id video_url title
                                      video_generation_id privacy_status).

(** ** Events *)

(** [c] only adds events that satisfy [P], whatever its outcome. *)
Definition records_only {A} (P : Event -> Prop) (c : M A) : Prop :=
  forall w, exists new, events (snd (c w)) = events w ++ new /\ Forall P new.

(** The calls [merge_videos] makes: the file list, ffmpeg, the cleanup. *)
Definition is_concat_event (ev : Event) : bool :=
  match ev with
  | EvWriteText _ _ | EvSubprocessRun _ | EvUnlink _ => true
  | _ => false
  end.

Definition not_concat (ev : Event) : Prop := is_concat_event ev = false.

(** The command lines handed to [subprocess.run], oldest first. *)
Definition ffmpeg_runs (l : list Event) : list (list str) :=
  flat_map (fun ev => match ev with EvSubprocessRun cmd => [cmd] | _ => [] end) l.

(** The texts written with [write_text], oldest first. *)
Definition file_lists (l : list Event) : list str :=
  flat_map (fun ev => match ev with EvWriteText _ content => [content] | _ => [] end) l.

(** ** The video stage *)


(** A result the loop of [generate_video_sequence] keeps. *)
Definition usable (r : VideoGenerationResult.t) : Prop :=
  exists path, VideoGenerationResult.video_url r = Some path /\ path <> [] /\
               VideoGenerationResult.status r = lit "completed".

(** What one result contributes to [videos]. *)
Definition usable_url (r : VideoGenerationResult.t) : list str :=
  match VideoGenerationResult.video_url r with
  | Some url =>
      if truthy url && bool_decide (VideoGenerationResult.status r = lit "completed")
      then [url] else []
  | None => []
  end.

(** The renders of the loop, one per prompt, in the order of the prompts. *)
Fixpoint render_each (E : Env) (prompts : list str) (duration : Z)
    : M (list VideoGenerationResult.t) :=
  match prompts with
  | [] => mret []
  | prompt :: rest =>
      result ← generate_video E prompt duration (lit "9:16");
      results ← render_each E rest duration;
      mret (result :: results)
  end.

(** The result [_generate_mock_video] builds for a path. *)
Definition placeholder (path : str) : VideoGenerationResult.t :=
  VideoGenerationResult.mk (Some path) None (lit "completed") None true.



(** The name [merge_videos] writes to, and the world after choosing it. *)
Definition merge_target (E : Env) (output_filename : option str) (w : World) : str * World :=
  if truthy output_filename then (default [] output_filename, w)
  else (lit "final_video_" ++ str_of_int (Z.quot (clock E (ticks w)) 1000000) ++ lit ".mp4",
        set_ticks (S (ticks w)) w).

(** The lines of the file list. *)
Definition file_list_lines (video_paths : list str) : list str :=
  map (fun path => lit "file '" ++ path ++ lit "'") video_paths.

(** ** The agents *)

(** A failed result says why. *)
Definition failure_explained_story (r : StoryAgentResult.t) : Prop :=
  StoryAgentResult.success r = false -> is_Some (StoryAgentResult.error r).

Definition failure_explained_youtube (r : YouTubeAgentResult.t) : Prop :=
  YouTubeAgentResult.success r = false -> is_Some (YouTubeAgentResult.error r).

(** A result of the video agent counts the prompts it was given, and a
    failed one says why. *)
Definition video_result_ok (prompts : list str) (r : VideoAgentResult.t) : Prop :=
  VideoAgentResult.segment_count r = Z.of_nat (length prompts) /\
  (VideoAgentResult.success r = false -> is_Some (VideoAgentResult.error r)).

(** The update skill registered with the agent does not raise, and it
    is registered when there is a session. *)
Definition update_skill_never_raises (self : VideoAgent.t) : Prop :=
  (VideoAgent.db_session self = true ->
   is_Some (VideoAgent.update_video_generation_skill self)) /\
  (forall skill, VideoAgent.update_video_generation_skill self = Some skill ->
     forall id st vp em, never_raises (fun _ => True) (skill id st vp em)).



(** ** The ledger *)

(** The instant a [started_at] value stands for when a naive value is
    read as UTC. *)
Definition utc_instant (dt : datetime.t) : Z :=
  match datetime.tzinfo dt with
  | Some offset => datetime.wall dt - offset
  | None => datetime.wall dt
  end.

(** The keyword arguments of one call of [update]. *)
Record UpdateCall := mkUpdateCall {
  u_status : option str;
  u_current_step : option str;
  u_story_id : option Z;
  u_video_generation_id : option Z;
  u_youtube_upload_id : option Z;
  u_error_message : option str }.

Definition call_update (E : Env) (execution_id : Z) (u : UpdateCall)
    : M (option WorkflowExecution.t) :=
  WorkflowExecutionRepository.update E execution_id
    (u_status u) (u_current_step u) (u_story_id u)
    (u_video_generation_id u) (u_youtube_upload_id u) (u_error_message u).

(** A sequence of [update] calls on one entry. *)
Definition apply_updates (E : Env) (execution_id : Z) (us : list UpdateCall) : M unit :=
  for_each us (fun u => call_update E execution_id u;; mret tt).

Definition terminal (status : str) : Prop :=
  status = lit "completed" \/ status = lit "failed".

(** The call passes no status, or one of the two terminal ones. *)
Definition keeps_terminal (u : UpdateCall) : Prop :=
  match u_status u with
  | Some s => s = [] \/ terminal s
  | None => True
  end.

(** No link that was set has become null. *)
Definition links_kept (r r' : WorkflowExecution.t) : Prop :=
  (is_Some (WorkflowExecution.story_id r) -> is_Some (WorkflowExecution.story_id r')) /\
  (is_Some (WorkflowExecution.video_generation_id r) ->
   is_Some (WorkflowExecution.video_generation_id r')) /\
  (is_Some (WorkflowExecution.youtube_upload_id r) ->
   is_Some (WorkflowExecution.youtube_upload_id r')).

(** ** The orchestrator *)

Section OrchestratorVocabulary.
Import WorkflowState.

(** The world after [dt] more clock readings, the calls [evs] and the
    nodes [nodes]. *)
Definition advance (dt : nat) (evs : list Event) (nodes : list node.t) (w : World) : World :=
  mkWorld (dt + ticks w) (events w ++ evs) (generator_history w) (executions w)
          (execution_seq w) (visited w ++ nodes).

(** No agent lets an exception with an empty text escape. *)
Definition agents_explain (A : Agents) : Prop :=
  (forall episode save_to_db w,
      fst (story_agent_run A episode save_to_db w) <> Raises []) /\
  (forall prompts story_id duration output_filename w,
      fst (video_agent_run A prompts story_id duration output_filename w) <> Raises []) /\
  (forall video_path title description tags privacy_status story_id video_generation_id w,
      fst (youtube_agent_run A video_path title description tags privacy_status
                             story_id video_generation_id w) <> Raises []).

Definition is_agent_run (ev : Event) : bool :=
  match ev with
  | EvStoryAgentRun _ _ | EvVideoAgentRun _ _ _ _ | EvYouTubeAgentRun _ _ _ _ _ => true
  | _ => false
  end.

(** From [w] to [w'] the calls [evs] were made and the nodes [nodes]
    entered; the ledger is as it was. *)
Definition graph_step (evs : list Event) (nodes : list node.t) (w w' : World) : Prop :=
  events w' = events w ++ evs /\ visited w' = visited w ++ nodes /\
  executions w' = executions w /\ execution_seq w' = execution_seq w.

(** What an agent may do to the world of the orchestrator: read the
    clock, make calls of its own, change the history the generator
    keeps.  It neither touches the ledger nor enters a node, and it
    does not call an agent. *)
Definition agent_step (w w' : World) : Prop :=
  exists new, graph_step new [] w w' /\ Forall (fun ev => is_agent_run ev = false) new.

(** Whatever its outcome, [c] changes the world along [R]. *)
Definition respects {X} (R : World -> World -> Prop) (c : M X) : Prop :=
  forall w, R w (snd (c w)).

Definition agents_frame (A : Agents) : Prop :=
  (forall limit, respects agent_step (story_agent_get_history A limit)) /\
  (forall episode save_to_db, respects agent_step (story_agent_run A episode save_to_db)) /\
  (forall prompts story_id duration output_filename,
      respects agent_step (video_agent_run A prompts story_id duration output_filename)) /\
  (forall video_path title description tags privacy_status story_id video_generation_id,
      respects agent_step
        (youtube_agent_run A video_path title description tags privacy_status
                           story_id video_generation_id)).

(** The state a stage node hands on when it has caught an exception. *)
Definition failed_with (msg : str) (s : WorkflowState.t) : WorkflowState.t :=
  set_current_step (lit "error") (set_error (Some msg) s).

(** The calls the three stage nodes make in state [s]. *)
Definition story_call (use_db : bool) (s : WorkflowState.t) : Event :=
  EvStoryAgentRun
    (Some (py_or_default (episode_number s) (Z.of_nat (length (story_history s)) + 1)))
    use_db.

Definition video_call (output_filename : str) (story : Story.t) (s : WorkflowState.t) : Event :=
  EvVideoAgentRun (Story.video_prompts story) (story_id s) 5 (Some output_filename).

Definition youtube_call (story : Story.t) (video_path : str) (s : WorkflowState.t) : Event :=
  EvYouTubeAgentRun video_path (Story.title story) (privacy_status s)
                    (story_id s) (video_generation_id s).

(** The file name [generate_videos_node] makes up in world [w]. *)
Definition node_output_filename (E : Env) (w : World) : str :=
  lit "video_" ++ str_of_int (Z.quot (clock E (ticks w)) 1000000) ++ lit ".mp4".

Inductive stage := story_stage | video_stage | upload_stage.

(** The nodes the graph has entered once stage [k] has run. *)
Definition nodes_through (k : stage) : list node.t :=
  match k with
  | story_stage => [node.load_history; node.generate_story]
  | video_stage => [node.load_history; node.generate_story; node.generate_videos]
  | upload_stage =>
      [node.load_history; node.generate_story; node.generate_videos; node.upload_to_youtube]
  end.

(** [ev] is a call of the agent of a stage after [k]. *)
Definition calls_agent_after (k : stage) (ev : Event) : bool :=
  match k, ev with
  | story_stage, (EvVideoAgentRun _ _ _ _ | EvYouTubeAgentRun _ _ _ _ _) => true
  | video_stage, EvYouTubeAgentRun _ _ _ _ _ => true
  | _, _ => false
  end.

Definition artifact_missing (k : stage) (s : WorkflowState.t) : Prop :=
  match k with
  | story_stage => story s = None
  | video_stage => final_video_path s = None
  | upload_stage => upload_result s = None
  end.

(** A state no stage has written to. *)
Definition fresh (s : WorkflowState.t) : Prop :=
  story s = None /\ error s = None /\ final_video_path s = None /\ upload_result s = None.

(** The worlds [run] goes through before the graph starts: after the
    ledger entry is created, and after the commit and the timestamp. *)
Definition created (E : Env) (episode_number : option Z) (w : World) : World :=
  snd (WorkflowExecutionRepository.create E episode_number (lit "running") w).

Definition graph_start (E : Env) (episode_number : option Z) (w : World) : World :=
  advance 1 [EvCommit] [] (created E episode_number w).

(** The state [run] starts the graph with. *)
Definition run_initial_state (E : Env) (episode_number : option Z) (private : bool) (w : World)
    : WorkflowState.t :=
  WorkflowState.initial episode_number (if private then lit "private" else lit "public")
    (isoformat E (clock E (ticks w))) (Some (Z.pos (execution_seq w))).

(** The ledger entry of the run that starts in world [w], as [w'] has it. *)
Definition ledger_status (w w' : World) : option str :=
  WorkflowExecution.status <$> executions w' !! Z.pos (execution_seq w).

End OrchestratorVocabulary.

(* ===================================================================== *)
(** * Sample environments *)
(* ===================================================================== *)

Definition sample_kwargs : StoryKwargs :=
  mkStoryKwargs (lit "Rainy day pancakes") (lit "pancakes") (lit "A cosy breakfast")
                (lit "It rains, so we cook.") [lit "mix"; lit "fry"; lit "serve"]
                [lit "mixing batter"; lit "flipping"; lit "plating"]
                [lit "cooking"; lit "raccoon"] (lit "Pancakes with a raccoon").

(** A world in which every service answers.  The switches say whether
    the Veo service is up, whether ffmpeg works, and whether the
    database accepts writes; the generator answers [response]. *)
Definition sample_env (cfg : Settings) (response : option str)
    (veo_up ffmpeg_ok db_ok : bool) : Env :=
  mkEnv unit cfg
    (fun n => 1700000000000000 + Z.of_nat n * 1000000)
    (fun reading => lit "T" ++ str_of_int reading)
    (fun n => datetime.mk (1700000000000000 + Z.of_nat n * 1000000) (Some 0))
    (lit "/app/output/videos")
    (fun _ _ _ => Returns response)
    (fun group0 => if bool_decide (group0 = lit "{}") then Value tt
                   else Exception (lit "Expecting property name enclosed in double quotes"))
    (fun _ => Value sample_kwargs)
    (fun _ _ _ => if veo_up then Returns (OpRunning (OpDone true))
                  else Raises (lit "503 Service Unavailable"))
    (fun _ => Returns tt)
    (fun _ _ => Returns tt)
    (fun _ _ _ => Returns tt)
    (fun _ _ => if ffmpeg_ok then Returns tt
                else Raises (lit "Command '['ffmpeg', ...]' returned non-zero exit status 1."))
    (fun _ _ => Returns tt)
    (fun _ title _ _ _ _ =>
       Returns (YouTubeUploadResult.mk (lit "abc123")
                  (lit "https://www.youtube.com/watch?v=abc123") title))
    (fun _ => Returns [])
    (fun _ _ _ => if db_ok then Returns 11 else Raises (lit "connection is closed"))
    (fun _ _ _ => if db_ok then Returns 7 else Raises (lit "connection is closed"))
    (fun _ _ _ _ _ => if db_ok then Returns tt else Raises (lit "connection is closed"))
    (fun _ _ _ _ _ _ _ => if db_ok then Returns 21 else Raises (lit "connection is closed"))
    (fun _ => if db_ok then Returns tt else Raises (lit "connection is closed"))
    (fun _ => Returns tt).


(** The same environment with another database session. *)
Definition with_session (commit rollback : World -> outcome unit) (E : Env) : Env :=
  mkEnv (json E) (settings E) (clock E) (isoformat E) (server_now E) (output_dir E)
        (generate_content E) (json_loads E) (story_kwargs E) (generate_videos E)
        (files_download E) (video_save E) (write_text E) (subprocess_run E) (unlink E)
        (youtube_upload E) (story_history_rows E) (story_create E)
        (video_generation_create E) (video_generation_update E) (youtube_upload_create E)
        commit rollback.

(** The last statement sent is an update of a video generation row,
    or the commit attempted for it. *)
Definition update_pending (l : list Event) : bool :=
  match rev l with
  | EvVideoGenerationUpdate _ _ _ _ :: _ => true
  | EvCommit :: EvVideoGenerationUpdate _ _ _ _ :: _ => true
  | _ => false
  end.

(** Every service answers and the generator sends a JSON story, but the
    rows of the video generation table are locked by another
    transaction: the commit that follows an update of such a row times
    out, and the rollback after it raises with the exception text
    [text].  Every other commit goes through. *)
Definition lock_timeout_env (text : str) : Env :=
  with_session
    (fun w => if update_pending (events w) then Raises (lit "lock timeout") else Returns tt)
    (fun w => if update_pending (events w) then Raises text else Returns tt)
    (sample_env default_settings (Some (lit "{}")) true true true).

(** The agents [VideoWorkflowAgent] builds over the session:
    [StoryAgent(db_session=session)], [VideoAgent(db_session=session)]
    and [YouTubeAgent(db_session=session)].  There is no history
    file. *)
Definition session_agents (E : Env) : Agents :=
  mkAgents
    (fun limit =>
       history ← StoryAgent.get_history (StoryAgent.init E true) limit;
       mret (default [] history))
    (StoryAgent.run (StoryAgent.init E true))
    (VideoAgent.run E (VideoAgent.init E true))
    (YouTubeAgent.run (YouTubeAgent.init E true))
    (fun _ => Returns None)
    (fun _ _ => Returns tt).

(** A row of table [story_history] for episode [n], as [to_model]
    converts it. *)
Definition stored_episode (n : Z) : StoryHistoryEntry.t :=
  StoryHistoryEntry.mk n (lit "2024-05-01T09:00:00") (lit "Raccoon cooks") (lit "stew")
                       (lit "A stew for a cold day") (lit "It is cold, so we cook.")
                       [lit "chop"; lit "simmer"] [lit "chopping"; lit "simmering"]
                       [lit "cooking"] (lit "Stew with a raccoon").

(** The table with the episodes [1 .. n], highest episode first. *)
Definition stored_episodes (n : nat) : list StoryHistoryEntry.t :=
  map (fun i => stored_episode (Z.of_nat i)) (rev (seq 1 n)).

(** The same environment over a [story_history] table that holds
    [rows].  Column [episode] is declared [unique=True]: an insert with
    an episode number that is in the table is refused. *)
Definition with_story_table (rows : list StoryHistoryEntry.t) (E : Env) : Env :=
  mkEnv (json E) (settings E) (clock E) (isoformat E) (server_now E) (output_dir E)
        (generate_content E) (json_loads E) (story_kwargs E) (generate_videos E)
        (files_download E) (video_save E) (write_text E) (subprocess_run E) (unlink E)
        (youtube_upload E)
        (fun _ => Returns rows)
        (fun story episode w =>
           if bool_decide (episode ∈ map StoryHistoryEntry.episode rows)
           then Raises (lit "duplicate key value violates unique constraint")
           else story_create E story episode w)
        (video_generation_create E) (video_generation_update E) (youtube_upload_create E)
        (session_commit E) (session_rollback E).

(** Every service answers, the generator sends a JSON story, and sixty
    episodes are stored. *)
Definition sixty_episodes_env : Env :=
  with_story_table (stored_episodes 60)
    (sample_env default_settings (Some (lit "{}")) true true true).

(** The same environment with other clocks. *)
Definition with_clocks (local : nat -> Z) (server : nat -> datetime.t) (E : Env) : Env :=
  mkEnv (json E) (settings E) local (isoformat E) server (output_dir E)
        (generate_content E) (json_loads E) (story_kwargs E) (generate_videos E)
        (files_download E) (video_save E) (write_text E) (subprocess_run E) (unlink E)
        (youtube_upload E) (story_history_rows E) (story_create E)
        (video_generation_create E) (video_generation_update E) (youtube_upload_create E)
        (session_commit E) (session_rollback E).

(** The database server's clock runs one hour ahead of the local one. *)
Definition skewed_clock_env : Env :=
  with_clocks
    (fun n => 1700000000000000 + Z.of_nat n * 1000000)
    (fun n => datetime.mk (1700003600000000 + Z.of_nat n * 1000000) (Some 0))
    (sample_env default_settings None true true true).

(** A world with one ledger entry, created by [create] with the status
    "running". *)
Definition world_with_entry (E : Env) : World :=
  snd (WorkflowExecutionRepository.create E None (lit "running") empty_world).

(** The settings of a test run: the skip switch is on and a test video
    is configured. *)
Definition test_run_settings : Settings :=
  mkSettings (main_character_name default_settings) true (lit "/data/test.mp4").

(** The state of a run as the [generate_story] node leaves it when the
    story agent has answered with a story and its record id. *)
Definition state_after_story : WorkflowState.t :=
  WorkflowState.set_current_step (lit "generate_story")
    (WorkflowState.set_story_id (Some 11)
       (WorkflowState.set_story
          (Some (Story_of_kwargs sample_kwargs 1 (lit "T1700000000000000")))
          (WorkflowState.initial None (lit "public") (lit "T1700000000000000") (Some 1)))).

(* ===================================================================== *)
(** * Properties *)
(* ===================================================================== *)

Ltac unfold_M :=
  unfold mbind, mret, M_bind, M_ret, try_except, try_except_local, extcall, raise,
         of_evaluated, diverge, call_agent, execute_skill in *.

(** ** Reasoning rules for [M] *)

Lemma returns_only_ret {A} (P : A -> Prop) (a : A) : P a -> returns_only P (mret a).
Proof. intros H w a' w' Heq. unfold_M. by simplify_eq. Qed.

Lemma returns_only_raise {A} (P : A -> Prop) (e : exn) : returns_only P (raise e).
Proof. intros w a' w' Heq. unfold_M. discriminate. Qed.

Lemma returns_only_bind {A B} (Q : A -> Prop) (P : B -> Prop) (m : M A) (k : A -> M B) :
  returns_only Q m -> (forall x, Q x -> returns_only P (k x)) -> returns_only P (x ← m; k x).
Proof.
  intros Hm H w b w' Heq. unfold_M.
  destruct (m w) as [[x|e|] w1] eqn:Hmw; [|discriminate..].
  eapply H; [|done]. by eapply Hm.
Qed.

Lemma returns_only_any {A} (m : M A) : returns_only (fun _ => True) m.
Proof. by intros w a w' _. Qed.

Lemma returns_only_try {A} (P : A -> Prop) (body : M A) (handler : exn -> M A) :
  returns_only P body -> (forall e, returns_only P (handler e)) ->
  returns_only P (try_except body handler).
Proof.
  intros Hb Hh w a w' Heq. unfold try_except in Heq.
  destruct (body w) as [[x|e|] w1] eqn:Hbw.
  - simplify_eq. by eapply Hb.
  - by eapply Hh.
  - discriminate.
Qed.

Lemma always_returns_ret {A} (P : A -> Prop) (a : A) : P a -> always_returns P (mret a).
Proof. intros H w. by exists a, w. Qed.

Lemma always_returns_bind {A B} (Q : A -> Prop) (P : B -> Prop) (m : M A) (k : A -> M B) :
  always_returns Q m -> (forall x, Q x -> always_returns P (k x)) ->
  always_returns P (x ← m; k x).
Proof.
  intros Hm Hk w. destruct (Hm w) as (a & w1 & Heq & Ha).
  destruct (Hk a Ha w1) as (b & w2 & Heq2 & Hb).
  exists b, w2. split; [|done]. unfold_M. by rewrite Heq.
Qed.

Lemma always_returns_only {A} (P : A -> Prop) (m : M A) :
  always_returns P m -> returns_only P m.
Proof. intros H w a w' Heq. destruct (H w) as (a' & w'' & Heq' & Ha). congruence. Qed.

Lemma always_returns_weaken {A} (P Q : A -> Prop) (m : M A) :
  (forall a, P a -> Q a) -> always_returns P m -> always_returns Q m.
Proof. intros HPQ H w. destruct (H w) as (a & w' & Heq & Ha). eauto. Qed.

Lemma never_raises_ret {A} (P : A -> Prop) (a : A) : P a -> never_raises P (mret a).
Proof. by intros H w. Qed.

Lemma never_raises_bind {A B} (Q : A -> Prop) (P : B -> Prop) (m : M A) (k : A -> M B) :
  never_raises Q m -> (forall x, Q x -> never_raises P (k x)) ->
  never_raises P (x ← m; k x).
Proof.
  intros Hm Hk w. specialize (Hm w). unfold mbind, M_bind.
  destruct (m w) as [[a|e|] w1]; cbn in *; [by apply Hk|done..].
Qed.

Lemma never_raises_try {A} (P : A -> Prop) (body : M A) (handler : exn -> M A) :
  returns_only P body -> (forall e, never_raises P (handler e)) ->
  never_raises P (try_except body handler).
Proof.
  intros Hb Hh w. unfold try_except. destruct (body w) as [[a|e|] w1] eqn:Heq; cbn.
  - by eapply Hb.
  - apply Hh.
  - done.
Qed.

Lemma never_raises_only {A} (P : A -> Prop) (m : M A) :
  never_raises P m -> returns_only P m.
Proof. intros H w a w' Heq. specialize (H w). by rewrite Heq in H. Qed.

Lemma never_raises_weaken {A} (P Q : A -> Prop) (m : M A) :
  (forall a, P a -> Q a) -> never_raises P m -> never_raises Q m.
Proof. intros HPQ H w. specialize (H w). destruct (fst (m w)); auto. Qed.

Lemma always_returns_never_raises {A} (P : A -> Prop) (m : M A) :
  always_returns P m -> never_raises P m.
Proof. intros H w. destruct (H w) as (a & w' & -> & Ha). done. Qed.

Lemma never_raises_extcall {A} ev (oracle : World -> outcome A) :
  (forall w e, oracle w <> Raises e) -> never_raises (fun _ => True) (extcall ev oracle).
Proof.
  intros H w. unfold extcall. cbn. specialize (H w).
  destruct (oracle w) as [a|e|]; [done| |done]. by destruct (H e).
Qed.

(** ** Step results (src/skills/base.py) *)

Lemma success_is_step_result {T X} (body : M X) (f : X -> T) :
  returns_only step_result (x ← body; mret (success (f x))).
Proof.
  eapply returns_only_bind; [apply returns_only_any|].
  intros x _. apply returns_only_ret. constructor.
Qed.

Lemma service_skill_never_raises E T (c : M (SkillResult.t T)) :
  service_skill_run E T c -> never_raises step_result c.
Proof.
  destruct 1; (apply never_raises_try;
    [| intros e; apply never_raises_ret; constructor]).
  - eapply returns_only_bind; [apply returns_only_any|]. intros _ _.
    apply (success_is_step_result _ id).
  - apply (success_is_step_result _ id).
  - apply (success_is_step_result _ id).
  - apply (success_is_step_result _ id).
  - apply (success_is_step_result _ id).
  - apply (success_is_step_result _ id).
Qed.

Lemma persistence_body_step_result {T X} (create : M X) (commit : M unit) (f : X -> T) :
  returns_only step_result (x ← create; commit;; mret (success (f x))).
Proof.
  eapply returns_only_bind; [apply returns_only_any|]. intros x _.
  eapply returns_only_bind; [apply returns_only_any|]. intros _ _.
  apply returns_only_ret. constructor.
Qed.

Lemma persistence_skill_body_handler E T (c : M (SkillResult.t T)) :
  persistence_skill_run E T c ->
  exists (body : M (SkillResult.t T)) (msg : exn -> str),
    returns_only step_result body /\
    c = try_except body
          (fun e => extcall EvRollback (session_rollback E);; mret (failed (msg e))).
Proof.
  destruct 1; eexists _, _; (split; [|reflexivity]).
  - apply (persistence_body_step_result _ _ id).
  - apply (persistence_body_step_result _ _ id).
  - eapply returns_only_bind; [apply returns_only_any|]. intros _ _.
    eapply returns_only_bind; [apply returns_only_any|]. intros _ _.
    apply returns_only_ret. constructor.
  - apply (persistence_body_step_result _ _ id).
Qed.

Lemma persistence_skill_never_raises E T (c : M (SkillResult.t T)) :
  rollback_returns E -> persistence_skill_run E T c -> never_raises step_result c.
Proof.
  intros Hrb Hc. destruct (persistence_skill_body_handler E T c Hc) as (body & msg & Hbody & ->).
  apply never_raises_try; [done|]. intros e.
  eapply (never_raises_bind (fun _ => True)).
  - apply never_raises_extcall. intros w e'. by rewrite Hrb.
  - intros _ _. apply never_raises_ret. constructor.
Qed.

Lemma persistence_skill_returns_only E T (c : M (SkillResult.t T)) :
  persistence_skill_run E T c -> returns_only step_result c.
Proof.
  intros Hc. destruct (persistence_skill_body_handler E T c Hc) as (body & msg & Hbody & ->).
  apply returns_only_try; [done|]. intros e.
  eapply returns_only_bind; [apply returns_only_any|]. intros _ _.
  apply returns_only_ret. constructor.
Qed.

(** The two factories of [SkillResult] build what the contract asks
    for: [success(p)] is successful, carries [p] and no error string;
    [failed(m)] is not successful, carries the error string [m] and no
    payload.  Whatever a skill execution returns is built by one of the
    two.  The skills that wrap a generator or the uploader never raise:
    they return a step result unless a call they make does not come
    back; so do the skills that write through the session, as long as
    the rollback of their own [except] clause returns. *)
Theorem skill_result_contract (E : Env) (T : Type) (p : T) (m : str) :
  (is_success (success p) = true /\
   SkillResult.data (success p) = Some p /\
   SkillResult.error (success p) = None) /\
  (is_success (@failed T m) = false /\
   SkillResult.error (@failed T m) = Some m /\
   SkillResult.data (@failed T m) = None) /\
  (forall c, service_skill_run E T c -> never_raises step_result c) /\
  (rollback_returns E ->
   forall c, persistence_skill_run E T c -> never_raises step_result c) /\
  (forall c, persistence_skill_run E T c -> returns_only step_result c).
Proof.
  split; [done|]. split; [done|]. split; [|split].
  - apply service_skill_never_raises.
  - intros Hrb c. by apply persistence_skill_never_raises.
  - apply persistence_skill_returns_only.
Qed.

Lemma skill_result_contract_witness :
  rollback_returns (sample_env default_settings None true true false) /\
  never_raises step_result
    (SaveStorySkill_execute (sample_env default_settings None true true false)
       (Story_of_kwargs sample_kwargs 1 []) 1).
Proof.
  assert (H : rollback_returns (sample_env default_settings None true true false))
    by (intros w; reflexivity).
  split; [exact H|].
  exact (proj1 (proj2 (proj2 (proj2
           (skill_result_contract (sample_env default_settings None true true false)
                                  Z 0 [])))) H _ (run_SaveStorySkill _ _ _)).
Defined.

(** C9.  A skill execution that returns no step result.  The rows of
    the video generation table are locked: the commit in
    [UpdateVideoGenerationSkill.execute] raises, the [except] clause
    calls [rollback], which raises too, and that exception leaves
    [execute] before [SkillResult.failed] is built. *)
Theorem update_skill_raises_from_its_handler :
  exists w',
    UpdateVideoGenerationSkill_execute (lock_timeout_env (lit "cannot perform operation"))
      7 (Some (lit "completed")) (Some (lit "/app/output/videos/video_1700000000.mp4")) None
      empty_world
    = (Raises (lit "cannot perform operation"), w') /\
    events w' = [EvVideoGenerationUpdate 7 (Some (lit "completed"))
                   (Some (lit "/app/output/videos/video_1700000000.mp4")) None;
                 EvCommit; EvRollback].
Proof. eexists. vm_compute. split; reflexivity. Qed.

(** ** The story generator (src/story_generator.py) *)

Lemma parse_story_try_unparseable E text episode w :
  parseable E text = false ->
  exists n : nat,
    (exists e, parse_story_try E text episode w = (Raises e, set_ticks (n + ticks w) w)) \/
    parse_story_try E text episode w = (Returns None, set_ticks (n + ticks w) w).
Proof.
  unfold parseable, parse_story_try. intros H.
  destruct text as [t|]; [|exists 0%nat; left; eexists; unfold raise; by destruct w].
  destruct (re_search_braces t) as [g|]; [|exists 0%nat; right; by destruct w].
  unfold_M. destruct (json_loads E g) as [j|e]; [|exists 0%nat; left; eexists; by destruct w].
  destruct (story_kwargs E j) as [k|e]; [discriminate|].
  exists 1%nat. left. eexists. unfold now_isoformat. done.
Qed.

Lemma parse_story_response_unparseable E text episode w :
  parseable E text = false ->
  exists date w',
    parse_story_response E text episode w = (Returns (default_story E text episode date), w').
Proof.
  intros H. destruct (parse_story_try_unparseable E text episode w H) as [n [[e Hn]|Hn]];
    unfold parse_story_response; unfold_M; rewrite Hn; unfold now_isoformat; eauto.
Qed.

Lemma parse_story_response_total E text episode :
  always_returns (fun s => Story.episode s = Some episode) (parse_story_response E text episode).
Proof.
  intros w. unfold parse_story_response, parse_story_try, now_isoformat. unfold_M.
  destruct text as [t|]; [|by eexists _, _].
  destruct (re_search_braces t) as [g|]; [|by eexists _, _].
  destruct (json_loads E g) as [j|e]; [|by eexists _, _].
  destruct (story_kwargs E j) as [k|e]; by eexists _, _.
Qed.

Lemma history_entry_of_returns E s :
  is_Some (Story.episode s) ->
  always_returns (fun _ => True) (history_entry_of E s).
Proof.
  intros [ep Hep] w. unfold history_entry_of, now_isoformat. unfold_M. rewrite Hep.
  destruct (Story.date s) as [d|]; [destruct (truthy d)|]; by eexists _, _.
Qed.

Lemma truthy_int_nonzero (e : Z) : e <> 0 -> truthy e = true.
Proof. intros He. unfold truthy, truthy_int. by destruct (Z.eqb_spec e 0). Qed.

Lemma generate_story_unparseable E text :
  (forall ep h w, generate_content E ep h w = Returns text) ->
  parseable E text = false ->
  forall episode_number w, exists date w',
    generate_story E episode_number w =
      (Returns (default_story E text
                  (py_or_default episode_number
                     (Z.of_nat (length (generator_history w)) + 1)) date), w').
Proof.
  intros Horacle Hp episode_number w.
  unfold generate_story, get_story_history, append_story_history. unfold_M.
  rewrite Horacle.
  match goal with |- context [parse_story_response ?E ?t ?ep ?w1] =>
    destruct (parse_story_response_unparseable E t ep w1 Hp) as (date & w2 & ->) end.
  match goal with |- context [history_entry_of ?E ?s ?w1] =>
    destruct (history_entry_of_returns E s (ltac:(by eexists)) w1) as (entry & w3 & -> & _) end.
  by eexists _, _.
Qed.

Lemma GenerateStorySkill_unparseable E text :
  (forall ep h w, generate_content E ep h w = Returns text) ->
  parseable E text = false ->
  forall episode history w, episode <> 0 -> exists date w',
    GenerateStorySkill_execute E episode history w =
      (Returns (success (default_story E text episode date)), w').
Proof.
  intros Horacle Hp episode history w He. unfold GenerateStorySkill_execute.
  destruct history as [h|]; [destruct (truthy h)|];
    unfold_M; unfold load_story_history;
    match goal with |- context [generate_story ?E ?ep ?w1] =>
      destruct (generate_story_unparseable E text Horacle Hp ep w1) as (date & w2 & ->) end;
    unfold py_or_default; rewrite (truthy_int_nonzero _ He); by eexists _, _.
Qed.

(** C5.  A generator answer that holds no parseable JSON story never
    makes [parse_story_response] raise: in every world it returns the
    default document.  Two parses of the same text for the same episode
    differ at most in the date; for a non-empty text the story and the
    description are its first 500 code points, and every other field but
    the date is the same for every text.  The parse failure does not
    surface as a failure of the stage: when the generator call itself
    answers, the generate-story skill returns a successful result that
    carries the default document. *)
Theorem unparseable_response_falls_back (E : Env) (text : option str) (episode : Z) :
  parseable E text = false ->
  (forall w, exists date w',
      parse_story_response E text episode w =
        (Returns (default_story E text episode date), w')) /\
  (forall w1 w2 s1 s2 w1' w2',
      parse_story_response E text episode w1 = (Returns s1, w1') ->
      parse_story_response E text episode w2 = (Returns s2, w2') ->
      fixed_content s1 = fixed_content s2 /\
      Story.story s1 = Story.story s2 /\
      Story.description s1 = Story.description s2) /\
  (forall date,
      (forall t, text = Some t -> t <> [] ->
         Story.story (default_story E text episode date) = firstn 500 t /\
         Story.description (default_story E text episode date) = firstn 500 t) /\
      Story.date (default_story E text episode date) = Some date /\
      (forall text' date',
         fixed_content (default_story E text' episode date') =
         fixed_content (default_story E text episode date))) /\
  ((forall ep h w, generate_content E ep h w = Returns text) ->
   episode <> 0 ->
   forall history w, exists date w',
     GenerateStorySkill_execute E episode history w =
       (Returns (success (default_story E text episode date)), w')).
Proof.
  intros Hp. split; [|split; [|split]].
  - intros w. by apply parse_story_response_unparseable.
  - intros w1 w2 s1 s2 w1' w2' H1 H2.
    destruct (parse_story_response_unparseable E text episode w1 Hp) as (d1 & ? & Hd1).
    destruct (parse_story_response_unparseable E text episode w2 Hp) as (d2 & ? & Hd2).
    rewrite Hd1 in H1. rewrite Hd2 in H2. by simplify_eq.
  - intros date. split; [|split; [done|done]].
    intros t -> Ht. cbn. destruct t; [done|]. done.
  - intros Horacle He history w. by apply GenerateStorySkill_unparseable.
Qed.

Lemma unparseable_response_falls_back_witness :
  parseable (sample_env default_settings (Some (lit "Sorry, {no json here")) true true true)
            (Some (lit "Sorry, {no json here")) = false /\
  exists date w',
    parse_story_response
      (sample_env default_settings (Some (lit "Sorry, {no json here")) true true true)
      (Some (lit "Sorry, {no json here")) 4 empty_world =
    (Returns (default_story
                (sample_env default_settings (Some (lit "Sorry, {no json here")) true true true)
                (Some (lit "Sorry, {no json here")) 4 date), w').
Proof.
  assert (H : parseable
                (sample_env default_settings (Some (lit "Sorry, {no json here")) true true true)
                (Some (lit "Sorry, {no json here")) = false) by reflexivity.
  split; [exact H|].
  exact (proj1 (unparseable_response_falls_back _ _ 4 H) empty_world).
Defined.
(** ** The video generator (src/video_generator.py) *)

Lemma records_only_ret {A} P (a : A) : records_only P (mret a).
Proof. intros w. exists []. by rewrite app_nil_r. Qed.

Lemma records_only_raise {A} P e : records_only P (@raise A e).
Proof. intros w. exists []. by rewrite app_nil_r. Qed.

Lemma records_only_diverge {A} P : records_only P (@diverge A).
Proof. intros w. exists []. by rewrite app_nil_r. Qed.

Lemma records_only_extcall {A} (P : Event -> Prop) ev (o : World -> outcome A) :
  P ev -> records_only P (extcall ev o).
Proof. intros H w. exists [ev]. split; [done|]. by constructor. Qed.

Lemma records_only_bind {A B} P (m : M A) (k : A -> M B) :
  records_only P m -> (forall x, records_only P (k x)) -> records_only P (x ← m; k x).
Proof.
  intros Hm Hk w. destruct (Hm w) as (n1 & H1 & HP1). unfold_M.
  destruct (m w) as [[x|e|] w1]; cbn in *.
  - destruct (Hk x w1) as (n2 & H2 & HP2). exists (n1 ++ n2).
    rewrite H2, H1, app_assoc. split; [done|]. by apply Forall_app.
  - by exists n1.
  - by exists n1.
Qed.

Lemma records_only_try {A} P (body : M A) (handler : exn -> M A) :
  records_only P body -> (forall e, records_only P (handler e)) ->
  records_only P (try_except body handler).
Proof.
  intros Hm Hk w. destruct (Hm w) as (n1 & H1 & HP1). unfold_M.
  destruct (body w) as [[x|e|] w1]; cbn in *.
  - by exists n1.
  - destruct (Hk e w1) as (n2 & H2 & HP2). exists (n1 ++ n2).
    rewrite H2, H1, app_assoc. split; [done|]. by apply Forall_app.
  - by exists n1.
Qed.

Lemma records_only_silent {A} P (c : M A) :
  (forall w, events (snd (c w)) = events w) -> records_only P c.
Proof. intros H w. exists []. rewrite app_nil_r. split; [apply H|done]. Qed.

Lemma records_only_time_time P E : records_only P (time_time E).
Proof. by apply records_only_silent. Qed.

Lemma records_only_wait P op :
  P EvOperationsGet -> records_only P (wait_until_done op).
Proof.
  intros HP. induction op; cbn [wait_until_done].
  - apply records_only_ret.
  - apply records_only_bind; [by apply records_only_extcall|done].
  - by apply records_only_extcall.
  - apply records_only_diverge.
Qed.

Lemma generate_video_records E prompt duration ar :
  records_only not_concat (generate_video E prompt duration ar).
Proof.
  apply records_only_try.
  - apply records_only_bind; [by apply records_only_extcall|]. intros op.
    apply records_only_bind; [by apply records_only_wait|]. intros [].
    + apply records_only_bind; [by apply records_only_extcall|]. intros _.
      apply records_only_bind; [apply records_only_time_time|]. intros now.
      apply records_only_bind; [by apply records_only_extcall|]. intros _.
      apply records_only_ret.
    + apply records_only_raise.
  - intros e. apply records_only_bind; [apply records_only_time_time|]. intros.
    apply records_only_ret.
Qed.

Lemma render_segments_records E duration prompts : forall videos,
  records_only not_concat (render_segments E prompts duration videos).
Proof.
  induction prompts as [|p rest IH]; intros videos; cbn [render_segments].
  - apply records_only_ret.
  - apply records_only_bind; [apply generate_video_records|]. intros r. apply IH.
Qed.

(** The string of a path is never empty. *)
Lemma output_path_nonempty E name : output_path E name <> [].
Proof.
  unfold output_path, pathlib.joinpath, pathlib.normal.
  destruct (pathlib.splitroot _) as [root rel]. by destruct (root ++ _).
Qed.

Lemma truthy_str_nonempty (s : str) : s <> [] -> truthy s = true.
Proof. by destruct s. Qed.

Lemma ffmpeg_runs_app l1 l2 : ffmpeg_runs (l1 ++ l2) = ffmpeg_runs l1 ++ ffmpeg_runs l2.
Proof. apply flat_map_app. Qed.

Lemma ffmpeg_runs_not_concat new : Forall not_concat new -> ffmpeg_runs new = [].
Proof.
  induction 1 as [|ev new Hev _ IH]; [done|]. unfold ffmpeg_runs in *. cbn. rewrite IH.
  by destruct ev.
Qed.

Lemma file_lists_app l1 l2 : file_lists (l1 ++ l2) = file_lists l1 ++ file_lists l2.
Proof. apply flat_map_app. Qed.

Lemma file_lists_not_concat new : Forall not_concat new -> file_lists new = [].
Proof.
  induction 1 as [|ev new Hev _ IH]; [done|]. unfold file_lists in *. cbn. rewrite IH.
  by destruct ev.
Qed.

(** *** Joining and splitting lines *)

Lemma str_split_no_sep sep (s : str) : sep ∉ s -> str_split sep s = [s].
Proof.
  induction s as [|c s IH]; [done|]. intros Hs. cbn [str_split].
  destruct (N.eqb_spec c sep) as [->|Hne]; [exfalso; apply Hs; left|].
  rewrite IH; [done|]. intros H. apply Hs. by right.
Qed.

Lemma str_split_app sep (s t : str) :
  sep ∉ s -> str_split sep (s ++ sep :: t) = s :: str_split sep t.
Proof.
  induction s as [|c s IH]; intros Hs; cbn [str_split app].
  - by rewrite N.eqb_refl.
  - destruct (N.eqb_spec c sep) as [->|Hne]; [exfalso; apply Hs; left|].
    rewrite IH; [done|]. intros H. apply Hs. by right.
Qed.

(** Splitting at the separator undoes [sep.join] on parts that do not
    hold the separator. *)
Lemma str_split_join sep (parts : list str) :
  parts <> [] -> Forall (fun part => sep ∉ part) parts ->
  str_split sep (join [sep] parts) = parts.
Proof.
  intros Hne Hall. induction Hall as [|p [|q rest] Hp Hrest IH]; [done| |].
  - cbn [join]. by apply str_split_no_sep.
  - cbn [join]. cbn [app]. rewrite str_split_app by done. f_equal. by apply IH.
Qed.

Lemma file_list_entry_no_newline (path : str) :
  10%N ∉ path -> 10%N ∉ lit "file '" ++ path ++ lit "'".
Proof.
  intros Hp H. apply elem_of_app in H as [H|H].
  - vm_compute in H. repeat (apply elem_of_cons in H as [H|H]; [discriminate|]).
    by apply elem_of_nil in H.
  - apply elem_of_app in H as [H|H]; [done|].
    vm_compute in H. repeat (apply elem_of_cons in H as [H|H]; [discriminate|]).
    by apply elem_of_nil in H.
Qed.

(** The lines of the file list are the entries of the paths, in the
    order of the paths. *)
Lemma file_list_content_lines (video_paths : list str) :
  video_paths <> [] -> Forall (fun path => 10%N ∉ path) video_paths ->
  str_split 10 (file_list_content video_paths)
  = map (fun path => lit "file '" ++ path ++ lit "'") video_paths.
Proof.
  intros Hne Hall. unfold file_list_content. apply str_split_join.
  - by destruct video_paths.
  - apply Forall_map. eapply Forall_impl; [exact Hall|].
    intros path Hp. by apply file_list_entry_no_newline.
Qed.

(** *** [merge_videos] *)

Lemma merge_videos_unfold E videos out w :
  merge_videos E videos out w =
    let '(name, w0) := merge_target E out w in
    let flp := output_path E (lit "filelist.txt") in
    let w1 := set_events (events w0 ++ [EvWriteText flp (file_list_content videos)]) w0 in
    match write_text E flp (file_list_content videos) w0 with
    | Raises e => (Raises e, w1)
    | Diverges => (Diverges, w1)
    | Returns _ =>
        let cmd := ffmpeg_cmd flp (output_path E name) in
        let w2 := set_events (events w1 ++ [EvSubprocessRun cmd]) w1 in
        match subprocess_run E cmd w1 with
        | Raises e => (Raises e, w2)
        | Diverges => (Diverges, w2)
        | Returns _ =>
            let w3 := set_events (events w2 ++ [EvUnlink flp]) w2 in
            match unlink E flp w2 with
            | Raises e => (Raises e, w3)
            | Diverges => (Diverges, w3)
            | Returns _ => (Returns (output_path E name), w3)
            end
        end
    end.
Proof.
  unfold merge_videos, merge_target, time_time. unfold_M.
  destruct (truthy out); cbn;
    (destruct (write_text _ _ _ _); [|done..]);
    (destruct (subprocess_run _ _ _); [|done..]);
    (destruct (unlink _ _ _); done).
Qed.

Lemma merge_target_events E out w : events (merge_target E out w).2 = events w.
Proof. unfold merge_target. by destruct (truthy out). Qed.

Lemma merge_videos_attempt E videos out w :
  exists rest,
    events (snd (merge_videos E videos out w)) =
      events w ++ EvWriteText (output_path E (lit "filelist.txt")) (file_list_content videos) :: rest.
Proof.
  rewrite merge_videos_unfold. pose proof (merge_target_events E out w) as Hev.
  destruct (merge_target E out w) as [name w0]. cbn in Hev. cbn zeta.
  destruct (write_text _ _ _ _); [|eexists; cbn; by rewrite Hev..].
  destruct (subprocess_run _ _ _); [|eexists; cbn; rewrite Hev, <- app_assoc; done..].
  destruct (unlink _ _ _); eexists; cbn; rewrite Hev, <- !app_assoc; done.
Qed.

Lemma merge_videos_tool_failure E e videos out w :
  (forall p c w, write_text E p c w = Returns tt) ->
  (forall cmd w, subprocess_run E cmd w = Raises e) ->
  exists w',
    merge_videos E videos out w = (Raises e, w') /\
    events w' =
      events w
        ++ [EvWriteText (output_path E (lit "filelist.txt")) (file_list_content videos);
            EvSubprocessRun
              (ffmpeg_cmd (output_path E (lit "filelist.txt"))
                          (output_path E (merge_target E out w).1))].
Proof.
  intros Hw Hf. rewrite merge_videos_unfold. pose proof (merge_target_events E out w) as Hev.
  destruct (merge_target E out w) as [name w0]. cbn in Hev. cbn zeta.
  rewrite Hw, Hf. eexists. split; [done|]. cbn. by rewrite Hev, <- app_assoc.
Qed.


(** *** One render *)

Lemma mock_video_returns E prompt w :
  _generate_mock_video E prompt w =
    (Returns (placeholder (output_path E (lit "mock_video_"
                                      ++ str_of_int (Z.quot (clock E (ticks w)) 1000000)
                                      ++ lit ".mp4"))),
     set_ticks (S (ticks w)) w).
Proof. reflexivity. Qed.



Lemma usable_url_usable r : usable r -> exists path, usable_url r = [path] /\ path <> [].
Proof.
  intros (path & Hurl & Hne & Hst). exists path. split; [|done].
  unfold usable_url. rewrite Hurl, Hst, (truthy_str_nonempty _ Hne).
  by rewrite bool_decide_eq_true_2.
Qed.

(** [generate_video] does not raise: it returns a result with a path,
    or the operation it waits for is never done. *)
Lemma generate_video_never_raises E prompt duration aspect_ratio :
  never_raises usable (generate_video E prompt duration aspect_ratio).
Proof.
  apply never_raises_try.
  - eapply returns_only_bind; [apply returns_only_any|]. intros op _.
    eapply returns_only_bind; [apply returns_only_any|]. intros [] _.
    + eapply returns_only_bind; [apply returns_only_any|]. intros _ _.
      eapply returns_only_bind; [apply returns_only_any|]. intros now _.
      eapply returns_only_bind; [apply returns_only_any|]. intros _ _.
      apply returns_only_ret. eexists. split; [reflexivity|].
      split; [apply output_path_nonempty|done].
    + apply returns_only_raise.
  - intros e w. rewrite mock_video_returns. cbn.
    eexists. split; [reflexivity|]. split; [apply output_path_nonempty|done].
Qed.

(** *** The loop of [generate_video_sequence] *)

(** What one pass of the loop does to [videos]. *)
Lemma render_segments_cons E prompt rest duration videos w :
  render_segments E (prompt :: rest) duration videos w =
    match generate_video E prompt duration (lit "9:16") w with
    | (Returns result, w1) => render_segments E rest duration (videos ++ usable_url result) w1
    | (Raises e, w1) => (Raises e, w1)
    | (Diverges, w1) => (Diverges, w1)
    end.
Proof.
  cbn [render_segments]. unfold mbind, M_bind.
  destruct (generate_video E prompt duration (lit "9:16") w) as [[r|e|] w1]; [|done..].
  f_equal. unfold usable_url. destruct (VideoGenerationResult.video_url r) as [url|].
  - destruct (truthy url && _); by rewrite ?app_nil_r.
  - by rewrite app_nil_r.
Qed.

(** The loop only appends to the list it is given. *)
Lemma render_segments_acc E duration prompts : forall videos w,
  render_segments E prompts duration videos w =
    match render_segments E prompts duration [] w with
    | (Returns new, w1) => (Returns (videos ++ new), w1)
    | other => other
    end.
Proof.
  induction prompts as [|prompt rest IH]; intros videos w.
  - cbn. unfold mret, M_ret. by rewrite app_nil_r.
  - rewrite !render_segments_cons.
    destruct (generate_video E prompt duration (lit "9:16") w) as [[r|e|] w1]; [|done..].
    rewrite (IH (videos ++ usable_url r)), (IH ([] ++ usable_url r)).
    destruct (render_segments E rest duration [] w1) as [[new|e|] w2]; [|done..].
    by rewrite <- app_assoc.
Qed.

(** The loop on [first ++ second] is the loop on [first], then the loop
    on [second] from where the first one ended. *)
Lemma render_segments_app E duration first second : forall videos w,
  render_segments E (first ++ second) duration videos w =
    match render_segments E first duration videos w with
    | (Returns videos1, w1) => render_segments E second duration videos1 w1
    | other => other
    end.
Proof.
  induction first as [|prompt rest IH]; intros videos w; [done|].
  cbn [app]. rewrite !render_segments_cons.
  destruct (generate_video E prompt duration (lit "9:16") w) as [[r|e|] w1]; [|done..].
  apply IH.
Qed.

(** The loop does not raise, and what it returns holds one path for
    every prompt. *)
Lemma render_segments_never_raises E duration prompts : forall w,
  match render_segments E prompts duration [] w with
  | (Returns videos, _) =>
      length videos = length prompts /\ Forall (fun path => path <> []) videos
  | (Raises _, _) => False
  | (Diverges, _) => True
  end.
Proof.
  induction prompts as [|prompt rest IH]; intros w; [done|].
  rewrite render_segments_cons.
  pose proof (generate_video_never_raises E prompt duration (lit "9:16") w) as Hgv.
  destruct (generate_video E prompt duration (lit "9:16") w) as [[r|e|] w1]; cbn in Hgv;
    [|done..].
  destruct (usable_url_usable r Hgv) as (path & -> & Hne).
  rewrite render_segments_acc. specialize (IH w1).
  destruct (render_segments E rest duration [] w1) as [[new|e|] w2]; [|done..].
  destruct IH as [Hlen Hall]. cbn. split; [by rewrite Hlen|by constructor].
Qed.

Lemma render_segments_split E duration first second w videos w1 :
  render_segments E (first ++ second) duration [] w = (Returns videos, w1) ->
  exists videos1 videos2 w_mid,
    render_segments E first duration [] w = (Returns videos1, w_mid) /\
    render_segments E second duration [] w_mid = (Returns videos2, w1) /\
    videos = videos1 ++ videos2.
Proof.
  rewrite render_segments_app.
  destruct (render_segments E first duration [] w) as [[videos1|e|] w_mid]; [|done..].
  rewrite render_segments_acc.
  destruct (render_segments E second duration [] w_mid) as [[videos2|e|] w2] eqn:H2;
    [|done..].
  intros [= <- <-]. by exists videos1, videos2, w_mid.
Qed.

Lemma generate_video_sequence_unfold E prompts duration output_filename w :
  generate_video_sequence E prompts duration output_filename w =
    match render_segments E prompts duration [] w with
    | (Returns videos, w1) =>
        if (1 <? length videos)%nat then merge_videos E videos output_filename w1
        else (Returns (match videos with v :: _ => v | [] => [] end), w1)
    | (Raises e, w1) => (Raises e, w1)
    | (Diverges, w1) => (Diverges, w1)
    end.
Proof.
  unfold generate_video_sequence. unfold mbind, M_bind.
  destruct (render_segments E prompts duration [] w) as [[videos|e|] w1]; [|done..].
  by destruct (1 <? length videos)%nat.
Qed.

Lemma skill_of_sequence E prompts duration output_filename w :
  GenerateVideoSequenceSkill_execute E prompts duration output_filename w =
    match generate_video_sequence E prompts duration output_filename w with
    | (Returns video_path, w') => (Returns (success video_path), w')
    | (Raises e, w') =>
        (Returns (failed (lit "Video sequence generation failed: " ++ e)), w')
    | (Diverges, w') => (Diverges, w')
    end.
Proof.
  unfold GenerateVideoSequenceSkill_execute. unfold_M.
  by destruct (generate_video_sequence E prompts duration output_filename w) as [[p|e|] w'].
Qed.

Lemma file_list_content_single (path : str) :
  file_list_content [path] = lit "file '" ++ path ++ lit "'".
Proof. reflexivity. Qed.

Lemma join_app sep (xs ys : list str) :
  xs <> [] -> ys <> [] -> join sep (xs ++ ys) = join sep xs ++ sep ++ join sep ys.
Proof.
  intros Hx Hy. induction xs as [|x [|x' xs] IH]; [done| |].
  - destruct ys; [done|]. done.
  - change ((x :: x' :: xs) ++ ys) with (x :: (x' :: xs) ++ ys).
    change (join sep (x :: (x' :: xs) ++ ys))
      with (x ++ sep ++ join sep ((x' :: xs) ++ ys)).
    rewrite IH by done. change (join sep (x :: x' :: xs)) with (x ++ sep ++ join sep (x' :: xs)).
    by rewrite <- !app_assoc.
Qed.

Lemma file_list_content_app (first second : list str) :
  first <> [] -> second <> [] ->
  file_list_content (first ++ second)
  = file_list_content first ++ [10%N] ++ file_list_content second.
Proof.
  intros H1 H2. unfold file_list_content. rewrite map_app.
  apply join_app; by destruct first, second.
Qed.

(** C7.  The loop of [generate_video_sequence] never raises, and it
    neither runs ffmpeg nor writes a file list; when the service never
    finishes a render, the sequence does not end either.  When the loop
    ends, the paths it kept stand in the order of the prompts: the paths
    for [first ++ second] are the paths for [first] followed by the
    paths for [second], and the path for one prompt is the one its
    render gave; there is one path for every prompt.  If exactly one path was kept, it is returned as it is
    and nothing more happens.  If more than one was kept, the sequence
    is [merge_videos] on them: it writes the file list, whose lines are
    [file '<path>'] for the kept paths in their order, and if ffmpeg
    then fails, [merge_videos] raises after that single run of
    [ffmpeg -f concat -safe 0 -i <list> -c copy <output>], the sequence
    raises with it, and the sequence skill reports a failed result. *)
Theorem sequence_returns_single_or_concatenates_in_order
    (E : Env) (prompts : list str) (duration : Z) (output_filename : option str)
    (w : World) :
  match render_segments E prompts duration [] w with
  | (Raises _, _) => False
  | (Diverges, w1) =>
      generate_video_sequence E prompts duration output_filename w = (Diverges, w1)
  | (Returns videos, w1) =>
      ffmpeg_runs (events w1) = ffmpeg_runs (events w) /\
      file_lists (events w1) = file_lists (events w) /\
      (forall first second, prompts = first ++ second ->
         exists videos1 videos2 w_mid,
           render_segments E first duration [] w = (Returns videos1, w_mid) /\
           render_segments E second duration [] w_mid = (Returns videos2, w1) /\
           videos = videos1 ++ videos2) /\
      length videos = length prompts /\
      (forall prompt, prompts = [prompt] ->
         exists result path,
           generate_video E prompt duration (lit "9:16") w = (Returns result, w1) /\
           VideoGenerationResult.video_url result = Some path /\
           videos = [path]) /\
      (forall v, videos = [v] ->
         generate_video_sequence E prompts duration output_filename w = (Returns v, w1)) /\
      ((1 < length videos)%nat ->
         generate_video_sequence E prompts duration output_filename w =
           merge_videos E videos output_filename w1 /\
         (exists rest,
            events (snd (generate_video_sequence E prompts duration output_filename w)) =
              events w1
                ++ EvWriteText (output_path E (lit "filelist.txt")) (file_list_content videos)
                :: rest) /\
         (Forall (fun path => 10%N ∉ path) videos ->
          str_split 10 (file_list_content videos)
          = map (fun path => lit "file '" ++ path ++ lit "'") videos) /\
         (forall kept1 kept2, videos = kept1 ++ kept2 -> kept1 <> [] -> kept2 <> [] ->
            file_list_content videos
            = file_list_content kept1 ++ [10%N] ++ file_list_content kept2) /\
         (forall e,
            (forall p c w, write_text E p c w = Returns tt) ->
            (forall cmd w, subprocess_run E cmd w = Raises e) ->
            exists w2,
              generate_video_sequence E prompts duration output_filename w = (Raises e, w2) /\
              ffmpeg_runs (events w2) =
                ffmpeg_runs (events w)
                  ++ [[lit "ffmpeg"; lit "-f"; lit "concat"; lit "-safe"; lit "0"; lit "-i";
                       output_path E (lit "filelist.txt"); lit "-c"; lit "copy";
                       output_path E (merge_target E output_filename w1).1]] /\
              GenerateVideoSequenceSkill_execute E prompts duration output_filename w =
                (Returns (failed (lit "Video sequence generation failed: " ++ e)), w2)))
  end.
Proof.
  pose proof (render_segments_never_raises E duration prompts w) as Hnr.
  pose proof (generate_video_sequence_unfold E prompts duration output_filename w) as Hseq.
  destruct (render_segments_records E duration prompts [] w) as (new & Hnew & Hnc).
  destruct (render_segments E prompts duration [] w) as [[videos|e|] w1] eqn:Hseg;
    [|done..].
  cbn [snd] in Hnew.
  assert (Hruns : ffmpeg_runs (events w1) = ffmpeg_runs (events w))
    by (by rewrite Hnew, ffmpeg_runs_app, (ffmpeg_runs_not_concat _ Hnc), app_nil_r).
  split; [exact Hruns|]. split; [|split; [|split; [|split; [|split]]]].
  - by rewrite Hnew, file_lists_app, (file_lists_not_concat _ Hnc), app_nil_r.
  - intros first second ->. by apply render_segments_split.
  - apply Hnr.
  - intros prompt ->. rewrite render_segments_cons in Hseg.
    pose proof (generate_video_never_raises E prompt duration (lit "9:16") w) as Hgv.
    destruct (generate_video E prompt duration (lit "9:16") w) as [[r|e|] w'];
      [|discriminate..].
    cbn in Hgv. destruct (usable_url_usable r Hgv) as (path & Hurl & Hne).
    rewrite Hurl in Hseg. cbn in Hseg. unfold mret, M_ret in Hseg.
    destruct Hgv as (path' & Hsome & _). exists r, path'.
    unfold usable_url in Hurl. rewrite Hsome in Hurl.
    destruct (truthy path' && _); simplify_eq. done.
  - intros v ->. exact Hseq.
  - intros Hgt. destruct (Nat.ltb_spec 1 (length videos)); [|lia].
    split; [exact Hseq|]. split; [rewrite Hseq; apply merge_videos_attempt|].
    split; [|split].
    + intros Hall. apply file_list_content_lines; [|done]. intros ->. cbn in Hgt. lia.
    + intros kept1 kept2 -> H1 H2. by apply file_list_content_app.
    + intros e Hw Hf. rewrite skill_of_sequence, Hseq.
      destruct (merge_videos_tool_failure E e videos output_filename w1 Hw Hf)
        as (w2 & Hm & Hev).
      rewrite Hm. exists w2. split; [done|]. split; [|done].
      by rewrite Hev, ffmpeg_runs_app, Hruns.
Qed.


(** ** The agents (src/agents) *)

Lemma never_raises_try_local {X L A} (P : A -> Prop) (init : L) (assign : M X)
    (local_of : X -> L) (rest : X -> M A) (handler : L -> exn -> M A) :
  (forall x, returns_only P (rest x)) ->
  (forall l e, never_raises P (handler l e)) ->
  never_raises P (try_except_local init assign local_of rest handler).
Proof.
  intros Hrest Hh w. unfold try_except_local.
  destruct (assign w) as [[x|e|] w1]; [|apply Hh|done].
  by apply never_raises_try.
Qed.

Lemma returns_only_try_local {X L A} (P : A -> Prop) (init : L) (assign : M X)
    (local_of : X -> L) (rest : X -> M A) (handler : L -> exn -> M A) :
  (forall x, returns_only P (rest x)) ->
  (forall l e, returns_only P (handler l e)) ->
  returns_only P (try_except_local init assign local_of rest handler).
Proof.
  intros Hrest Hh w a w' Heq. unfold try_except_local in Heq.
  destruct (assign w) as [[x|e|] w1]; [|by eapply Hh|discriminate].
  by eapply (returns_only_try P (rest x) (handler (local_of x))).
Qed.

(** [StoryAgent.run] does not raise, whatever its skills do. *)
Lemma StoryAgent_run_total self episode save_to_db :
  never_raises failure_explained_story (StoryAgent.run self episode save_to_db).
Proof.
  apply never_raises_try_local.
  - intros [history ep].
    eapply returns_only_bind; [apply returns_only_any|]. intros [story|] _.
    + eapply returns_only_bind; [apply returns_only_any|]. intros sid _.
      apply returns_only_ret. by intros ?.
    + apply returns_only_ret. by intros _; eexists.
  - intros l e. apply never_raises_ret. by intros _; eexists.
Qed.

(** [YouTubeAgent.run] does not raise, whatever its skills do. *)
Lemma YouTubeAgent_run_total self video_path title description tags privacy sid vgid :
  never_raises failure_explained_youtube
    (YouTubeAgent.run self video_path title description tags privacy sid vgid).
Proof.
  apply never_raises_try.
  - eapply returns_only_bind; [apply returns_only_any|]. intros [u|] _.
    + eapply returns_only_bind; [apply returns_only_any|]. intros rid _.
      apply returns_only_ret. by intros ?.
    + apply returns_only_ret. by intros _; eexists.
  - intros e. apply never_raises_ret. by intros _; eexists.
Qed.

Ltac video_run_body :=
  let fn := fresh "fn" in
  let video_path := fresh "video_path" in
  eapply returns_only_bind; [apply returns_only_any|]; intros fn _;
  eapply returns_only_bind; [apply returns_only_any|]; intros video_path _;
  destruct (truthy video_path);
  (eapply returns_only_bind; [apply returns_only_any|]; intros _ _;
   apply returns_only_ret; split; [done|]; first [by intros ? | by intros _; eexists]).

(** Whatever [VideoAgent.run] returns counts its prompts. *)
Lemma VideoAgent_run_returns_only E self prompts story_id duration output_filename :
  returns_only (video_result_ok prompts)
    (VideoAgent.run E self prompts story_id duration output_filename).
Proof.
  apply returns_only_try_local.
  - intros vgid. video_run_body.
  - intros l e. eapply returns_only_bind; [apply returns_only_any|]. intros _ _.
    apply returns_only_ret. split; [done|]. by intros _; eexists.
Qed.

Lemma update_if_recorded_never_raises self vgid st vp em :
  update_skill_never_raises self ->
  never_raises (fun _ => True) (VideoAgent.update_if_recorded self vgid st vp em).
Proof.
  intros [Hreg Hskill]. unfold VideoAgent.update_if_recorded.
  destruct vgid as [id|]; [|by apply never_raises_ret].
  destruct (truthy id); [|by apply never_raises_ret].
  eapply (never_raises_bind (fun _ => True)); [|intros; by apply never_raises_ret].
  unfold VideoAgent.update_generation_record.
  destruct (VideoAgent.db_session self) eqn:Hdb; cbn [negb]; [|by apply never_raises_ret].
  destruct (Hreg eq_refl) as [skill Hs].
  eapply (never_raises_bind (fun _ => True)); [|intros; by apply never_raises_ret].
  rewrite Hs. cbn. by eapply Hskill.
Qed.

(** [VideoAgent.run] does not raise as long as its update skill does
    not. *)
Lemma VideoAgent_run_total E self prompts story_id duration output_filename :
  update_skill_never_raises self ->
  never_raises (video_result_ok prompts)
    (VideoAgent.run E self prompts story_id duration output_filename).
Proof.
  intros Hskill. apply never_raises_try_local.
  - intros vgid. video_run_body.
  - intros l e.
    eapply (never_raises_bind (fun _ => True));
      [by apply update_if_recorded_never_raises|].
    intros _ _. apply never_raises_ret. split; [done|]. by intros _; eexists.
Qed.

(** C10.  The video agent's [run] is not total at the stage boundary.
    The rows of the video generation table are locked: the update
    skill's commit raises, the rollback in the skill's own handler
    raises too, and the exception leaves the skill.  [run] catches it,
    but its [except] clause calls the update skill again, outside any
    [try]; the second exception leaves [run]. *)
Theorem video_agent_run_propagates_from_its_handler :
  exists w',
    VideoAgent.run (lock_timeout_env (lit "cannot perform operation"))
                   (VideoAgent.init (lock_timeout_env (lit "cannot perform operation")) true)
                   [lit "stir the batter"] (Some 11) 5 None empty_world
    = (Raises (lit "cannot perform operation"), w').
Proof. eexists. vm_compute. reflexivity. Qed.

(** *** The video stage over a database that answers *)













(** ** Time *)

Lemma round_half_even_bounds (n d : Z) :
  0 < d -> n / d <= datetime.round_half_even n d /\ 2 * d * datetime.round_half_even n d <= 2 * n + d.
Proof.
  intros Hd. unfold datetime.round_half_even.
  pose proof (Z.div_mod n d ltac:(lia)) as Hdm.
  pose proof (Z.mod_pos_bound n d Hd) as Hm.
  destruct (Z.ltb_spec (2 * (n mod d)) d); [nia|].
  destruct (Z.ltb_spec d (2 * (n mod d))); [nia|].
  destruct (Z.even (n / d)); nia.
Qed.

Lemma int_true_div_nonneg (p q : Z) : 0 <= p -> 0 < q -> 0 <= datetime.int_true_div p q.
Proof.
  intros Hp Hq. unfold datetime.int_true_div.
  destruct (p =? 0); [done|]. cbv zeta.
  match goal with |- context [52 - ?x] => generalize x end. intros e.
  destruct (Z.leb_spec 0 (52 - e)).
  - pose proof (Z.pow_pos_nonneg 2 (52 - e) ltac:(lia) ltac:(lia)) as Hpow.
    apply Z.div_pos; [|done].
    destruct (round_half_even_bounds (p * 2 ^ (52 - e)) q Hq) as [Hlo _].
    pose proof (Z.div_pos (p * 2 ^ (52 - e)) q ltac:(nia) Hq). lia.
  - pose proof (Z.pow_pos_nonneg 2 (- (52 - e)) ltac:(lia) ltac:(lia)) as Hpow.
    destruct (round_half_even_bounds p (q * 2 ^ (- (52 - e))) ltac:(nia)) as [Hlo _].
    pose proof (Z.div_pos p (q * 2 ^ (- (52 - e))) Hp ltac:(nia)). nia.
Qed.

(** Below 2^34 seconds the spacing of the binary64 numbers is less than
    a microsecond: the rounded quotient has the whole seconds of the
    exact one. *)
Lemma int_true_div_exact (p : Z) :
  0 <= p < 2 ^ 34 * 1000000 -> datetime.int_true_div p 1000000 = p / 1000000.
Proof.
  intros [Hp Hlt]. unfold datetime.int_true_div.
  destruct (Z.eqb_spec p 0) as [->|Hne]; [done|]. cbv zeta.
  assert (Hlog : Z.log2 p < 54).
  { apply Z.log2_lt_pow2; [lia|]. change (2 ^ 54) with (2 ^ 34 * 2 ^ 20). lia. }
  change (Z.log2 1000000) with 19.
  set (c := Z.log2 p - 19).
  set (e := if (if 0 <=? c then 1000000 * 2 ^ c <=? p else 1000000 <=? p * 2 ^ (- c))
            then c else c - 1).
  assert (He : e <= 33).
  { subst e. destruct (Z.leb_spec 0 c) as [Hc|Hc].
    - destruct (Z.leb_spec (1000000 * 2 ^ c) p) as [Hle|]; [|lia].
      destruct (Z.le_gt_cases c 33) as [|Hgt]; [done|].
      pose proof (Z.pow_le_mono_r 2 34 c ltac:(lia) ltac:(lia)). lia.
    - destruct (1000000 <=? p * 2 ^ (- c)); lia. }
  destruct (Z.leb_spec 0 (52 - e)); [|lia].
  set (k := 52 - e) in *.
  assert (Hk : 2 ^ 20 <= 2 ^ (k + 1)) by (apply Z.pow_le_mono_r; lia).
  assert (Hpow : 0 < 2 ^ k) by (apply Z.pow_pos_nonneg; lia).
  assert (Hsucc : 2 ^ (k + 1) = 2 * 2 ^ k) by (rewrite Z.pow_add_r; lia).
  destruct (round_half_even_bounds (p * 2 ^ k) 1000000 ltac:(lia)) as [Hlo Hhi].
  pose proof (Z.div_mod p 1000000 ltac:(lia)) as Hdm.
  pose proof (Z.mod_pos_bound p 1000000 ltac:(lia)) as Hm.
  assert (Hfloor : p / 1000000 * 2 ^ k <= p * 2 ^ k / 1000000).
  { apply Z.div_le_lower_bound; [lia|]. nia. }
  symmetry. apply (Z.div_unique _ _ _
    (datetime.round_half_even (p * 2 ^ k) 1000000 - p / 1000000 * 2 ^ k)); [|lia].
  left. split; [lia|]. change (2 ^ 20) with 1048576 in Hk. nia.
Qed.

(** [int(td.total_seconds())] is the span in whole seconds, truncated
    toward zero, for spans of less than 2^34 seconds. *)
Lemma int_total_seconds_exact (us : Z) :
  Z.abs us < 2 ^ 34 * 1000000 -> datetime.int_total_seconds us = Z.quot us 1000000.
Proof.
  intros Hus. unfold datetime.int_total_seconds.
  destruct (Z.ltb_spec us 0).
  - rewrite int_true_div_exact by lia.
    rewrite <- (Z.opp_involutive us) at 2. rewrite Z.quot_opp_l by lia.
    by rewrite Z.quot_div_nonneg by lia.
  - rewrite int_true_div_exact by lia. by rewrite Z.quot_div_nonneg by lia.
Qed.

Lemma int_total_seconds_nonneg (us : Z) : 0 <= us -> 0 <= datetime.int_total_seconds us.
Proof.
  intros Hus. unfold datetime.int_total_seconds.
  destruct (Z.ltb_spec us 0); [lia|]. by apply int_true_div_nonneg.
Qed.

(** ** The ledger (src/repository.py) *)

Section Ledger.
Import WorkflowExecutionRepository.

Lemma stamp_completion_returns now r :
  exists r',
    stamp_completion now r = Value r' /\
    WorkflowExecution.status r' = WorkflowExecution.status r /\
    WorkflowExecution.story_id r' = WorkflowExecution.story_id r /\
    WorkflowExecution.video_generation_id r' = WorkflowExecution.video_generation_id r /\
    WorkflowExecution.youtube_upload_id r' = WorkflowExecution.youtube_upload_id r /\
    WorkflowExecution.started_at r' = WorkflowExecution.started_at r /\
    WorkflowExecution.completed_at r' = Some (datetime.mk now (Some 0)) /\
    WorkflowExecution.duration_seconds r' =
      match WorkflowExecution.started_at r with
      | Some started => Some (datetime.int_total_seconds (now - utc_instant started))
      | None => WorkflowExecution.duration_seconds r
      end.
Proof.
  unfold stamp_completion. cbn.
  destruct (WorkflowExecution.started_at r) as [started|] eqn:Hs.
  - destruct started as [wall [off|]]; cbn; eexists; (split; [reflexivity|]);
      cbn; rewrite ?Hs; repeat split; f_equal; f_equal;
      unfold utc_instant, datetime.instant; cbn; lia.
  - eexists. split; [reflexivity|]. cbn. by rewrite ?Hs.
Qed.

Lemma is_terminal_spec status :
  is_terminal status = true <-> exists s, status = Some s /\ terminal s.
Proof.
  unfold is_terminal, terminal.
  destruct status as [s|]; [|split; [done|by intros (? & ? & ?)]].
  rewrite orb_true_iff, !bool_decide_eq_true. split.
  - intros H. by exists s.
  - by intros (s' & [= <-] & H).
Qed.

(** One [update] of an entry that exists: the row it writes back. *)
Lemma update_found E id u w row :
  executions w !! id = Some row ->
  exists row',
    call_update E id u w =
      (Returns (Some row'),
       set_executions (<[id := row']> (executions w))
         (if is_terminal (u_status u) then set_ticks (S (ticks w)) w else w)) /\
    let assigned := assign_columns (u_status u) (u_current_step u) (u_story_id u)
                      (u_video_generation_id u) (u_youtube_upload_id u)
                      (u_error_message u) row in
    if is_terminal (u_status u)
    then stamp_completion (clock E (ticks w)) assigned = Value row'
    else row' = assigned.
Proof.
  intros Hrow. unfold call_update, update, select_by_id, update_row, flush, utc_now.
  unfold_M. rewrite Hrow.
  destruct (is_terminal (u_status u)).
  - destruct (stamp_completion_returns (clock E (ticks w))
                (assign_columns (u_status u) (u_current_step u) (u_story_id u)
                   (u_video_generation_id u) (u_youtube_upload_id u) (u_error_message u) row))
      as (row' & Hst & _).
    rewrite Hst. by exists row'.
  - by eexists.
Qed.

Lemma update_found_stored E id u w row :
  executions w !! id = Some row ->
  exists row' w',
    call_update E id u w = (Returns (Some row'), w') /\
    executions w' !! id = Some row' /\
    let assigned := assign_columns (u_status u) (u_current_step u) (u_story_id u)
                      (u_video_generation_id u) (u_youtube_upload_id u)
                      (u_error_message u) row in
    if is_terminal (u_status u)
    then stamp_completion (clock E (ticks w)) assigned = Value row'
    else row' = assigned.
Proof.
  intros Hrow. destruct (update_found E id u w row Hrow) as (row' & Heq & Hrow').
  eexists row', _. split; [exact Heq|]. split; [|done].
  cbn. apply lookup_insert_eq.
Qed.

(** C3 (as the code has it).  An update that sets a terminal status on
    an entry that exists stamps [completed_at] with the current UTC time
    and, in the same update, sets [duration_seconds] to
    [int(timedelta.total_seconds())] of the span between [started_at]
    and that time, a [started_at] without timezone being read as UTC.
    For a span of less than 2^34 seconds that is the span in whole
    seconds, truncated toward zero; the duration is [>= 0] whenever
    [started_at], so read, is not later than the current time.  An
    update that sets no terminal status leaves both fields as they
    are. *)
Theorem terminal_update_stamps_completion
    (E : Env) (id : Z) (u : UpdateCall) (w : World) (row : WorkflowExecution.t) :
  executions w !! id = Some row ->
  exists row' w',
    call_update E id u w = (Returns (Some row'), w') /\
    executions w' !! id = Some row' /\
    WorkflowExecution.started_at row' = WorkflowExecution.started_at row /\
    (is_terminal (u_status u) = true ->
     WorkflowExecution.completed_at row'
       = Some (datetime.mk (clock E (ticks w)) (Some 0)) /\
     forall started, WorkflowExecution.started_at row = Some started ->
       WorkflowExecution.duration_seconds row'
         = Some (datetime.int_total_seconds (clock E (ticks w) - utc_instant started)) /\
       (Z.abs (clock E (ticks w) - utc_instant started) < 2 ^ 34 * 1000000 ->
        WorkflowExecution.duration_seconds row'
          = Some (Z.quot (clock E (ticks w) - utc_instant started) 1000000)) /\
       (utc_instant started <= clock E (ticks w) ->
        exists d, WorkflowExecution.duration_seconds row' = Some d /\ 0 <= d)) /\
    (is_terminal (u_status u) = false ->
     WorkflowExecution.completed_at row' = WorkflowExecution.completed_at row /\
     WorkflowExecution.duration_seconds row' = WorkflowExecution.duration_seconds row).
Proof.
  intros Hrow.
  destruct (update_found_stored E id u w row Hrow) as (row' & w' & Heq & Hst & Hrow').
  exists row', w'. split; [done|]. split; [done|]. cbn zeta in Hrow'.
  destruct (is_terminal (u_status u)).
  - destruct (stamp_completion_returns (clock E (ticks w))
                (assign_columns (u_status u) (u_current_step u) (u_story_id u)
                   (u_video_generation_id u) (u_youtube_upload_id u) (u_error_message u) row))
      as (r & Hr & _ & _ & _ & _ & Hstarted & Hcompleted & Hduration).
    rewrite Hr in Hrow'. injection Hrow' as <-.
    split; [done|]. split; [|done]. intros _. split; [done|].
    intros started Hs. cbn in Hduration. rewrite Hs in Hduration. split; [done|]. split.
    + intros Hlt. by rewrite Hduration, int_total_seconds_exact.
    + intros Hle. eexists. split; [exact Hduration|]. apply int_total_seconds_nonneg. lia.
  - subst row'. split; [done|]. split; [done|]. by intros _.
Qed.

Lemma terminal_update_stamps_completion_witness :
  executions (world_with_entry (sample_env default_settings None true true true)) !! 1
    = Some (WorkflowExecution.mk 1 None (lit "running") None None None None None
              (Some (datetime.mk 1700000000000000 (Some 0))) None None) /\
  exists row' w',
    call_update (sample_env default_settings None true true true) 1
      (mkUpdateCall (Some (lit "completed")) None (Some 11) (Some 7) (Some 21) None)
      (world_with_entry (sample_env default_settings None true true true))
      = (Returns (Some row'), w') /\
    executions w' !! 1 = Some row'.
Proof.
  assert (H : executions (world_with_entry (sample_env default_settings None true true true)) !! 1
              = Some (WorkflowExecution.mk 1 None (lit "running") None None None None None
                        (Some (datetime.mk 1700000000000000 (Some 0))) None None))
    by (vm_compute; reflexivity).
  split; [exact H|].
  destruct (terminal_update_stamps_completion
              (sample_env default_settings None true true true) 1
              (mkUpdateCall (Some (lit "completed")) None (Some 11) (Some 7) (Some 21) None)
              _ _ H) as (row' & w' & Heq & Hst & _).
  by exists row', w'.
Defined.

(** C3 fails as stated.  With the server clock an hour ahead of the
    local one, the update that completes a fresh entry stores a negative
    duration; and a second terminal update of the same entry stamps
    [completed_at] and [duration_seconds] again, with new values. *)
Lemma duration_negative_and_stamped_twice :
  (exists row' w',
     call_update skewed_clock_env 1
       (mkUpdateCall (Some (lit "completed")) None None None None None)
       (world_with_entry skewed_clock_env) = (Returns (Some row'), w') /\
     WorkflowExecution.duration_seconds row' = Some (-3600)) /\
  (exists first second w1 w2,
     call_update (sample_env default_settings None true true true) 1
       (mkUpdateCall (Some (lit "completed")) None None None None None)
       (world_with_entry (sample_env default_settings None true true true))
       = (Returns (Some first), w1) /\
     call_update (sample_env default_settings None true true true) 1
       (mkUpdateCall (Some (lit "failed")) None None None None (Some (lit "commit failed")))
       w1 = (Returns (Some second), w2) /\
     WorkflowExecution.duration_seconds first = Some 0 /\
     WorkflowExecution.duration_seconds second = Some 1 /\
     WorkflowExecution.completed_at first <> WorkflowExecution.completed_at second).
Proof.
  split.
  - eexists _, _. split; vm_compute; reflexivity.
  - eexists _, _, _, _. split; [vm_compute; reflexivity|].
    split; [vm_compute; reflexivity|]. by vm_compute.
Qed.

Lemma assign_if_truthy_kept {A} `{Truthy A} (new old : option A) :
  is_Some old -> is_Some (assign_if_truthy new old).
Proof.
  unfold assign_if_truthy. intros Hold.
  destruct new as [a|]; cbn; [destruct (truthy a); [by eexists|done]|done].
Qed.

Lemma update_row_invariants E id u w row row' w' :
  executions w !! id = Some row ->
  call_update E id u w = (Returns (Some row'), w') ->
  links_kept row row' /\
  (WorkflowExecution.status row <> [] -> WorkflowExecution.status row' <> []) /\
  (keeps_terminal u ->
   terminal (WorkflowExecution.status row) -> terminal (WorkflowExecution.status row')).
Proof.
  intros Hrow Heq.
  destruct (update_found_stored E id u w row Hrow) as (r & w1 & Heq' & _ & Hr).
  rewrite Heq in Heq'. injection Heq' as <- <-. cbn zeta in Hr.
  set (assigned := assign_columns _ _ _ _ _ _ row) in Hr.
  assert (Hsame : WorkflowExecution.status row' = WorkflowExecution.status assigned /\
                  WorkflowExecution.story_id row' = WorkflowExecution.story_id assigned /\
                  WorkflowExecution.video_generation_id row'
                    = WorkflowExecution.video_generation_id assigned /\
                  WorkflowExecution.youtube_upload_id row'
                    = WorkflowExecution.youtube_upload_id assigned).
  { destruct (is_terminal (u_status u)); [|by subst].
    destruct (stamp_completion_returns (clock E (ticks w)) assigned)
      as (r & Hst & H1 & H2 & H3 & H4 & _).
    rewrite Hst in Hr. by injection Hr as <-. }
  destruct Hsame as (Hs & H1 & H2 & H3). unfold links_kept.
  rewrite Hs, H1, H2, H3. subst assigned. cbn.
  split; [repeat split; apply assign_if_truthy_kept|]. split.
  - intros Hne. destruct (u_status u) as [s|]; cbn; [|done].
    destruct s; cbn; done.
  - unfold keeps_terminal. intros Hk Ht.
    destruct (u_status u) as [s|]; cbn; [|done].
    destruct Hk as [-> | Hk]; [done|].
    destruct s; [by destruct Hk|done].
Qed.

(** C4 (as the code has it).  Whatever sequence of updates is applied
    to an entry, a link to a story, video or upload record that was set
    is never cleared, and the status never becomes empty; and if every
    update of the sequence passes no status or one of "completed" and
    "failed", an entry that is "completed" or "failed" stays so. *)
Theorem ledger_updates_never_clear
    (E : Env) (id : Z) (us : list UpdateCall) (w : World) (row : WorkflowExecution.t) :
  executions w !! id = Some row ->
  exists row' w',
    apply_updates E id us w = (Returns tt, w') /\
    executions w' !! id = Some row' /\
    links_kept row row' /\
    (WorkflowExecution.status row <> [] -> WorkflowExecution.status row' <> []) /\
    (Forall keeps_terminal us ->
     terminal (WorkflowExecution.status row) -> terminal (WorkflowExecution.status row')).
Proof.
  revert w row. induction us as [|u us IH]; intros w row Hrow.
  - exists row, w. by repeat split.
  - destruct (update_found_stored E id u w row Hrow) as (r & w1 & Heq & Hst & _).
    destruct (update_row_invariants E id u w row r w1 Hrow Heq) as (Hl & Hs & Ht).
    destruct (IH w1 r Hst) as (row' & w' & Heq' & Hst' & Hl' & Hs' & Ht').
    exists row', w'. split.
    { unfold apply_updates in *. cbn [for_each]. unfold mbind, M_bind, mret, M_ret in *.
      by rewrite Heq. }
    split; [done|]. split; [|split].
    + destruct Hl as (? & ? & ?), Hl' as (? & ? & ?). repeat split; auto.
    + auto.
    + intros Hall. inversion Hall; subst. auto.
Qed.

Lemma ledger_updates_never_clear_witness :
  executions (world_with_entry (sample_env default_settings None true true true)) !! 1
    = Some (WorkflowExecution.mk 1 None (lit "running") None None None None None
              (Some (datetime.mk 1700000000000000 (Some 0))) None None) /\
  exists row' w',
    apply_updates (sample_env default_settings None true true true) 1
      [mkUpdateCall None (Some (lit "generate_story")) (Some 11) None None None;
       mkUpdateCall (Some (lit "completed")) None None (Some 7) (Some 21) None;
       mkUpdateCall None None None None None None]
      (world_with_entry (sample_env default_settings None true true true))
      = (Returns tt, w') /\
    executions w' !! 1 = Some row'.
Proof.
  assert (H : executions (world_with_entry (sample_env default_settings None true true true)) !! 1
              = Some (WorkflowExecution.mk 1 None (lit "running") None None None None None
                        (Some (datetime.mk 1700000000000000 (Some 0))) None None))
    by (vm_compute; reflexivity).
  split; [exact H|].
  destruct (ledger_updates_never_clear
              (sample_env default_settings None true true true) 1
              [mkUpdateCall None (Some (lit "generate_story")) (Some 11) None None None;
               mkUpdateCall (Some (lit "completed")) None None (Some 7) (Some 21) None;
               mkUpdateCall None None None None None None]
              _ _ H) as (row' & w' & Heq & Hst & _).
  by exists row', w'.
Defined.

(** C4 fails as stated.  An entry that is "completed" and linked to
    story 11 is moved back to "running", and its story link replaced by
    another id, by two later updates. *)
Lemma status_reversed_and_link_changed :
  exists before after w1 w2,
    call_update (sample_env default_settings None true true true) 1
      (mkUpdateCall (Some (lit "completed")) None (Some 11) None None None)
      (world_with_entry (sample_env default_settings None true true true))
      = (Returns (Some before), w1) /\
    apply_updates (sample_env default_settings None true true true) 1
      [mkUpdateCall (Some (lit "running")) None None None None None;
       mkUpdateCall None None (Some 12) None None None] w1 = (Returns tt, w2) /\
    executions w2 !! 1 = Some after /\
    WorkflowExecution.status before = lit "completed" /\
    WorkflowExecution.story_id before = Some 11 /\
    WorkflowExecution.status after = lit "running" /\
    WorkflowExecution.story_id after = Some 12.
Proof.
  eexists _, _, _, _. split; [vm_compute; reflexivity|].
  split; [vm_compute; reflexivity|]. split; [vm_compute; reflexivity|]. by vm_compute.
Qed.

End Ledger.

(** ** What the agents leave alone *)

Section Respects.
Context (R : World -> World -> Prop) `{!PreOrder R}.

Lemma respects_ret {X} (x : X) : respects R (mret x).
Proof. intros w. reflexivity. Qed.

Lemma respects_raise {X} e : respects R (@raise X e).
Proof. intros w. reflexivity. Qed.

Lemma respects_diverge {X} : respects R (@diverge X).
Proof. intros w. reflexivity. Qed.

Lemma respects_of_evaluated {X} (v : evaluated X) : respects R (of_evaluated v).
Proof. intros w. reflexivity. Qed.

Lemma respects_bind {X Y} (m : M X) (k : X -> M Y) :
  respects R m -> (forall x, respects R (k x)) -> respects R (x ← m; k x).
Proof.
  intros Hm Hk w. specialize (Hm w). unfold mbind, M_bind.
  destruct (m w) as [[x|e|] w1]; cbn in *; [|done..].
  etransitivity; [exact Hm|apply Hk].
Qed.

Lemma respects_try {X} (body : M X) (handler : exn -> M X) :
  respects R body -> (forall e, respects R (handler e)) ->
  respects R (try_except body handler).
Proof.
  intros Hm Hk w. specialize (Hm w). unfold try_except.
  destruct (body w) as [[x|e|] w1]; cbn in *; [done| |done].
  etransitivity; [exact Hm|apply Hk].
Qed.

Lemma respects_try_local {X L Y} (init : L) (assign : M X) (local_of : X -> L)
    (rest : X -> M Y) (handler : L -> exn -> M Y) :
  respects R assign -> (forall x, respects R (rest x)) ->
  (forall l e, respects R (handler l e)) ->
  respects R (try_except_local init assign local_of rest handler).
Proof.
  intros Ha Hr Hh w. specialize (Ha w). unfold try_except_local.
  destruct (assign w) as [[x|e|] w1]; cbn in *; [| |done].
  - etransitivity; [exact Ha|]. by apply respects_try.
  - etransitivity; [exact Ha|apply Hh].
Qed.

Lemma respects_call_agent {X} ev (method : M X) :
  (forall w, R w (set_events (events w ++ [ev]) w)) -> respects R method ->
  respects R (call_agent ev method).
Proof.
  intros Hev Hm w. unfold call_agent. etransitivity; [apply Hev|apply Hm].
Qed.

End Respects.

#[local] Instance graph_step_agent_preorder : PreOrder agent_step.
Proof.
  split.
  - intros w. exists []. unfold graph_step. by rewrite !app_nil_r.
  - intros w1 w2 w3 (n1 & (He1 & Hv1 & Hx1 & Hs1) & Hn1) (n2 & (He2 & Hv2 & Hx2 & Hs2) & Hn2).
    exists (n1 ++ n2). split; [|by apply Forall_app].
    unfold graph_step. rewrite He2, He1, Hv2, Hv1, Hx2, Hx1, Hs2, Hs1.
    by rewrite !app_nil_r, app_assoc.
Qed.

Lemma agent_step_extcall {X} ev (oracle : World -> outcome X) :
  is_agent_run ev = false -> respects agent_step (extcall ev oracle).
Proof.
  intros Hev w. exists [ev]. split; [|by constructor].
  unfold graph_step. cbn. by rewrite app_nil_r.
Qed.

(** A computation that changes nothing but the clock reading count and
    the history the generator keeps. *)
Lemma agent_step_quiet {X} (c : M X) :
  (forall w, events (snd (c w)) = events w /\ visited (snd (c w)) = visited w /\
             executions (snd (c w)) = executions w /\
             execution_seq (snd (c w)) = execution_seq w) ->
  respects agent_step c.
Proof.
  intros H w. destruct (H w) as (He & Hv & Hx & Hs). exists []. split; [|done].
  unfold graph_step. by rewrite !app_nil_r.
Qed.

Ltac frame :=
  repeat first
    [ apply respects_ret; tc_solve
    | apply respects_raise; tc_solve
    | apply respects_diverge; tc_solve
    | apply respects_of_evaluated; tc_solve
    | apply agent_step_extcall; reflexivity
    | apply agent_step_quiet; intros ?; done
    | solve [auto]
    | apply respects_bind; [tc_solve| |intros ?]
    | apply respects_try; [tc_solve| |intros ?]
    | apply respects_try_local; [tc_solve| |intros ?|intros ? ?]
    | progress cbv beta zeta
    | match goal with
      | |- respects _ (match ?x with _ => _ end) => destruct x
      end ].

Lemma wait_until_done_frame op : respects agent_step (wait_until_done op).
Proof. induction op; cbn [wait_until_done]; frame. Qed.

Lemma generate_video_frame E prompt duration aspect_ratio :
  respects agent_step (generate_video E prompt duration aspect_ratio).
Proof.
  pose proof wait_until_done_frame.
  unfold generate_video, render_with_veo, _generate_mock_video, time_time. frame.
Qed.

Lemma render_segments_frame E duration prompts : forall videos,
  respects agent_step (render_segments E prompts duration videos).
Proof.
  induction prompts as [|prompt rest IH]; intros videos; cbn [render_segments].
  - frame.
  - apply respects_bind; [tc_solve|apply generate_video_frame|]. intros r. apply IH.
Qed.

Lemma merge_videos_frame E video_paths output_filename :
  respects agent_step (merge_videos E video_paths output_filename).
Proof. unfold merge_videos, time_time. frame. Qed.

Lemma generate_video_sequence_frame E prompts duration output_filename :
  respects agent_step (generate_video_sequence E prompts duration output_filename).
Proof.
  unfold generate_video_sequence.
  apply respects_bind; [tc_solve|apply render_segments_frame|]. intros videos.
  destruct (1 <? length videos)%nat; [apply merge_videos_frame|frame].
Qed.

Lemma generate_story_frame E episode_number :
  respects agent_step (generate_story E episode_number).
Proof.
  unfold generate_story, get_story_history, parse_story_response, parse_story_try,
    history_entry_of, append_story_history, now_isoformat. frame.
Qed.

Lemma StoryAgent_get_history_frame E db_session limit :
  respects agent_step (StoryAgent.get_history (StoryAgent.init E db_session) limit).
Proof.
  unfold StoryAgent.get_history. destruct db_session;
    cbn [StoryAgent.init StoryAgent.db_session StoryAgent.get_story_history_skill negb
         option_map execute_skill];
    unfold GetStoryHistorySkill_execute, StoryRepository_get_latest; frame.
Qed.

Lemma StoryAgent_run_frame E db_session episode save_to_db :
  respects agent_step (StoryAgent.run (StoryAgent.init E db_session) episode save_to_db).
Proof.
  pose proof (StoryAgent_get_history_frame E db_session 50).
  pose proof (generate_story_frame E).
  unfold StoryAgent.run, StoryAgent.determine_episode, StoryAgent.generate_story,
    StoryAgent.save_story, StoryAgent.run_failed.
  destruct db_session;
    cbn [StoryAgent.init StoryAgent.db_session StoryAgent.generate_story_skill
         StoryAgent.save_story_skill negb andb option_map execute_skill];
    unfold GenerateStorySkill_execute, SaveStorySkill_execute, load_story_history; frame.
Qed.

Lemma VideoAgent_run_frame E db_session prompts story_id duration output_filename :
  respects agent_step
    (VideoAgent.run E (VideoAgent.init E db_session) prompts story_id duration output_filename).
Proof.
  pose proof (generate_video_sequence_frame E prompts duration).
  unfold VideoAgent.run, VideoAgent.run_failed, VideoAgent.update_if_recorded,
    VideoAgent.update_generation_record, VideoAgent.save_generation_record,
    VideoAgent.generate_video_sequence, VideoAgent.default_output_filename, time_time.
  destruct db_session;
    cbn [VideoAgent.init VideoAgent.db_session VideoAgent.generate_video_sequence_skill
         VideoAgent.save_video_generation_skill VideoAgent.update_video_generation_skill
         negb andb option_map execute_skill];
    unfold GenerateVideoSequenceSkill_execute, SaveVideoGenerationSkill_execute,
      UpdateVideoGenerationSkill_execute; frame.
Qed.

Lemma YouTubeAgent_run_frame E db_session video_path title description tags privacy_status
    story_id video_generation_id :
  respects agent_step
    (YouTubeAgent.run (YouTubeAgent.init E db_session) video_path title description tags
                      privacy_status story_id video_generation_id).
Proof.
  unfold YouTubeAgent.run, YouTubeAgent.upload_video, YouTubeAgent.save_upload_record.
  destruct db_session;
    cbn [YouTubeAgent.init YouTubeAgent.db_session YouTubeAgent.upload_video_skill
         YouTubeAgent.save_youtube_upload_skill negb andb option_map execute_skill];
    unfold UploadVideoSkill_execute, SaveYouTubeUploadSkill_execute; frame.
Qed.

(** The agents the orchestrator builds over a session leave the ledger
    and the trace of the graph alone. *)
Lemma session_agents_frame E : agents_frame (session_agents E).
Proof.
  split; [|split; [|split]]; cbn [session_agents story_agent_get_history story_agent_run
                                  video_agent_run youtube_agent_run].
  - intros limit. pose proof (StoryAgent_get_history_frame E true limit). frame.
  - intros. apply StoryAgent_run_frame.
  - intros. apply VideoAgent_run_frame.
  - intros. apply YouTubeAgent_run_frame.
Qed.

(* ===================================================================== *)
(** ** The orchestrator (src/workflow.py) *)
(* ===================================================================== *)

Section Orchestrator.
Import VideoWorkflowAgent WorkflowState WorkflowExecutionRepository.

Lemma advance_advance dt1 evs1 ns1 dt2 evs2 ns2 w :
  advance dt2 evs2 ns2 (advance dt1 evs1 ns1 w) =
  advance (dt2 + dt1) (evs1 ++ evs2) (ns1 ++ ns2) w.
Proof. unfold advance. cbn. f_equal; [lia|by rewrite app_assoc|by rewrite app_assoc]. Qed.

Lemma advance_0 w : advance 0 [] [] w = w.
Proof. unfold advance. destruct w. cbn. by rewrite !app_nil_r. Qed.

Lemma extcall_advance {A} ev (o : World -> outcome A) w :
  extcall ev o w = (o w, advance 0 [ev] [] w).
Proof. unfold extcall, advance, set_events. cbn. by rewrite app_nil_r. Qed.

Lemma tick_advance w : set_ticks (S (ticks w)) w = advance 1 [] [] w.
Proof. unfold set_ticks, advance. by rewrite !app_nil_r. Qed.

Lemma enter_advance n w : enter n w = (Returns tt, advance 0 [] [n] w).
Proof. unfold enter, set_visited, advance. by rewrite !app_nil_r. Qed.

Lemma generate_videos_node_skip E A s w story :
  WorkflowState.story s = Some story ->
  skip_video_generation (settings E) = true ->
  test_video_path (settings E) <> [] ->
  generate_videos_node E A s w =
    (Returns (set_current_step (lit "generate_videos")
                (set_video_generation_id None
                   (set_final_video_path (Some (test_video_path (settings E))) s))), w).
Proof.
  intros Hstory Hskip Hpath.
  unfold generate_videos_node, try_except. rewrite Hstory, Hskip.
  by destruct (test_video_path (settings E)).
Qed.

Lemma invoke_from_step E A use_db steps n s w s' w' :
  node_function E A use_db n s (advance 0 [] [n] w) = (Returns s', w') ->
  invoke_from E A use_db (S steps) n s w =
    match next_node n s' with
    | Some n' => invoke_from E A use_db steps n' s' w'
    | None => (Returns s', w')
    end.
Proof.
  intros H. cbn [invoke_from]. unfold mbind, M_bind. rewrite enter_advance, H.
  by destruct (next_node n s').
Qed.

Lemma advance_executions dt evs ns w : executions (advance dt evs ns w) = executions w.
Proof. done. Qed.

Lemma advance_visited dt evs ns w : visited (advance dt evs ns w) = visited w ++ ns.
Proof. done. Qed.

Lemma advance_events dt evs ns w : events (advance dt evs ns w) = events w ++ evs.
Proof. done. Qed.

(** Each conditional edge continues exactly when the state has no error
    and the artifact of the stage is there. *)
Lemma conditional_edges_route s :
  (next_node node.generate_story s = Some node.generate_videos <->
     truthy (error s) = false /\ truthy (story s) = true) /\
  (next_node node.generate_videos s = Some node.upload_to_youtube <->
     truthy (error s) = false /\ truthy (final_video_path s) = true) /\
  (next_node node.upload_to_youtube s = Some node.save_history <->
     truthy (error s) = false /\ truthy (upload_result s) = true) /\
  (forall n, n = node.generate_story \/ n = node.generate_videos \/ n = node.upload_to_youtube ->
     next_node n s = Some node.handle_error \/
     next_node n s = Some match n with
                          | node.generate_story => node.generate_videos
                          | node.generate_videos => node.upload_to_youtube
                          | _ => node.save_history
                          end).
Proof.
  cbn [next_node].
  unfold should_continue_after_story, should_continue_after_videos, should_continue_after_upload.
  repeat split.
  all: try (intros [-> ->]; done).
  all: try (destruct (truthy (error s)); cbn [orb]; [discriminate|]; by destruct (truthy _)).
  intros n [-> | [-> | ->]]; cbn [next_node];
    unfold should_continue_after_story, should_continue_after_videos,
           should_continue_after_upload;
    destruct (_ || _); auto.
Qed.

(** C1.  A run in which the video stage records an error and produces
    no final video path, but whose ledger entry is closed as
    "completed".  The rows of the video generation table are locked and
    the rollback raises an exception whose text is empty: the exception
    leaves [VideoAgent.run] through its [except] clause, the node stores
    the empty text in [state.error], the edge after [generate_videos]
    routes to [handle_error] because the path is missing, the final
    state has [current_step == "error"], no upload is attempted, and
    [run] reads the empty text as no error. *)
Theorem empty_error_text_leaves_ledger_completed :
  exists s w',
    run (lock_timeout_env []) (session_agents (lock_timeout_env [])) None false empty_world
      = (Returns s, w') /\
    visited w' = [node.load_history; node.generate_story; node.generate_videos;
                  node.handle_error] /\
    current_step s = lit "error" /\
    error s = Some [] /\
    final_video_path s = None /\
    forallb (fun ev => negb (calls_agent_after video_stage ev)) (events w') = true /\
    ledger_status empty_world w' = Some (lit "completed").
Proof. eexists _, _. vm_compute. repeat split. Qed.

(** C8.  With the skip switch on and a test video path configured, the
    [generate_videos] node, entered as the graph enters it after
    [generate_story], returns without any call (the world is the one it
    was given: no agent run, no renderer call, not even a clock
    reading), with [final_video_path] the configured path,
    [video_generation_id] null and [current_step] "generate_videos".
    The switch is read inside the node: the graph enters the node
    [generate_videos] as in any run, and goes on with
    [upload_to_youtube]. *)
Theorem skip_switch_bypasses_video_agent
    (E : Env) (A : Agents) (use_db : bool) (s : WorkflowState.t) (w : World) :
  skip_video_generation (settings E) = true ->
  test_video_path (settings E) <> [] ->
  next_node node.generate_story s = Some node.generate_videos ->
  exists s',
    generate_videos_node E A s w = (Returns s', w) /\
    final_video_path s' = Some (test_video_path (settings E)) /\
    video_generation_id s' = None /\
    current_step s' = lit "generate_videos" /\
    next_node node.generate_videos s' = Some node.upload_to_youtube /\
    forall steps,
      invoke_from E A use_db (S steps) node.generate_videos s w =
      invoke_from E A use_db steps node.upload_to_youtube s'
                  (advance 0 [] [node.generate_videos] w).
Proof.
  intros Hskip Hpath Hroute.
  destruct (conditional_edges_route s) as (Hstory & _).
  apply Hstory in Hroute as [Herr Hs].
  destruct (story s) as [st|] eqn:Hst; [|discriminate].
  eexists. split; [by apply (generate_videos_node_skip E A s w st)|].
  split; [done|]. split; [done|]. split; [done|].
  assert (Hnext : next_node node.generate_videos
                    (set_current_step (lit "generate_videos")
                       (set_video_generation_id None
                          (set_final_video_path (Some (test_video_path (settings E))) s)))
                  = Some node.upload_to_youtube).
  { destruct (conditional_edges_route
                (set_current_step (lit "generate_videos")
                   (set_video_generation_id None
                      (set_final_video_path (Some (test_video_path (settings E))) s))))
      as (_ & Hvideos & _).
    apply Hvideos. split; [exact Herr|]. by apply truthy_str_nonempty. }
  split; [exact Hnext|]. intros steps.
  rewrite (invoke_from_step E A use_db steps node.generate_videos s w _ _
             (generate_videos_node_skip E A s _ st Hst Hskip Hpath)).
  by rewrite Hnext.
Qed.

Lemma skip_switch_bypasses_video_agent_witness :
  skip_video_generation
    (settings (sample_env test_run_settings (Some (lit "{}")) true true true)) = true /\
  test_video_path
    (settings (sample_env test_run_settings (Some (lit "{}")) true true true)) <> [] /\
  next_node node.generate_story state_after_story = Some node.generate_videos /\
  exists s',
    generate_videos_node (sample_env test_run_settings (Some (lit "{}")) true true true)
      (session_agents (sample_env test_run_settings (Some (lit "{}")) true true true))
      state_after_story empty_world = (Returns s', empty_world) /\
    final_video_path s' = Some (lit "/data/test.mp4") /\
    video_generation_id s' = None /\
    current_step s' = lit "generate_videos" /\
    next_node node.generate_videos s' = Some node.upload_to_youtube.
Proof.
  assert (Hskip : skip_video_generation
            (settings (sample_env test_run_settings (Some (lit "{}")) true true true)) = true)
    by reflexivity.
  assert (Hpath : test_video_path
            (settings (sample_env test_run_settings (Some (lit "{}")) true true true)) <> [])
    by discriminate.
  assert (Hroute : next_node node.generate_story state_after_story
                   = Some node.generate_videos) by reflexivity.
  split; [exact Hskip|]. split; [exact Hpath|]. split; [exact Hroute|].
  destruct (skip_switch_bypasses_video_agent
              (sample_env test_run_settings (Some (lit "{}")) true true true)
              (session_agents (sample_env test_run_settings (Some (lit "{}")) true true true))
              true state_after_story empty_world Hskip Hpath Hroute)
    as (s' & Hnode & Hfinal & Hvgid & Hstep & Hnext & _).
  exists s'. repeat split; assumption.
Defined.

End Orchestrator.

(** ** Stage failures (src/workflow.py) *)

Section StageFailures.
Import VideoWorkflowAgent WorkflowState WorkflowExecutionRepository.

Lemma graph_step_refl w : graph_step [] [] w w.
Proof. unfold graph_step. by rewrite !app_nil_r. Qed.

Lemma graph_step_trans evs1 ns1 evs2 ns2 w1 w2 w3 :
  graph_step evs1 ns1 w1 w2 -> graph_step evs2 ns2 w2 w3 ->
  graph_step (evs1 ++ evs2) (ns1 ++ ns2) w1 w3.
Proof.
  intros (He1 & Hv1 & Hx1 & Hs1) (He2 & Hv2 & Hx2 & Hs2). unfold graph_step.
  by rewrite He2, He1, Hv2, Hv1, Hx2, Hx1, Hs2, Hs1, !app_assoc.
Qed.

Lemma graph_step_advance dt evs ns w : graph_step evs ns w (advance dt evs ns w).
Proof. done. Qed.

Lemma graph_step_call_agent {X} ev (method : M X) w :
  respects agent_step method ->
  exists new,
    graph_step (ev :: new) [] w (snd (call_agent ev method w)) /\
    Forall (fun ev => is_agent_run ev = false) new.
Proof.
  intros Hm. unfold call_agent.
  destruct (Hm (set_events (events w ++ [ev]) w)) as (new & Hstep & Hnew).
  exists new. split; [|done].
  apply (graph_step_trans [ev] [] new [] w (set_events (events w ++ [ev]) w)); [|done].
  unfold graph_step. cbn. by rewrite app_nil_r.
Qed.

Lemma not_agent_run_not_after k ev : is_agent_run ev = false -> calls_agent_after k ev = false.
Proof. by destruct k, ev. Qed.

Lemma py_or_default_nonempty (o : option str) (d : str) : d <> [] -> py_or_default o d <> [].
Proof.
  intros Hd. unfold py_or_default. destruct o as [[|c s]|]; cbn; done.
Qed.

Lemma explained {X} (A : Agents) (o : outcome X) e :
  (agents_explain A -> o <> Raises []) -> o = Raises e -> agents_explain A -> e <> [].
Proof. intros H -> HA ->. by apply H. Qed.

(** [load_history] hands on a state with a history, or does not end. *)
Lemma load_history_node_cases A use_db s w :
  agents_frame A ->
  match load_history_node A use_db s w with
  | (Returns s', w') =>
      (exists h, s' = set_current_step (lit "load_history") (set_story_history h s)) /\
      exists evs, graph_step evs [] w w' /\
                  Forall (fun ev => is_agent_run ev = false) evs
  | (Raises _, _) => False
  | (Diverges, _) => True
  end.
Proof.
  intros (Hframe & _). unfold load_history_node. unfold mbind, M_bind, try_except.
  destruct use_db.
  - destruct (graph_step_call_agent (EvStoryAgentGetHistory 50)
                (story_agent_get_history A 50) w (Hframe 50)) as (new & Hstep & Hnew).
    destruct (call_agent _ _ w) as [[h|e|] w1]; cbn [snd] in Hstep; unfold_M;
      [| |done]; (split; [by eexists|]); exists (EvStoryAgentGetHistory 50 :: new);
      (split; [done|by constructor]).
  - unfold extcall.
    destruct (history_file_load A w) as [[h|]|e|]; unfold_M; [| | |done];
      (split; [by eexists|]); exists [EvHistoryFileRead]; (split; [|by repeat constructor]);
      unfold graph_step; cbn; by rewrite app_nil_r.
Qed.

Lemma generate_story_node_cases A use_db s w :
  agents_frame A ->
  match generate_story_node A use_db s w with
  | (Returns s', w') =>
      (exists evs, graph_step evs [] w w' /\
                   Forall (fun ev => calls_agent_after story_stage ev = false) evs) /\
      ((exists story sid,
           s' = set_current_step (lit "generate_story")
                  (set_story_id sid (set_story (Some story) s))) \/
       (exists msg,
           s' = failed_with msg s /\
           (agents_explain A -> msg <> [])))
  | (Raises _, _) => False
  | (Diverges, _) => True
  end.
Proof.
  intros (_ & Hframe & _). unfold generate_story_node, try_except. unfold mbind, M_bind.
  set (ev := EvStoryAgentRun _ use_db).
  match goal with |- context [call_agent ev ?m w] =>
    destruct (graph_step_call_agent ev m w (Hframe _ _)) as (new & Hstep & Hnew);
    assert (Hexp : agents_explain A -> fst (call_agent ev m w) <> Raises [])
      by (intros (H1 & _); apply H1);
    assert (Hevs : exists evs, graph_step evs [] w (snd (call_agent ev m w)) /\
                     Forall (fun ev => calls_agent_after story_stage ev = false) evs);
    [|destruct (call_agent ev m w) as [[r|e|] w1]; cbn [fst snd] in *; [| |done]]
  end.
  { eexists. split; [exact Hstep|]. constructor; [done|].
    eapply Forall_impl; [exact Hnew|]. intros. by apply not_agent_run_not_after. }
  - destruct (StoryAgentResult.success r) eqn:Hsucc; cbn [negb orb].
    + destruct (StoryAgentResult.story r) as [story|] eqn:Hstory; cbn.
      * split; [done|]. left. by eexists _, _.
      * split; [done|]. right. eexists. split; [reflexivity|].
        intros _. by apply py_or_default_nonempty.
    + cbn. split; [done|]. right. eexists. split; [reflexivity|].
      intros _. by apply py_or_default_nonempty.
  - cbn. split; [done|]. right. exists e. split; [reflexivity|].
    intros HA ->. by apply Hexp.
Qed.

Lemma generate_videos_node_cases E A s w story :
  agents_frame A ->
  WorkflowState.story s = Some story ->
  match generate_videos_node E A s w with
  | (Returns s', w') =>
      (exists evs, graph_step evs [] w w' /\
                   Forall (fun ev => calls_agent_after video_stage ev = false) evs) /\
      ((exists path vgid,
           path <> [] /\
           s' = set_current_step (lit "generate_videos")
                  (set_video_generation_id vgid (set_final_video_path (Some path) s))) \/
       (exists msg,
           s' = failed_with msg s /\
           (agents_explain A -> msg <> [])))
  | (Raises _, _) => False
  | (Diverges, _) => True
  end.
Proof.
  intros (_ & _ & Hframe & _) Hstory.
  unfold generate_videos_node, try_except. rewrite Hstory.
  destruct (skip_video_generation (settings E)).
  - destruct (test_video_path (settings E)) as [|c p] eqn:Hpath; cbn.
    + split; [exists []; split; [apply graph_step_refl|done]|].
      right. eexists. split; [reflexivity|]. done.
    + split; [exists []; split; [apply graph_step_refl|done]|].
      left. eexists _, _. split; [|reflexivity]. done.
  - unfold VideoAgent.default_output_filename, time_time. unfold mbind, M_bind.
    unfold mret at 1, M_ret at 1. cbv beta iota.
    set (w0 := set_ticks (S (ticks w)) w).
    set (ev := EvVideoAgentRun _ _ 5 _).
    match goal with |- context [call_agent ev ?m w0] =>
      destruct (graph_step_call_agent ev m w0 (Hframe _ _ _ _)) as (new & Hstep & Hnew);
      assert (Hexp : agents_explain A -> fst (call_agent ev m w0) <> Raises [])
        by (intros (_ & H2 & _); apply H2);
      assert (Hevs : exists evs, graph_step evs [] w (snd (call_agent ev m w0)) /\
                       Forall (fun ev => calls_agent_after video_stage ev = false) evs);
      [|destruct (call_agent ev m w0) as [[r|e|] w1]; cbn [fst snd] in *; [| |done]]
    end.
    { eexists. split; [exact Hstep|]. constructor; [done|].
      eapply Forall_impl; [exact Hnew|]. intros. by apply not_agent_run_not_after. }
    + destruct (VideoAgentResult.success r) eqn:Hsucc; cbn [negb orb].
      * destruct (VideoAgentResult.video_path r) as [[|c path]|] eqn:Hpath; cbn.
        -- split; [done|]. right. eexists. split; [reflexivity|].
           intros _. by apply py_or_default_nonempty.
        -- split; [done|]. left. eexists _, _. split; [|reflexivity]. done.
        -- split; [done|]. right. eexists. split; [reflexivity|].
           intros _. by apply py_or_default_nonempty.
      * cbn. split; [done|]. right. eexists. split; [reflexivity|].
        intros _. by apply py_or_default_nonempty.
    + cbn. split; [done|]. right. exists e. split; [reflexivity|].
      intros HA ->. by apply Hexp.
Qed.

Lemma upload_to_youtube_node_cases A s w story video_path :
  agents_frame A ->
  WorkflowState.story s = Some story ->
  final_video_path s = Some video_path ->
  video_path <> [] ->
  match upload_to_youtube_node A s w with
  | (Returns s', w') =>
      (exists evs, graph_step evs [] w w') /\
      ((exists result rid,
           s' = set_current_step (lit "upload_to_youtube")
                  (set_youtube_upload_id rid (set_upload_result (Some result) s))) \/
       (exists msg,
           s' = failed_with msg s /\
           (agents_explain A -> msg <> [])))
  | (Raises _, _) => False
  | (Diverges, _) => True
  end.
Proof.
  intros (_ & _ & _ & Hframe) Hstory Hpath Hne.
  unfold upload_to_youtube_node, try_except. rewrite Hstory, Hpath.
  rewrite (truthy_str_nonempty _ Hne). cbn [negb].
  unfold mbind, M_bind.
  set (ev := EvYouTubeAgentRun _ _ _ _ _).
  match goal with |- context [call_agent ev ?m w] =>
    destruct (graph_step_call_agent ev m w (Hframe _ _ _ _ _ _ _)) as (new & Hstep & Hnew);
    assert (Hexp : agents_explain A -> fst (call_agent ev m w) <> Raises [])
      by (intros (_ & _ & H3); apply H3);
    destruct (call_agent ev m w) as [[r|e|] w1]; cbn [fst snd] in *; [| |done]
  end.
  - destruct (YouTubeAgentResult.success r) eqn:Hsucc; cbn [negb].
    + cbn. split; [by eexists|]. left. by eexists _, _.
    + cbn. split; [by eexists|]. right. eexists. split; [reflexivity|].
      intros _. by apply py_or_default_nonempty.
  - cbn. split; [by eexists|]. right. exists e. split; [reflexivity|].
    intros HA ->. by apply Hexp.
Qed.

Lemma invoke_from_stops E A use_db steps n s w o w' :
  node_function E A use_db n s (advance 0 [] [n] w) = (o, w') ->
  (forall s', o <> Returns s') ->
  invoke_from E A use_db (S steps) n s w = (match o with
                                            | Returns s' => Returns s'
                                            | Raises e => Raises e
                                            | Diverges => Diverges
                                            end, w').
Proof.
  intros H Ho. cbn [invoke_from]. unfold mbind, M_bind. rewrite enter_advance, H.
  destruct o as [s'|e|]; [by destruct (Ho s')|done..].
Qed.

Lemma enter_then_step n evs0 ns0 evs w0 w w' :
  graph_step evs0 ns0 w0 w ->
  graph_step evs [] (advance 0 [] [n] w) w' ->
  graph_step (evs0 ++ evs) (ns0 ++ [n]) w0 w'.
Proof.
  intros H0 H1.
  apply (graph_step_trans evs0 ns0 evs [n] w0 w w' H0).
  apply (graph_step_trans [] [n] evs [] w (advance 0 [] [n] w) w'); [done|exact H1].
Qed.

Lemma handle_error_ends E A use_db steps s w :
  invoke_from E A use_db (S steps) node.handle_error s w =
    (Returns (set_current_step (lit "error") s), advance 0 [] [node.handle_error] w).
Proof. by rewrite (invoke_from_step E A use_db steps node.handle_error s w _ _ eq_refl). Qed.

Lemma route_story_error s :
  story s = None -> next_node node.generate_story s = Some node.handle_error.
Proof.
  intros H. cbn [next_node]. unfold should_continue_after_story.
  rewrite H. cbn. by rewrite orb_true_r.
Qed.

Lemma route_story_continue s st :
  error s = None -> story s = Some st ->
  next_node node.generate_story s = Some node.generate_videos.
Proof.
  intros He H. cbn [next_node]. unfold should_continue_after_story. by rewrite H, He.
Qed.

Lemma route_videos_error s :
  final_video_path s = None -> next_node node.generate_videos s = Some node.handle_error.
Proof.
  intros H. cbn [next_node]. unfold should_continue_after_videos.
  rewrite H. cbn. by rewrite orb_true_r.
Qed.

Lemma route_videos_continue s path :
  error s = None -> final_video_path s = Some path -> path <> [] ->
  next_node node.generate_videos s = Some node.upload_to_youtube.
Proof.
  intros He H Hne. cbn [next_node]. unfold should_continue_after_videos.
  rewrite H, He. cbn. by rewrite (truthy_str_nonempty _ Hne).
Qed.

Lemma route_upload_error s :
  upload_result s = None -> next_node node.upload_to_youtube s = Some node.handle_error.
Proof.
  intros H. cbn [next_node]. unfold should_continue_after_upload.
  rewrite H. cbn. by rewrite orb_true_r.
Qed.

Lemma route_upload_continue s result :
  error s = None -> upload_result s = Some result ->
  next_node node.upload_to_youtube s = Some node.save_history.
Proof.
  intros He H. cbn [next_node]. unfold should_continue_after_upload. by rewrite H, He.
Qed.


(** What a graph run comes to: it stops at a failed stage, or it
    reaches [save_history] with the three artifacts, or an agent does
    not come back. *)
Lemma ainvoke_outcome E A use_db init w :
  agents_frame A ->
  fresh init ->
  (exists k s msg evs w',
     ainvoke E A use_db init w = (Returns s, w') /\
     graph_step evs (nodes_through k ++ [node.handle_error]) w w' /\
     current_step s = lit "error" /\ error s = Some msg /\ artifact_missing k s /\
     Forall (fun ev => calls_agent_after k ev = false) evs /\
     (agents_explain A -> msg <> [])) \/
  (exists s evs w3,
     ainvoke E A use_db init w = invoke_from E A use_db 21 node.save_history s w3 /\
     graph_step evs (nodes_through upload_stage) w w3 /\
     error s = None /\ is_Some (story s) /\ is_Some (final_video_path s) /\
     is_Some (upload_result s) /\
     current_step s = lit "upload_to_youtube") \/
  (exists w', ainvoke E A use_db init w = (Diverges, w')).
Proof.
  intros HA (Hs & He & Hp & Hu). unfold ainvoke.
  (* load_history *)
  pose proof (load_history_node_cases A use_db init (advance 0 [] [node.load_history] w) HA)
    as Hload.
  destruct (load_history_node A use_db init (advance 0 [] [node.load_history] w))
    as [[s1|e|] w1] eqn:Hl; [|done|].
  2:{ right; right. exists w1.
      by rewrite (invoke_from_stops E A use_db _ node.load_history init w Diverges w1 Hl). }
  rewrite (invoke_from_step E A use_db _ node.load_history init w _ _ Hl).
  cbn [next_node].
  destruct Hload as ((h & ->) & evs1 & Hstep1 & Hev1).
  pose proof (enter_then_step node.load_history [] [] evs1 w w w1 (graph_step_refl w) Hstep1)
    as Hw1. cbn [app] in Hw1.
  set (s1 := set_current_step (lit "load_history") (set_story_history h init)) in *.
  (* generate_story *)
  pose proof (generate_story_node_cases A use_db s1 (advance 0 [] [node.generate_story] w1) HA)
    as Hstory.
  destruct (generate_story_node A use_db s1 (advance 0 [] [node.generate_story] w1))
    as [[s2|e|] w2] eqn:Hg; [|done|].
  2:{ right; right. exists w2.
      by rewrite (invoke_from_stops E A use_db _ node.generate_story s1 w1 Diverges w2 Hg). }
  rewrite (invoke_from_step E A use_db _ node.generate_story s1 w1 _ _ Hg).
  destruct Hstory as ((evs2 & Hstep2 & Hev2) & Hcase2).
  pose proof (enter_then_step node.generate_story _ _ evs2 w w1 w2 Hw1 Hstep2) as Hw2.
  cbn [app] in Hw2.
  assert (Hevs2 : Forall (fun ev => calls_agent_after story_stage ev = false) (evs1 ++ evs2)).
  { apply Forall_app. split; [|done].
    eapply Forall_impl; [exact Hev1|]. intros. by apply not_agent_run_not_after. }
  destruct Hcase2 as [(story & sid & ->) | (msg & -> & Hmsg)].
  2:{ left. exists story_stage.
      rewrite (route_story_error (failed_with msg s1) Hs).
      rewrite handle_error_ends.
      eexists _, msg, (evs1 ++ evs2), _. split; [reflexivity|].
      split.
      { pose proof (graph_step_trans _ _ [] [node.handle_error] w w2 _ Hw2
                      (graph_step_advance 0 [] [node.handle_error] w2)) as H.
        by rewrite app_nil_r in H. }
      split; [done|]. split; [done|]. split; [done|]. done. }
  set (s2 := set_current_step (lit "generate_story") _) in *.
  rewrite (route_story_continue s2 story He eq_refl).
  (* generate_videos *)
  pose proof (generate_videos_node_cases E A s2 (advance 0 [] [node.generate_videos] w2) story
                HA eq_refl) as Hvideo.
  destruct (generate_videos_node E A s2 (advance 0 [] [node.generate_videos] w2))
    as [[s3|e|] w3] eqn:Hv; [|done|].
  2:{ right; right. exists w3.
      by rewrite (invoke_from_stops E A use_db _ node.generate_videos s2 w2 Diverges w3 Hv). }
  rewrite (invoke_from_step E A use_db _ node.generate_videos s2 w2 _ _ Hv).
  destruct Hvideo as ((evs3 & Hstep3 & Hev3) & Hcase3).
  pose proof (enter_then_step node.generate_videos _ _ evs3 w w2 w3 Hw2 Hstep3) as Hw3.
  cbn [app] in Hw3.
  assert (Hevs3 : Forall (fun ev => calls_agent_after video_stage ev = false)
                         ((evs1 ++ evs2) ++ evs3)).
  { apply Forall_app. split; [|done].
    eapply Forall_impl; [exact Hevs2|]. intros ev Hev. by destruct ev. }
  destruct Hcase3 as [(path & vgid & Hpath & ->) | (msg & -> & Hmsg)].
  2:{ left. exists video_stage.
      rewrite (route_videos_error (failed_with msg s2) Hp).
      rewrite handle_error_ends.
      eexists _, msg, ((evs1 ++ evs2) ++ evs3), _. split; [reflexivity|].
      split.
      { pose proof (graph_step_trans _ _ [] [node.handle_error] w w3 _ Hw3
                      (graph_step_advance 0 [] [node.handle_error] w3)) as H.
        by rewrite app_nil_r in H. }
      split; [done|]. split; [done|]. split; [done|]. done. }
  set (s3 := set_current_step (lit "generate_videos") _) in *.
  rewrite (route_videos_continue s3 path He eq_refl Hpath).
  (* upload_to_youtube *)
  pose proof (upload_to_youtube_node_cases A s3 (advance 0 [] [node.upload_to_youtube] w3)
                story path HA eq_refl eq_refl Hpath) as Hupload.
  destruct (upload_to_youtube_node A s3 (advance 0 [] [node.upload_to_youtube] w3))
    as [[s4|e|] w4] eqn:Hup; [|done|].
  2:{ right; right. exists w4.
      by rewrite (invoke_from_stops E A use_db _ node.upload_to_youtube s3 w3 Diverges w4 Hup). }
  rewrite (invoke_from_step E A use_db _ node.upload_to_youtube s3 w3 _ _ Hup).
  destruct Hupload as ((evs4 & Hstep4) & Hcase4).
  pose proof (enter_then_step node.upload_to_youtube _ _ evs4 w w3 w4 Hw3 Hstep4) as Hw4.
  cbn [app] in Hw4.
  destruct Hcase4 as [(result & rid & ->) | (msg & -> & Hmsg)].
  2:{ left. exists upload_stage.
      rewrite (route_upload_error (failed_with msg s3) Hu).
      rewrite handle_error_ends.
      eexists _, msg, (((evs1 ++ evs2) ++ evs3) ++ evs4), _. split; [reflexivity|].
      split.
      { pose proof (graph_step_trans _ _ [] [node.handle_error] w w4 _ Hw4
                      (graph_step_advance 0 [] [node.handle_error] w4)) as H.
        by rewrite app_nil_r in H. }
      split; [done|]. split; [done|]. split; [done|]. split; [|done].
      by apply Forall_forall. }
  right; left. set (s4 := set_current_step (lit "upload_to_youtube") _).
  rewrite (route_upload_continue s4 result He eq_refl).
  eexists _, _, _. split; [reflexivity|]. split; [exact Hw4|].
  subst s4 s3 s2. cbn. rewrite He.
  split; [done|]. split; [by eexists|]. split; [by eexists|]. split; [by eexists|]. done.
Qed.

Lemma run_unfold E A episode_number private w :
  session_commit E (created E episode_number w) = Returns tt ->
  run E A episode_number private w =
    match ainvoke E A true (run_initial_state E episode_number private w)
                  (graph_start E episode_number w) with
    | (Returns final_state, w4) =>
        match call_update E (Z.pos (execution_seq w))
                (mkUpdateCall
                   (Some (if negb (truthy (error final_state))
                          then lit "completed" else lit "failed"))
                   None (story_id final_state) (video_generation_id final_state)
                   (youtube_upload_id final_state) (error final_state)) w4 with
        | (Returns _, w5) =>
            match session_commit E w5 with
            | Returns _ => (Returns final_state, advance 0 [EvCommit] [] w5)
            | Raises e => run_failed E (Some (Z.pos (execution_seq w))) e
                                     (advance 0 [EvCommit] [] w5)
            | Diverges => (Diverges, advance 0 [EvCommit] [] w5)
            end
        | (Raises e, w5) => run_failed E (Some (Z.pos (execution_seq w))) e w5
        | (Diverges, w5) => (Diverges, w5)
        end
    | (Raises e, w4) => run_failed E (Some (Z.pos (execution_seq w))) e w4
    | (Diverges, w4) => (Diverges, w4)
    end.
Proof.
  intros Hcommit. unfold run, try_except_local, try_except.
  unfold mbind at 1, M_bind at 1. unfold create at 1.
  unfold mret at 1, M_ret at 1. cbn [WorkflowExecution.id].
  unfold mbind at 1, M_bind at 1. rewrite extcall_advance.
  change (set_execution_seq _ _) with (created E episode_number w).
  rewrite Hcommit.
  unfold mbind at 1, M_bind at 1. unfold now_isoformat at 1.
  rewrite tick_advance, advance_advance. cbn [Nat.add app].
  change (ticks (advance 0 [EvCommit] [] (created E episode_number w))) with (ticks w).
  fold (run_initial_state E episode_number private w).
  fold (graph_start E episode_number w).
  unfold mbind at 1, M_bind at 1.
  destruct (ainvoke E A true _ _) as [[final_state|e|] w4]; [|done..].
  assert (truthy (Z.pos (execution_seq w)) = true) as -> by done.
  unfold mbind at 1, M_bind at 1. unfold mbind at 1, M_bind at 1.
  change (update E (Z.pos (execution_seq w)) ?a ?b ?c ?d ?e ?f)
    with (call_update E (Z.pos (execution_seq w)) (mkUpdateCall a b c d e f)).
  match goal with |- context [call_update ?E ?i ?u w4] =>
    destruct (call_update E i u w4) as [[r|e|] w5] end; [|done..].
  rewrite extcall_advance. destruct (session_commit E w5); done.
Qed.

Lemma run_failed_marks E eid e w row :
  eid <> 0 ->
  executions w !! eid = Some row ->
  exists row',
    executions (snd (run_failed E (Some eid) e w)) !! eid = Some row' /\
    WorkflowExecution.status row' = lit "failed" /\
    visited (snd (run_failed E (Some eid) e w)) = visited w /\
    events (snd (run_failed E (Some eid) e w)) = events w ++ [EvCommit] /\
    ((exists e', fst (run_failed E (Some eid) e w) = Raises e') \/
     fst (run_failed E (Some eid) e w) = Diverges).
Proof.
  intros Hid Hrow. unfold run_failed.
  change (truthy (Some eid)) with (truthy eid). rewrite (truthy_int_nonzero _ Hid).
  change (default 0 (Some eid)) with eid.
  change (update E eid ?a ?b ?c ?d ?e ?f)
    with (call_update E eid (mkUpdateCall a b c d e f)).
  unfold mbind, M_bind.
  destruct (update_found E eid (mkUpdateCall (Some (lit "failed")) None None None None (Some e))
              w row Hrow) as (row' & Heq & Hrow').
  rewrite Heq. cbn [u_status u_current_step u_story_id u_video_generation_id
                    u_youtube_upload_id u_error_message] in *.
  assert (is_terminal (Some (lit "failed")) = true) as Hterm by done.
  rewrite Hterm in *. cbn zeta in Hrow'.
  destruct (stamp_completion_returns (clock E (ticks w))
              (assign_columns (Some (lit "failed")) None None None None (Some e) row))
    as (r & Hr & Hstatus & _).
  rewrite Hr in Hrow'. injection Hrow' as <-.
  rewrite extcall_advance. unfold raise.
  destruct (session_commit E _); exists r; cbn [fst snd];
    rewrite advance_executions; cbn [executions set_executions];
    rewrite lookup_insert_eq;
    (split; [done|]); (split; [by rewrite Hstatus|]); cbn;
    (split; [by rewrite app_nil_r|]); (split; [done|]); eauto.
Qed.

Lemma created_lookup E episode_number w :
  executions (created E episode_number w) !! Z.pos (execution_seq w) =
    Some (WorkflowExecution.mk (Z.pos (execution_seq w)) episode_number (lit "running")
            None None None None None (Some (server_now E (ticks w))) None None).
Proof. unfold created, create. cbn. apply lookup_insert_eq. Qed.

(** What [run] leaves in the ledger once a stage has failed. *)
Lemma run_after_stage_failure E A episode_number private w s msg evs nodes w4 :
  session_commit E (created E episode_number w) = Returns tt ->
  ainvoke E A true (run_initial_state E episode_number private w)
          (graph_start E episode_number w) = (Returns s, w4) ->
  graph_step evs nodes (graph_start E episode_number w) w4 ->
  error s = Some msg ->
  exists row commits,
    executions (snd (run E A episode_number private w)) !! Z.pos (execution_seq w)
      = Some row /\
    (msg <> [] -> WorkflowExecution.status row = lit "failed") /\
    visited (snd (run E A episode_number private w)) = visited w ++ nodes /\
    events (snd (run E A episode_number private w))
      = events w ++ [EvCommit] ++ evs ++ commits /\
    Forall (fun ev => ev = EvCommit) commits /\
    (fst (run E A episode_number private w) = Returns s \/
     (exists e, fst (run E A episode_number private w) = Raises e) \/
     fst (run E A episode_number private w) = Diverges).
Proof.
  intros Hcommit Hgraph (Hev4 & Hvis4 & Hex4 & _) Herr.
  rewrite (run_unfold E A episode_number private w Hcommit), Hgraph, Herr.
  assert (Hrow0 : executions w4 !! Z.pos (execution_seq w) = Some _)
    by (rewrite Hex4; unfold graph_start; rewrite !advance_executions; apply created_lookup).
  match goal with |- context [call_update E ?i ?u w4] =>
    destruct (update_found E i u w4 _ Hrow0) as (row' & Heq & Hrow'); rewrite Heq end.
  cbn [u_status] in Hrow'.
  set (status := if negb (truthy (Some msg)) then lit "completed" else lit "failed") in *.
  assert (Hterm : is_terminal (Some status) = true)
    by (subst status; by destruct (negb _)).
  rewrite Hterm in *. cbn zeta in Hrow'.
  match type of Hrow' with stamp_completion ?now ?assigned = _ =>
    destruct (stamp_completion_returns now assigned) as (r & Hr & Hstatus & _) end.
  rewrite Hr in Hrow'. injection Hrow' as <-.
  assert (Hst : msg <> [] -> WorkflowExecution.status r = lit "failed").
  { intros Hmsg. rewrite Hstatus. subst status. cbn.
    change (truthy (Some msg)) with (truthy msg). rewrite (truthy_str_nonempty _ Hmsg). done. }
  cbn [u_status]. rewrite Hterm.
  set (w5 := set_executions _ _).
  assert (Hv5 : visited w5 = visited w ++ nodes).
  { subst w5. change (visited (set_executions ?m (set_ticks ?n ?w0))) with (visited w0).
    rewrite Hvis4. unfold graph_start. by rewrite !advance_visited, app_nil_r. }
  assert (He5 : events w5 = events w ++ [EvCommit] ++ evs).
  { subst w5. change (events (set_executions ?m (set_ticks ?n ?w0))) with (events w0).
    rewrite Hev4. unfold graph_start. by rewrite !advance_events, <- app_assoc. }
  destruct (session_commit E w5) as [[]|e|] eqn:Hc.
  - exists r, [EvCommit]. cbn [fst snd]. rewrite advance_executions.
    split; [subst w5; cbn; apply lookup_insert_eq|]. split; [done|].
    split; [by rewrite advance_visited, app_nil_r, Hv5|].
    split; [by rewrite advance_events, He5, <- !app_assoc|].
    split; [by constructor|by left].
  - destruct (run_failed_marks E (Z.pos (execution_seq w)) e (advance 0 [EvCommit] [] w5) r)
      as (row'' & Hrow'' & Hst'' & Hv & Hev & Hfst); [done| |].
    { rewrite advance_executions. subst w5. cbn. apply lookup_insert_eq. }
    exists row'', [EvCommit; EvCommit].
    split; [done|]. split; [done|].
    split; [by rewrite Hv, advance_visited, app_nil_r, Hv5|].
    split; [by rewrite Hev, advance_events, He5, <- !app_assoc|].
    split; [by repeat constructor|]. right. destruct Hfst; [by left|by right].
  - exists r, [EvCommit]. cbn [fst snd]. rewrite advance_executions.
    split; [subst w5; cbn; apply lookup_insert_eq|]. split; [done|].
    split; [by rewrite advance_visited, app_nil_r, Hv5|].
    split; [by rewrite advance_events, He5, <- !app_assoc|].
    split; [by constructor|by right; right].
Qed.

(** A run whose first commit goes through, over agents that leave the
    ledger alone: it stops at a failed stage, with the ledger entry
    failed when the agents explain their exceptions; or it reaches
    [save_history] with the three artifacts; or an agent does not come
    back. *)
Lemma run_stops_at_failed_stage E A episode_number private w :
  agents_frame A ->
  session_commit E (created E episode_number w) = Returns tt ->
  (exists k s row calls,
     executions (snd (run E A episode_number private w)) !! Z.pos (execution_seq w)
       = Some row /\
     (agents_explain A -> WorkflowExecution.status row = lit "failed") /\
     visited (snd (run E A episode_number private w))
       = visited w ++ nodes_through k ++ [node.handle_error] /\
     events (snd (run E A episode_number private w)) = events w ++ calls /\
     Forall (fun ev => calls_agent_after k ev = false) calls /\
     current_step s = lit "error" /\ is_Some (error s) /\ artifact_missing k s /\
     (fst (run E A episode_number private w) = Returns s \/
      (exists e, fst (run E A episode_number private w) = Raises e) \/
      fst (run E A episode_number private w) = Diverges)) \/
  (exists s evs w3,
     ainvoke E A true (run_initial_state E episode_number private w)
             (graph_start E episode_number w) =
       invoke_from E A true 21 node.save_history s w3 /\
     graph_step evs (nodes_through upload_stage) (graph_start E episode_number w) w3 /\
     error s = None /\ is_Some (story s) /\ is_Some (final_video_path s) /\
     is_Some (upload_result s)) \/
  (exists w', run E A episode_number private w = (Diverges, w')).
Proof.
  intros HA Hcommit.
  destruct (ainvoke_outcome E A true (run_initial_state E episode_number private w)
              (graph_start E episode_number w) HA)
    as [(k & s & msg & evs & w4 & Hgraph & Hstep & Hcur & Herr & Hmiss & Hevs & Hmsg)
       | [(s & evs & w3 & Heq & Hstep & He & Hs & Hp & Hu & _) | (w' & Hdiv)]]; [done| | |].
  - left.
    destruct (run_after_stage_failure E A episode_number private w s msg evs _ w4
                Hcommit Hgraph Hstep Herr)
      as (row & commits & Hrow & Hstatus & Hvisited & Hevents & Hcommits & Hfst).
    exists k, s, row, ([EvCommit] ++ evs ++ commits).
    split; [done|]. split; [by intros HA'; apply Hstatus, Hmsg|].
    split; [done|]. split; [done|].
    split.
    { apply Forall_app. split; [repeat constructor; by destruct k|].
      apply Forall_app. split; [done|].
      eapply Forall_impl; [exact Hcommits|]. intros ev ->. by destruct k. }
    split; [done|]. split; [by rewrite Herr|]. done.
  - right; left. by exists s, evs, w3.
  - right; right. exists w'. by rewrite (run_unfold E A episode_number private w Hcommit), Hdiv.
Qed.

(** Over a session whose rollback returns, the three agents never let
    an exception out of [run]. *)
Lemma session_agents_explain E : rollback_returns E -> agents_explain (session_agents E).
Proof.
  intros Hrb. repeat split.
  - intros episode save_to_db w. cbn.
    pose proof (StoryAgent_run_total (StoryAgent.init E true) episode save_to_db w) as H.
    by destruct (fst _).
  - intros prompts story_id duration output_filename w. cbn.
    assert (Hskill : update_skill_never_raises (VideoAgent.init E true)).
    { split; [by eexists|]. intros skill [= <-] id st vp em.
      eapply never_raises_weaken;
        [|apply (persistence_skill_never_raises E _ _ Hrb); constructor]. done. }
    pose proof (VideoAgent_run_total E (VideoAgent.init E true) prompts story_id duration
                  output_filename Hskill w) as H.
    by destruct (fst _).
  - intros video_path title description tags privacy_status story_id video_generation_id w. cbn.
    pose proof (YouTubeAgent_run_total (YouTubeAgent.init E true) video_path title description
                  tags privacy_status story_id video_generation_id w) as H.
    by destruct (fst _).
Qed.

End StageFailures.

(** ** Episode numbers (src/agents/story_agent.py, src/workflow.py) *)

Lemma generate_story_episode E e :
  e <> 0 -> returns_only (fun s => Story.episode s = Some e) (generate_story E (Some e)).
Proof.
  intros He. unfold generate_story.
  eapply returns_only_bind; [apply returns_only_any|]. intros hist _.
  assert (py_or_default (Some e) (Z.of_nat (length hist) + 1) = e) as ->.
  { unfold py_or_default, truthy, truthy_int. by destruct (Z.eqb_spec e 0). }
  apply returns_only_try; [|intros; apply returns_only_raise].
  eapply returns_only_bind; [apply returns_only_any|]. intros text _.
  eapply returns_only_bind; [apply always_returns_only, parse_story_response_total|].
  intros s Hs. cbn beta in Hs.
  eapply returns_only_bind; [apply returns_only_any|]. intros entry _.
  eapply returns_only_bind; [apply returns_only_any|]. intros _ _.
  by apply returns_only_ret.
Qed.

Lemma GenerateStorySkill_episode E e h :
  e <> 0 ->
  returns_only
    (fun r => forall s, SkillResult.data r = Some s -> Story.episode s = Some e)
    (GenerateStorySkill_execute E e h).
Proof.
  intros He. apply returns_only_try.
  - eapply returns_only_bind; [apply returns_only_any|]. intros _ _.
    eapply returns_only_bind; [by apply generate_story_episode|]. intros s Hs.
    apply returns_only_ret. cbn. by intros ? [= <-].
  - intros e'. apply returns_only_ret. by cbn.
Qed.

(** Once [run] has settled on an episode number, that is the number of
    the result and of the story in it. *)
Lemma StoryAgent_run_after_episode E db episode save_to_db w history e w1 :
  StoryAgent.determine_episode (StoryAgent.init E db) episode w = (Returns (history, e), w1) ->
  e <> 0 ->
  match fst (StoryAgent.run (StoryAgent.init E db) episode save_to_db w) with
  | Returns r =>
      StoryAgentResult.episode r = e /\
      (forall st, StoryAgentResult.story r = Some st -> Story.episode st = Some e)
  | Raises _ => False
  | Diverges => True
  end.
Proof.
  intros Hdet He. unfold StoryAgent.run, try_except_local. rewrite Hdet.
  apply (never_raises_try
           (fun r => StoryAgentResult.episode r = e /\
                     (forall st, StoryAgentResult.story r = Some st ->
                                 Story.episode st = Some e))).
  - eapply returns_only_bind.
    { unfold StoryAgent.generate_story.
      cbn [StoryAgent.init StoryAgent.generate_story_skill option_map execute_skill].
      eapply returns_only_bind; [by apply GenerateStorySkill_episode|].
      intros r Hr. apply returns_only_ret.
      instantiate (1 := fun o => forall s, o = Some s -> Story.episode s = Some e).
      cbn beta. unfold StoryAgent.data_if_success.
      destruct (is_success r); [exact Hr|done]. }
    intros [story|] Hstory; cbn beta in Hstory.
    + eapply returns_only_bind; [apply returns_only_any|]. intros sid _.
      apply returns_only_ret. cbn. split; [done|]. intros st [= <-]. by apply Hstory.
    + apply returns_only_ret. by cbn.
  - intros err. apply never_raises_ret. cbn. unfold py_or_default.
    by rewrite (truthy_int_nonzero e He).
Qed.

(** What [get_history] loads over a session: the [limit] rows of the
    table with the highest episode numbers. *)
Lemma get_history_window E limit rows w :
  story_history_rows E w = Returns rows -> 0 <= limit ->
  StoryAgent.get_history (StoryAgent.init E true) limit w =
    (Returns (Some (firstn (Z.to_nat limit) rows)),
     set_events (events w ++ [EvStoryGetLatest limit]) w).
Proof.
  intros Hrows Hlimit. unfold StoryAgent.get_history.
  cbn [StoryAgent.init StoryAgent.db_session StoryAgent.get_story_history_skill negb
       option_map execute_skill].
  unfold GetStoryHistorySkill_execute, StoryRepository_get_latest. unfold_M.
  rewrite Hrows. by destruct (Z.ltb_spec limit 0); [lia|].
Qed.

(** With no episode given, [run] numbers the new episode from the
    window of 50 rows it has loaded, not from the table: the number is
    [min(n, 50) + 1] for a table of [n] rows. *)
Lemma StoryAgent_run_numbers_from_window E rows save_to_db w :
  story_history_rows E w = Returns rows ->
  match fst (StoryAgent.run (StoryAgent.init E true) None save_to_db w) with
  | Returns r =>
      StoryAgentResult.episode r = Z.of_nat (min 50 (length rows)) + 1 /\
      (forall st, StoryAgentResult.story r = Some st ->
                  Story.episode st = Some (Z.of_nat (min 50 (length rows)) + 1))
  | Raises _ => False
  | Diverges => True
  end.
Proof.
  intros Hrows.
  eapply (StoryAgent_run_after_episode E true None save_to_db w
            (Some (firstn 50 rows))); [|lia].
  unfold StoryAgent.determine_episode. unfold mbind, M_bind.
  rewrite (get_history_window E 50 rows w Hrows) by lia.
  change (Z.to_nat 50) with 50%nat. by rewrite length_firstn.
Qed.

(** When the table cannot be read, [get_history] hands back an empty
    list and the numbering starts again at 1. *)
Lemma StoryAgent_run_unreadable_table E e save_to_db w :
  story_history_rows E w = Raises e ->
  match fst (StoryAgent.run (StoryAgent.init E true) None save_to_db w) with
  | Returns r => StoryAgentResult.episode r = 1
  | Raises _ => False
  | Diverges => True
  end.
Proof.
  intros Hrows.
  pose proof (StoryAgent_run_after_episode E true None save_to_db w (Some []) 1
                (set_events (events w ++ [EvStoryGetLatest 50]) w)) as H.
  destruct (fst (StoryAgent.run _ _ _ _)); [|apply H; [|done]..|done].
  - apply H; [|done].
    unfold StoryAgent.determine_episode, StoryAgent.get_history.
    cbn [StoryAgent.init StoryAgent.db_session StoryAgent.get_story_history_skill negb
         option_map execute_skill].
    unfold GetStoryHistorySkill_execute, StoryRepository_get_latest. unfold_M.
    by rewrite Hrows.
  - unfold StoryAgent.determine_episode, StoryAgent.get_history.
    cbn [StoryAgent.init StoryAgent.db_session StoryAgent.get_story_history_skill negb
         option_map execute_skill].
    unfold GetStoryHistorySkill_execute, StoryRepository_get_latest. unfold_M.
    by rewrite Hrows.
Qed.

(** C2.  Sixty episodes are stored and no episode number is given.
    [StoryAgent.run] loads the 50 latest rows, numbers the new episode
    51 and hands back a story that carries 51, a number the table
    already holds: the insert is refused and the result has no record
    id.  In the workflow, [load_history] puts the same 50 rows into the
    state, and [generate_story] asks the story agent for episode 51 and
    stores the story numbered 51. *)
Theorem sixty_stored_episodes_give_episode_51 :
  length (stored_episodes 60) = 60%nat /\
  (51 ∈ map StoryHistoryEntry.episode (stored_episodes 60)) /\
  (exists st w',
     StoryAgent.run (StoryAgent.init sixty_episodes_env true) None true empty_world
       = (Returns (StoryAgentResult.mk (Some st) None 51 true None), w') /\
     Story.episode st = Some 51) /\
  (exists s1 w1 s2 w2 st,
     VideoWorkflowAgent.load_history_node (session_agents sixty_episodes_env) true
       (WorkflowState.initial None (lit "public") (lit "T1700000000000000") (Some 1))
       empty_world = (Returns s1, w1) /\
     length (WorkflowState.story_history s1) = 50%nat /\
     VideoWorkflowAgent.generate_story_node (session_agents sixty_episodes_env) true s1 w1
       = (Returns s2, w2) /\
     existsb (fun ev => match ev with
                        | EvStoryAgentRun (Some 51) true => true
                        | _ => false
                        end) (events w2) = true /\
     WorkflowState.story s2 = Some st /\
     Story.episode st = Some 51 /\
     WorkflowState.error s2 = None).
Proof.
  split; [reflexivity|]. split; [by vm_compute; set_solver|]. split.
  - eexists _, _. split; vm_compute; reflexivity.
  - eexists _, _, _, _, _. split; [vm_compute; reflexivity|].
    split; [vm_compute; reflexivity|]. split; [vm_compute; reflexivity|].
    split; [vm_compute; reflexivity|]. split; [vm_compute; reflexivity|].
    split; vm_compute; reflexivity.
Qed.
